(** * PyFArc: the FArc / FArC archive codec of [farc.py]

    A shallow embedding of [write_gzip_name], [unpack] and [repack], of
    the binary cursor they drive and of the command line around them,
    followed by the properties of the archive layout and of the commands.

    Conventions.
    - Python [int] is [Z]; a [bytes]/[bytearray] value is a [list byte].
    - A Python [str] is the list of its code points.
    - A raised exception is an [Err] result; [unpack] additionally returns
      the list of files it had written before it stopped. *)

From Stdlib Require Import String Ascii ZArith List Bool Lia.
From Stdlib.Strings Require Import Byte.
Import ListNotations.
Local Open Scope Z_scope.

Ltac Zify.zify_post_hook ::= Z.div_mod_to_equations.

(** ** Bytes, strings and errors *)

Definition bytes := list byte.

Definition str := list Z.

(** A string literal of the source, as code points. *)
Definition pystr (s : string) : str :=
  map (fun a => Z.of_N (N_of_ascii a)) (list_ascii_of_string s).

(** An ASCII literal such as [b"hello"]. *)
Definition pybytes (s : string) : bytes := list_byte_of_string s.

Definition len {A} (l : list A) : Z := Z.of_nat (length l).

Definition byte_val (b : byte) : Z := Z.of_N (Byte.to_N b).

Definition byte_of (z : Z) : byte :=
  match Byte.of_N (Z.to_N (z mod 256)) with
  | Some b => b
  | None => x00
  end.

(** The exceptions that can leave the codec. [UnicodeError] and
    [StructError] are the Python runtime's own ([str.encode],
    [bytes.decode], [struct.pack_into]); [ZeroDivisionError] is [%] by 0. *)
Inductive error :=
| InvalidFormat
| OutOfBounds
| DecompressionError
| UnicodeError
| StructError
| ZeroDivisionError.

Inductive result (A : Type) :=
| Ok (a : A)
| Err (e : error).
Arguments Ok {A} a.
Arguments Err {A} e.

Definition bind {A B} (r : result A) (f : A -> result B) : result B :=
  match r with
  | Ok a => f a
  | Err e => Err e
  end.

Notation "x <- e ;; k" := (bind e (fun x => k))
  (at level 61, e at next level, right associativity).
Notation "' p <- e ;; k" := (bind e (fun x => let 'p := x in k))
  (at level 61, p pattern, e at next level, right associativity).

Definition of_option {A} (e : error) (o : option A) : result A :=
  match o with
  | Some a => Ok a
  | None => Err e
  end.

(** A text codec of the Python runtime: [str.encode] and [bytes.decode],
    [None] standing for the Unicode error they raise. *)
Record codec := mkCodec {
  encode : str -> option bytes;
  decode : bytes -> option str
}.

(** ** Integers on the wire *)

Inductive Endian := LITTLE | BIG.

Inductive Whence := BEGIN | CUR | END.

(** [struct.pack] with format [I]: four bytes, refused outside [0, 2^32). *)
Definition be32 (v : Z) : bytes :=
  [byte_of (v / 2 ^ 24); byte_of (v / 2 ^ 16); byte_of (v / 2 ^ 8); byte_of v].

Definition pack_uint32 (e : Endian) (v : Z) : result bytes :=
  if (0 <=? v) && (v <? 2 ^ 32) then
    Ok (match e with BIG => be32 v | LITTLE => rev (be32 v) end)
  else Err StructError.

Definition be_value (bs : bytes) : Z :=
  fold_left (fun acc b => acc * 256 + byte_val b) bs 0.

Definition unpack_uint32 (e : Endian) (bs : bytes) : Z :=
  be_value (match e with BIG => bs | LITTLE => rev bs end).

Definition pack_uint8 (v : Z) : result bytes :=
  if (0 <=? v) && (v <? 256) then Ok [byte_of v] else Err StructError.

(** ** The binary cursor

    [binary_reader.BinaryReader] is imported by [farc.py] but is not part of
    its source tree; the operations below follow the description of the
    cursor in the specification (section 4.1), completed by what the
    library does where that description is silent or differs: a write
    that runs past the end of the buffer, a string cut at its first null
    byte, a string that no null byte ends. *)

Record BinaryReader := mkBR {
  br_buf : bytes;
  br_idx : nat;
  br_endian : Endian;
  br_encoding : codec
}.

Definition with_idx (br : BinaryReader) (i : nat) : BinaryReader :=
  mkBR (br_buf br) i (br_endian br) (br_encoding br).

Definition with_buf (br : BinaryReader) (b : bytes) : BinaryReader :=
  mkBR b (br_idx br) (br_endian br) (br_encoding br).

(** Modelled from the spec: [pos()], [size()] and [buffer()] of the cursor. *)
Definition pos (br : BinaryReader) : Z := Z.of_nat (br_idx br).

Definition size (br : BinaryReader) : Z := len (br_buf br).

Definition buffer (br : BinaryReader) : bytes := br_buf br.

(** Modelled from the spec: [seek(offset, whence)]; a target outside the
    buffer is an [OutOfBounds] error. *)
Definition seek (off : Z) (w : Whence) (br : BinaryReader) : result BinaryReader :=
  let target :=
    match w with
    | BEGIN => off
    | CUR => pos br + off
    | END => size br - off
    end in
  if (0 <=? target) && (target <=? size br)
  then Ok (with_idx br (Z.to_nat target))
  else Err OutOfBounds.

(** Modelled from the spec: a read of [n] raw bytes, which fails with
    [OutOfBounds] when fewer than [n] bytes remain. *)
Definition read_bytes (n : nat) (br : BinaryReader) : result (bytes * BinaryReader) :=
  if (br_idx br + n <=? length (br_buf br))%nat
  then Ok (firstn n (skipn (br_idx br) (br_buf br)), with_idx br (br_idx br + n))
  else Err OutOfBounds.

(** Modelled from the spec: [read_uint8()]. *)
Definition read_uint8 (br : BinaryReader) : result (Z * BinaryReader) :=
  '(bs, br') <- read_bytes 1 br ;;
  Ok (be_value bs, br').

(** Modelled from the spec: [read_uint32()], in the cursor's byte order. *)
Definition read_uint32 (br : BinaryReader) : result (Z * BinaryReader) :=
  '(bs, br') <- read_bytes 4 br ;;
  Ok (unpack_uint32 (br_endian br) bs, br').

(** Modelled from the spec: [read_uint32(2)], a pair of consecutive values. *)
Definition read_uint32_2 (br : BinaryReader) : result (Z * Z * BinaryReader) :=
  '(bs, br') <- read_bytes 8 br ;;
  Ok (unpack_uint32 (br_endian br) (firstn 4 bs),
      unpack_uint32 (br_endian br) (skipn 4 bs), br').

(** The bytes before the first null byte, if there is one. *)
Fixpoint scan_null (l : bytes) : option bytes :=
  match l with
  | [] => None
  | b :: t =>
      if Byte.eqb b x00 then Some []
      else option_map (cons b) (scan_null t)
  end.

(** [bs.split(b'\x00', 1)[0]]: the bytes before the first null byte, all
    of them when there is none. *)
Definition cut_null (l : bytes) : bytes :=
  match scan_null l with
  | Some span => span
  | None => l
  end.

(** Modelled from the spec: [read_str(length)], exactly [length] bytes
    read. The library decodes them up to their first null byte only. *)
Definition read_str_n (n : nat) (br : BinaryReader) : result (str * BinaryReader) :=
  '(bs, br') <- read_bytes n br ;;
  s <- of_option UnicodeError (decode (br_encoding br) (cut_null bs)) ;;
  Ok (s, br').

(** Modelled from the spec: [read_str()], the span up to the next null byte,
    the position moved past that null. Without a null byte the library
    takes the bytes up to the end of the buffer and leaves the position
    there, so that it is the next read that fails. *)
Definition read_str (br : BinaryReader) : result (str * BinaryReader) :=
  let rest := skipn (br_idx br) (br_buf br) in
  match scan_null rest with
  | Some span =>
      s <- of_option UnicodeError (decode (br_encoding br) span) ;;
      Ok (s, with_idx br (br_idx br + length span + 1))
  | None =>
      s <- of_option UnicodeError (decode (br_encoding br) rest) ;;
      Ok (s, with_idx br (br_idx br + length rest))
  end.

(** Modelled from the spec: the append-or-overwrite rule of every write.
    Bytes that fit in the buffer replace what was there and the position
    moves past them; at the end of the buffer they are appended and the
    position follows. A write that starts inside the buffer and runs past
    its end is what the library makes of it: the buffer first grows by as
    many zero bytes as are written, the bytes are then put in at the
    position, and the position stays where it was. *)
Definition write_bytes (bs : bytes) (br : BinaryReader) : BinaryReader :=
  let i := br_idx br in
  let n := length bs in
  if (i + n <=? length (br_buf br))%nat then
    mkBR (firstn i (br_buf br) ++ bs ++ skipn (i + n) (br_buf br))
         (i + n) (br_endian br) (br_encoding br)
  else
    let grown := br_buf br ++ repeat x00 n in
    mkBR (firstn i grown ++ bs ++ skipn (i + n) grown)
         (if (i =? length (br_buf br))%nat then i + n else i)
         (br_endian br) (br_encoding br).

(** Modelled from the spec: [write_uint8(v)]. *)
Definition write_uint8 (v : Z) (br : BinaryReader) : result BinaryReader :=
  bs <- pack_uint8 v ;;
  Ok (write_bytes bs br).

(** Modelled from the spec: [write_uint32(v)]. *)
Definition write_uint32 (v : Z) (br : BinaryReader) : result BinaryReader :=
  bs <- pack_uint32 (br_endian br) v ;;
  Ok (write_bytes bs br).

(** Modelled from the spec: [write_str(s, null)], encoded with the cursor's
    codec, a single null byte appended on request. *)
Definition write_str (s : str) (null : bool) (br : BinaryReader) : result BinaryReader :=
  bs <- of_option UnicodeError (encode (br_encoding br) s) ;;
  Ok (write_bytes (bs ++ (if null then [x00] else [])) br).

(** Modelled from the spec: [extend(bytes)] appends and leaves the position
    where it was (the writer seeks forward by hand afterwards, farc.py:163). *)
Definition extend (bs : bytes) (br : BinaryReader) : BinaryReader :=
  with_buf br (br_buf br ++ bs).

(** Modelled from the spec: zero padding appended at the end; the position
    follows only when it stood at the end. *)
Definition pad (n : Z) (br : BinaryReader) : BinaryReader :=
  let i := if (br_idx br =? length (br_buf br))%nat
           then Z.to_nat (pos br + n) else br_idx br in
  mkBR (br_buf br ++ repeat x00 (Z.to_nat n)) i (br_endian br) (br_encoding br).

(** Modelled from the spec: [align(n)] pads until [size() % n == 0]. *)
Definition align (n : Z) (br : BinaryReader) : result BinaryReader :=
  if n =? 0 then Err ZeroDivisionError
  else if size br mod n =? 0 then Ok br
  else Ok (pad (n - size br mod n) br).

Fixpoint str_eqb (a b : str) : bool :=
  match a, b with
  | [], [] => true
  | x :: a', y :: b' => (x =? y) && str_eqb a' b'
  | _, _ => false
  end.

(** Python's [buffer[lo:hi]] for [0 <= lo]: the slice is clamped to the
    buffer, it never raises. *)
Definition slice (buf : bytes) (lo hi : Z) : bytes :=
  firstn (Z.to_nat (hi - lo)) (skipn (Z.to_nat lo) buf).

Fixpoint foldM {S X : Type} (f : S -> X -> result S) (s : S) (l : list X) : result S :=
  match l with
  | [] => Ok s
  | x :: t => s' <- f s x ;; foldM f s' t
  end.

(** One row of the entry table as [repack] writes it, with the payload that
    went to the data buffer for it. *)
Record written := mkWritten {
  w_name : str;
  w_offset : Z;
  w_size : Z;
  w_payload : bytes
}.

(** The two buffers of [repack] and the rows written so far. *)
Record writer := mkWriter {
  farc : BinaryReader;
  data_br : BinaryReader;
  table : list written
}.

(** The Python runtime and the cursor library, as far as [farc.py] relies on
    them without fixing them itself. *)
Record runtime := mkRuntime {
  (** [ENCODING = 'cp932'], the codec of that name. *)
  ENCODING : codec;
  (** The codec and byte order of a [BinaryReader] built without them. *)
  default_encoding : codec;
  default_endianness : Endian;
  (** [gzip.compress] stamps the current time into the stream. *)
  gzip_mtime : Z;
  (** The DEFLATE stream of a gzip member together with its CRC-32 and
      length trailer, and the decoder of what follows a member header. *)
  deflate_member : bytes -> bytes;
  inflate_member : bytes -> option bytes
}.

Section FArc.

Variable rt : runtime.

(** ** gzip *)

(** Modelled from the spec: [gzip.compress], the fixed 10-byte header
    (magic, method, flags, mtime, extra flags, OS) with no optional field,
    then the compressed body. *)
Definition gzip_compress (data : bytes) : bytes :=
  [x1f; x8b; x08; x00]
    ++ [byte_of (gzip_mtime rt); byte_of (gzip_mtime rt / 2 ^ 8);
        byte_of (gzip_mtime rt / 2 ^ 16); byte_of (gzip_mtime rt / 2 ^ 24)]
    ++ [x02; xff]
    ++ deflate_member rt data.

(** What follows a null-terminated header field; the end of input also ends
    the field. *)
Fixpoint after_null (l : bytes) : bytes :=
  match l with
  | [] => []
  | b :: t => if Byte.eqb b x00 then t else after_null t
  end.

Definition skip_exact (n : nat) (l : bytes) : result bytes :=
  if (n <=? length l)%nat then Ok (skipn n l) else Err DecompressionError.

(** Modelled from the spec: [gzip.decompress], standard gzip decoding that
    skips the optional header fields announced by the flags byte (FEXTRA 4,
    FNAME 8, FCOMMENT 16, FHCRC 2); empty input decodes to nothing. *)
Definition gzip_decompress (data : bytes) : result bytes :=
  match data with
  | [] => Ok []
  | id1 :: id2 :: cm :: flg :: _ :: _ :: _ :: _ :: _ :: _ :: rest =>
      if Byte.eqb id1 x1f && Byte.eqb id2 x8b && Byte.eqb cm x08 then
        let flags := byte_val flg in
        rest <- (if Z.testbit flags 2 then
                   match rest with
                   | l0 :: l1 :: rest' =>
                       skip_exact (Z.to_nat (byte_val l0 + 256 * byte_val l1)) rest'
                   | _ => Err DecompressionError
                   end
                 else Ok rest) ;;
        let rest := if Z.testbit flags 3 then after_null rest else rest in
        let rest := if Z.testbit flags 4 then after_null rest else rest in
        rest <- (if Z.testbit flags 1 then skip_exact 2 rest else Ok rest) ;;
        of_option DecompressionError (inflate_member rt rest)
      else Err DecompressionError
  | _ => Err DecompressionError
  end.

(** ** [write_gzip_name] (farc.py:33) *)

Definition write_gzip_name (name : str) (data : bytes) : result bytes :=
  let br := mkBR data 0 (default_endianness rt) (default_encoding rt) in
  (* Enable FNAME flag *)
  br <- seek 3 BEGIN br ;;
  '(flags, br) <- read_uint8 br ;;
  br <- seek 3 BEGIN br ;;
  br <- write_uint8 (Z.lor flags 8) br ;;
  (* Set operating system flag to Unix *)
  br <- seek 9 BEGIN br ;;
  br <- write_uint8 3 br ;;
  (* Write the file name *)
  let buf := skipn (br_idx br) (buffer br) in
  br <- write_str name true br ;;
  Ok (firstn (br_idx br) (buffer br) ++ buf).

(** ** [unpack] (farc.py:53) *)

(** The loop of farc.py:80. Every round reads at least nine bytes, so the
    rounds are bounded by the buffer length, which is the [fuel] that
    [parse_header] passes; more fuel changes nothing. *)
Fixpoint read_entries (fuel : nat) (is_compressed : bool) (header_size : Z)
    (farc : BinaryReader) (entries : list (str * Z * Z))
    : result (list (str * Z * Z)) :=
  if pos farc <? header_size then
    match fuel with
    | O => Err OutOfBounds
    | S fuel' =>
        (* File name, offset, size *)
        '(name, farc) <- read_str farc ;;
        '(offset, sz, farc) <- read_uint32_2 farc ;;
        let entries := entries ++ [(name, offset, sz)] in
        if is_compressed then
          (* Size decompressed *)
          '(_, farc) <- read_uint32 farc ;;
          read_entries fuel' is_compressed header_size farc entries
        else read_entries fuel' is_compressed header_size farc entries
    end
  else Ok entries.

(** farc.py:66-86: magic, header size, alignment and the entry table. *)
Definition parse_header_fuel (fuel : nat) (input : bytes)
    : result (bool * list (str * Z * Z)) :=
  let farc := mkBR input 0 BIG (ENCODING rt) in
  (* FArc is uncompressed, FArC uses gzip compression *)
  '(magic, farc) <- read_str_n 4 farc ;;
  if negb (str_eqb magic (pystr "FArc") || str_eqb magic (pystr "FArC"))
  then Err InvalidFormat
  else
    let is_compressed := str_eqb magic (pystr "FArC") in
    '(hs, farc) <- read_uint32 farc ;;
    let header_size := hs + 8 in
    (* Alignment size for header and data buffer *)
    '(_, farc) <- read_uint32 farc ;;
    entries <- read_entries fuel is_compressed header_size farc [] ;;
    Ok (is_compressed, entries).

Definition parse_header (input : bytes) : result (bool * list (str * Z * Z)) :=
  parse_header_fuel (length input) input.

(** farc.py:89-97: the files are written one by one, so those before a
    failing entry are already out when the exception leaves. *)
Fixpoint extract (is_compressed : bool) (buffer : bytes) (entries : list (str * Z * Z))
    : list (str * bytes) * result unit :=
  match entries with
  | [] => ([], Ok tt)
  | (name, offset, sz) :: rest =>
      let data := slice buffer offset (offset + sz) in
      match (if is_compressed then gzip_decompress data else Ok data) with
      | Err e => ([], Err e)
      | Ok data =>
          let '(out, r) := extract is_compressed buffer rest in
          ((name, data) :: out, r)
      end
  end.

Definition unpack (input : bytes) : list (str * bytes) * result unit :=
  match parse_header input with
  | Err e => ([], Err e)
  | Ok (is_compressed, entries) => extract is_compressed input entries
  end.

(** ** [repack] (farc.py:102) *)

(** Entry size without string *)
Definition entry_size (use_compression : bool) : Z :=
  if use_compression then 0xC else 8.

(** The sum of farc.py:123, the names measured in [ENCODING]. *)
Fixpoint sum_costs (use_compression : bool) (file_paths : list (str * bytes)) : result Z :=
  match file_paths with
  | [] => Ok 0
  | (name, _) :: rest =>
      b <- of_option UnicodeError (encode (ENCODING rt) name) ;;
      s <- sum_costs use_compression rest ;;
      Ok (len b + 1 + entry_size use_compression + s)
  end.

(** The body of the loop of farc.py:134. *)
Definition add_file (use_compression : bool) (align_value header_size : Z)
    (st : writer) (f : str * bytes) : result writer :=
  let '(name, data) := f in
  farc <- write_str name true (farc st) ;;
  (* Offset *)
  let offset := header_size + size (data_br st) in
  farc <- write_uint32 offset farc ;;
  '(farc, payload) <-
    (if use_compression then
       (* Compress the file and add its name to the header *)
       compressed_data <- write_gzip_name name (gzip_compress data) ;;
       (* Size of compressed file *)
       farc <- write_uint32 (len compressed_data) farc ;;
       Ok (farc, compressed_data)
     else Ok (farc, data)) ;;
  let data_br := extend payload (data_br st) in
  (* Align data after adding the file *)
  data_br <- align align_value data_br ;;
  (* Size of decompressed file *)
  farc <- write_uint32 (len data) farc ;;
  Ok (mkWriter farc data_br
        (table st ++ [mkWritten name offset (len payload) payload])).

(** farc.py:119-157: the layout arithmetic, the three header fields and the
    loop; the result is [(org_header_size, header_size, state)]. *)
Definition repack_run (file_paths : list (str * bytes)) (use_compression : bool)
    (align_value : Z) : result (Z * Z * writer) :=
  (* Header size from the start of the file *)
  total <- sum_costs use_compression file_paths ;;
  let org_header_size := total + 0xC in
  header_size <-
    (if align_value =? 0 then Err ZeroDivisionError
     else if org_header_size mod align_value =? 0 then Ok org_header_size
     else Ok (org_header_size + (align_value - org_header_size mod align_value))) ;;
  let farc := mkBR [] 0 BIG (default_encoding rt) in
  farc <- write_str (pystr (if use_compression then "FArC" else "FArc")) false farc ;;
  farc <- write_uint32 (org_header_size - 8) farc ;;
  farc <- write_uint32 align_value farc ;;
  let data_br := mkBR [] 0 (default_endianness rt) (default_encoding rt) in
  st <- foldM (add_file use_compression align_value header_size)
          (mkWriter farc data_br []) file_paths ;;
  Ok (org_header_size, header_size, st).

(** farc.py:159-167: align after the header, append the data, and hand the
    buffer to the output file. *)
Definition finish (align_value : Z) (st : writer) : result bytes :=
  (* Align after header *)
  farc <- align align_value (farc st) ;;
  let farc := extend (buffer (data_br st)) farc in
  farc <- seek (size (data_br st)) CUR farc ;;
  Ok (buffer farc).

Definition repack (file_paths : list (str * bytes)) (use_compression : bool)
    (align_value : Z) : result bytes :=
  '(_, _, st) <- repack_run file_paths use_compression align_value ;;
  finish align_value st.

End FArc.

(** ** A runtime to run the model on

    The tables of Python's codecs and the DEFLATE coder are outside the
    source tree. The instances below are enough to evaluate the model on
    concrete archives. *)

Definition cp932_char (c : Z) : option byte :=
  if (0 <=? c) && (c <? 0x80) then Some (byte_of c)
  else if (0xFF61 <=? c) && (c <=? 0xFF9F) then Some (byte_of (c - 0xFF61 + 0xA1))
  else None.

Definition cp932_byte (b : byte) : option Z :=
  let v := byte_val b in
  if v <? 0x80 then Some v
  else if (0xA1 <=? v) && (v <=? 0xDF) then Some (v - 0xA1 + 0xFF61)
  else None.

Fixpoint traverse {A B : Type} (f : A -> option B) (l : list A) : option (list B) :=
  match l with
  | [] => Some []
  | a :: t =>
      match f a, traverse f t with
      | Some b, Some r => Some (b :: r)
      | _, _ => None
      end
  end.

(** Modelled from the spec: the fixed codepage [cp932], on its single-byte
    rows only (ASCII, and the half-width katakana U+FF61..U+FF9F at
    0xA1..0xDF). The double-byte rows are not tabulated: a character or a
    byte of those rows is answered [None] by this instance, which Python
    would encode or decode. The lemmas that run the instance keep to names
    of the single-byte rows, to characters that cp932 does not have at
    all, and to bytes that it refuses. *)
Definition cp932 : codec := mkCodec (traverse cp932_char) (traverse cp932_byte).

Definition utf8_char (c : Z) : option bytes :=
  if c <? 0 then None
  else if c <? 0x80 then Some [byte_of c]
  else if c <? 0x800 then
    Some [byte_of (0xC0 + c / 64); byte_of (0x80 + c mod 64)]
  else if (0xD800 <=? c) && (c <=? 0xDFFF) then None
  else if c <? 0x10000 then
    Some [byte_of (0xE0 + c / 4096); byte_of (0x80 + (c / 64) mod 64);
          byte_of (0x80 + c mod 64)]
  else if c <? 0x110000 then
    Some [byte_of (0xF0 + c / 262144); byte_of (0x80 + (c / 4096) mod 64);
          byte_of (0x80 + (c / 64) mod 64); byte_of (0x80 + c mod 64)]
  else None.

Definition utf8_encode (s : str) : option bytes :=
  option_map (@concat byte) (traverse utf8_char s).

Definition is_cont (b : byte) : bool :=
  (0x80 <=? byte_val b) && (byte_val b <? 0xC0).

Definition cont_val (b : byte) : Z := byte_val b - 0x80.

Definition scalar_in (lo hi c : Z) : option Z :=
  if (lo <=? c) && (c <? hi) && negb ((0xD800 <=? c) && (c <=? 0xDFFF))
  then Some c else None.

Fixpoint utf8_decode (l : bytes) : option str :=
  match l with
  | [] => Some []
  | b0 :: t =>
      let v0 := byte_val b0 in
      let push (c : option Z) (r : option str) : option str :=
        match c, r with
        | Some c, Some r => Some (c :: r)
        | _, _ => None
        end in
      if v0 <? 0x80 then push (Some v0) (utf8_decode t)
      else
        match t with
        | b1 :: t1 =>
            if negb (is_cont b1) then None
            else if v0 <? 0xC0 then None
            else if v0 <? 0xE0 then
              push (scalar_in 0x80 0x800 ((v0 - 0xC0) * 64 + cont_val b1))
                   (utf8_decode t1)
            else
              match t1 with
              | b2 :: t2 =>
                  if negb (is_cont b2) then None
                  else if v0 <? 0xF0 then
                    push (scalar_in 0x800 0x10000
                            (((v0 - 0xE0) * 64 + cont_val b1) * 64 + cont_val b2))
                         (utf8_decode t2)
                  else
                    match t2 with
                    | b3 :: t3 =>
                        if negb (is_cont b3) then None
                        else
                          push (scalar_in 0x10000 0x110000
                                  ((((v0 - 0xF0) * 64 + cont_val b1) * 64
                                    + cont_val b2) * 64 + cont_val b3))
                               (utf8_decode t3)
                    | [] => None
                    end
              | [] => None
              end
        | [] => None
        end
  end.

(** UTF-8, the default codec of the cursor library: what a [BinaryReader]
    built without an encoding writes its strings in. *)
Definition utf8 : codec := mkCodec utf8_encode utf8_decode.

Definition bytes_eqb (a b : bytes) : bool :=
  str_eqb (map byte_val a) (map byte_val b).

Definition no_null (bs : bytes) : bool :=
  forallb (fun b => negb (Byte.eqb b x00)) bs.

(** The members zlib writes at level 9, the level of [gzip.compress], for
    the contents of the files used as examples: the raw DEFLATE stream,
    the CRC-32 of the contents and their length. *)
Definition zlib_members : list (bytes * bytes) :=
  [
    (pybytes "hi",
     [xcb; xc8; x04; x00; xac; x2a; x93; xd8; x02; x00; x00; x00]);
    (pybytes "hello",
     [xcb; x48; xcd; xc9; xc9; x07; x00; x86; xa6; x10; x36; x05; x00; x00; x00]);
    (pybytes "xyz",
     [xab; xa8; xac; x02; x00; x67; xba; x8e; xeb; x03; x00; x00; x00]);
    ([],
     [x03; x00; x00; x00; x00; x00; x00; x00; x00; x00])
  ].

Fixpoint strip_prefix (p l : bytes) : option bytes :=
  match p, l with
  | [], _ => Some l
  | x :: p', y :: l' => if Byte.eqb x y then strip_prefix p' l' else None
  | _ :: _, [] => None
  end.

(** The DEFLATE coder on the table above. Contents outside the table are
    not modelled ([zlib_deflate] answers the empty member for them).
    [zlib_inflate] accepts a member of the table, followed by zero bytes
    or by nothing, as [gzip.decompress] allows, and refuses every other
    body, a member followed by another gzip stream included; the lemmas
    that run this instance keep to the table and to bodies that zlib
    refuses as well. *)
Definition zlib_deflate (data : bytes) : bytes :=
  match find (fun m => bytes_eqb (fst m) data) zlib_members with
  | Some m => snd m
  | None => []
  end.

Definition zlib_inflate (body : bytes) : option bytes :=
  option_map fst
    (find (fun m => match strip_prefix (snd m) body with
                    | Some rest => forallb (fun b => Byte.eqb b x00) rest
                    | None => false
                    end) zlib_members).

(** The runtime [farc.py] meets: cp932 for [ENCODING], and the defaults of
    the cursor library, UTF-8 and little endian, for the cursors it builds
    without naming them. The time stamp of [gzip.compress] is taken as 0. *)
Definition python_rt : runtime :=
  mkRuntime cp932 utf8 LITTLE 0 zlib_deflate zlib_inflate.

(** The same runtime with a cursor library whose default codec were
    [ENCODING] itself. *)
Definition uniform_rt : runtime :=
  mkRuntime cp932 cp932 LITTLE 0 zlib_deflate zlib_inflate.

(** ** Side conditions and the layout invariant *)

(** A name the archive can carry: the writer's cursor and [ENCODING] encode
    it to the same bytes, these hold no null byte, and [ENCODING] decodes
    them back to the name. *)
Definition name_ok (rt : runtime) (name : str) : bool :=
  match encode (ENCODING rt) name, encode (default_encoding rt) name with
  | Some nb, Some nb' =>
      bytes_eqb nb nb' && no_null nb &&
      match decode (ENCODING rt) nb with
      | Some s => str_eqb s name
      | None => false
      end
  | _, _ => false
  end.

Definition names_ok (rt : runtime) (files : list (str * bytes)) : bool :=
  forallb (fun f => name_ok rt (fst f)) files.

(** A file that [repack] can compress and [unpack] get back: its name with
    the null byte is no longer than the DEFLATE member of its contents, so
    that [write_gzip_name] finds room for it inside the stream, and the
    decoder returns the contents from that member. *)
Definition member_ok (rt : runtime) (f : str * bytes) : bool :=
  match encode (default_encoding rt) (fst f),
        inflate_member rt (deflate_member rt (snd f)) with
  | Some nb, Some data =>
      (length nb + 1 <=? length (deflate_member rt (snd f)))%nat
      && bytes_eqb data (snd f)
  | _, _ => false
  end.

Definition members_ok (rt : runtime) (files : list (str * bytes)) : bool :=
  forallb (member_ok rt) files.

(** The two magic strings are written and read back as their ASCII bytes. *)
Definition magic_ok (rt : runtime) : bool :=
  forallb (fun m =>
    match encode (default_encoding rt) (pystr m), decode (ENCODING rt) (pybytes m) with
    | Some mb, Some s => bytes_eqb mb (pybytes m) && str_eqb s (pystr m)
    | _, _ => false
    end) ["FArc"%string; "FArC"%string].

(** The row of the table that the reader takes from a written row. *)
Definition entry_of (w : written) : str * Z * Z :=
  (w_name w, w_offset w, w_size w).

(** What the loop of [repack] adds to its two buffers for a list of files,
    when the data buffer holds [d] bytes on entry: the rows, the bytes of
    the table and the bytes of the data region. *)
Inductive laid_out (rt : runtime) (c : bool) (a hs : Z)
  : Z -> list (str * bytes) -> list written -> bytes -> bytes -> Prop :=
| laid_nil d : laid_out rt c a hs d [] [] [] []
| laid_cons d name data files nb payload k rows tb db :
    encode (default_encoding rt) name = Some nb ->
    (if c then write_gzip_name rt name (gzip_compress rt data) = Ok payload
     else payload = data) ->
    0 <= hs + d < 2 ^ 32 ->
    len payload < 2 ^ 32 ->
    len data < 2 ^ 32 ->
    0 <= Z.of_nat k < a ->
    (d + len payload + Z.of_nat k) mod a = 0 ->
    laid_out rt c a hs (d + len payload + Z.of_nat k) files rows tb db ->
    laid_out rt c a hs d ((name, data) :: files)
      (mkWritten name (hs + d) (len payload) payload :: rows)
      (nb ++ [x00] ++ be32 (hs + d) ++ be32 (len payload)
          ++ (if c then be32 (len data) else []) ++ tb)
      (payload ++ repeat x00 k ++ db).

(** A cursor that stands at the end of its buffer [buf]. *)
Definition appender (e : Endian) (enc : codec) (buf : bytes) : BinaryReader :=
  mkBR buf (length buf) e enc.

(** An upper bound on what the files add to the data region, payloads and
    padding, which also bounds each raw length. *)
Fixpoint data_bound (rt : runtime) (c : bool) (a : Z) (files : list (str * bytes)) : Z :=
  match files with
  | [] => 0
  | (name, data) :: rest =>
      let n := match encode (default_encoding rt) name with
               | Some nb => len nb
               | None => 0
               end in
      (if c then len (gzip_compress rt data) + n + 1 else len data)
      + a + len data + data_bound rt c a rest
  end.

(** An upper bound on the size of the archive: the header with its padding,
    then the data region. *)
Definition size_bound (rt : runtime) (c : bool) (a : Z) (files : list (str * bytes)) : Z :=
  match sum_costs rt c files with
  | Ok total => total + 0xC + a + data_bound rt c a files
  | Err _ => 0
  end.

(** ** Archives used as examples *)

(** The file of the specification's example. *)
Definition example_files : list (str * bytes) :=
  [(pystr "a.txt", pybytes "hello")].

(** The archive [repack] writes for it, compression off, alignment 1: the
    table ends at byte 26 and the data starts there. *)
Definition example_archive : bytes :=
  pybytes "FArc" ++ be32 (26 - 8) ++ be32 1
    ++ pybytes "a.txt" ++ [x00] ++ be32 26 ++ be32 5
    ++ pybytes "hello".

(** The bytes the specification gives for the same example. *)
Definition spec_example_archive : bytes :=
  pybytes "FArc" ++ be32 (12 - 8) ++ be32 1
    ++ pybytes "a.txt" ++ [x00] ++ be32 20 ++ be32 5
    ++ pybytes "hello".

(** [example_archive] cut two bytes short. *)
Definition truncated_archive : bytes := firstn 29 example_archive.

Definition two_files : list (str * bytes) :=
  [(pystr "a.txt", pybytes "hello"); (pystr "b", pybytes "xyz")].

Definition two_files_archive : bytes :=
  Eval vm_compute in
    match repack python_rt two_files true 16 with
    | Ok archive => archive
    | Err _ => []
    end.

(** One file whose name starts with a half-width katakana letter (U+FF71):
    one byte in cp932, three in UTF-8. *)
Definition kana_files : list (str * bytes) :=
  [(0xFF71 :: pystr ".bin", pybytes "hi")].

(** A compressed archive of two entries: the first payload is the gzip
    stream of [b"hi"], 22 bytes, the second is a single stray byte. *)
Definition broken_archive : bytes :=
  pybytes "FArC" ++ be32 (40 - 8) ++ be32 1
    ++ pybytes "a" ++ [x00] ++ be32 40 ++ be32 22 ++ be32 2
    ++ pybytes "b" ++ [x00] ++ be32 62 ++ be32 1 ++ be32 1
    ++ gzip_compress python_rt (pybytes "hi")
    ++ pybytes "x".

(** An uncompressed archive whose single entry points at the alignment
    field itself. *)
Definition peek_archive (align_value : Z) : bytes :=
  pybytes "FArc" ++ be32 (22 - 8) ++ be32 align_value
    ++ pybytes "a" ++ [x00] ++ be32 8 ++ be32 4.

(** A compressed archive whose table breaks every rule of the data model:
    two entries of the same name share one payload, and a third, empty one
    points back into the header. *)
Definition unruly_archive : bytes :=
  pybytes "FArC" ++ be32 (54 - 8) ++ be32 1
    ++ pybytes "a" ++ [x00] ++ be32 54 ++ be32 22 ++ be32 2
    ++ pybytes "a" ++ [x00] ++ be32 54 ++ be32 22 ++ be32 2
    ++ pybytes "b" ++ [x00] ++ be32 4 ++ be32 0 ++ be32 0
    ++ gzip_compress python_rt (pybytes "hi").

(** An uncompressed archive whose entries keep clear of the alignment
    field without all lying behind it: the first is the magic itself, the
    second is empty and points into the field, the third starts right
    after it. *)
Definition low_archive (align_value : Z) : bytes :=
  pybytes "FArc" ++ be32 (42 - 8) ++ be32 align_value
    ++ pybytes "m" ++ [x00] ++ be32 0 ++ be32 4
    ++ pybytes "e" ++ [x00] ++ be32 9 ++ be32 0
    ++ pybytes "t" ++ [x00] ++ be32 12 ++ be32 2.

(** ** The command line of [farc.py]

    [remove_path], the file handling of [unpack] and [repack] around the
    codec, and [main]. What the operating system and the user answer is an
    input of the model; what the program does to them is recorded in
    order, as a list of events. *)

Inductive event :=
| EvPrint (text : str)
| EvInput (prompt : str)
| EvRmtree (path : str)
| EvRemove (path : str)
| EvMkdir (path : str)
| EvRead (path : str)
| EvWrite (path : str) (data : bytes)
| EvPause.

(** An exception that leaves the program: one of the codec, or the failure
    of a call on the operating system. *)
Inductive exn :=
| CoreError (e : error)
| OSError (call : event).

Inductive ran (A : Type) :=
| Returned (a : A)
| Raised (x : exn).
Arguments Returned {A} a.
Arguments Raised {A} x.

Definition io (A : Type) : Type := list event * ran A.

Definition ret {A} (a : A) : io A := ([], Returned a).

Definition emit (e : event) : io unit := ([e], Returned tt).

Definition raise {A} (x : exn) : io A := ([], Raised x).

Definition io_bind {A B} (m : io A) (f : A -> io B) : io B :=
  match m with
  | (t, Returned a) => let (t', r) := f a in (t ++ t', r)
  | (t, Raised x) => (t, Raised x)
  end.

Definition lift {A} (r : result A) : io A :=
  match r with
  | Ok a => ret a
  | Err e => raise (CoreError e)
  end.

Notation "x <~ e ;; k" := (io_bind e (fun x => k))
  (at level 61, e at next level, right associativity).
Notation "e ;;; k" := (io_bind e (fun _ => k))
  (at level 61, right associativity).

(** The answers of the operating system and of the user. [os_write_ok n]
    answers for the file opened for writing after [n] others. *)
Record os := mkOS {
  os_exists : str -> bool;
  os_isfile : str -> bool;
  os_isdir : str -> bool;
  os_input : str;
  os_remove_ok : str -> bool;
  os_mkdir_ok : str -> bool;
  os_read : str -> option bytes;
  os_write_ok : nat -> str -> bool;
  (** The file names of the first triple [os.walk] yields, none when it
      yields nothing. *)
  os_walk : str -> list str;
  os_join : str -> str -> str
}.

Definition nl : str := [10].

Definition dq : str := [34].

Definition ascii_lower (ch : Z) : Z :=
  if (65 <=? ch) && (ch <=? 90) then ch + 32 else ch.

(** [str.lower] on the ASCII letters. No other character lowers to [y], so
    the comparison of [remove_path] is decided as in Python. *)
Definition lower (s : str) : str := map ascii_lower s.

(** farc.py:16 *)
Definition remove_path (w : os) (path : str) (force_overwrite : bool) : io bool :=
  cancelled <~
    (if negb force_overwrite then
       emit (EvInput (pystr "Output path exists. Overwrite? (Y/N) ")) ;;;
       ret (negb (str_eqb (lower (os_input w)) (pystr "y")))
     else ret false) ;;
  if cancelled : bool then
    emit (EvPrint (pystr "User cancelled.")) ;;; ret false
  else
    emit (if os_isdir w path then EvRmtree path else EvRemove path) ;;;
    (if os_remove_ok w path then ret true
     else emit (EvPrint (pystr "Error: Could not remove existing path.")) ;;;
          ret false).

(** farc.py:54-60 and 103-109: clear the existing output; [false] when the
    caller is to return at once. *)
Definition prepare_output (w : os) (out_path : str) (force_overwrite : bool) : io bool :=
  if os_exists w out_path then
    removed <~ remove_path w out_path force_overwrite ;;
    if removed : bool then emit (EvPrint []) ;;; ret true
    else emit (EvPrint (pystr "Aborting.")) ;;; ret false
  else ret true.

(** farc.py:89-97, with the files written for real. *)
Fixpoint write_files (rt : runtime) (w : os) (out_path : str) (is_compressed : bool)
    (buffer : bytes) (n : nat) (entries : list (str * Z * Z)) : io unit :=
  match entries with
  | [] => ret tt
  | (name, offset, sz) :: rest =>
      let data := slice buffer offset (offset + sz) in
      data <~ lift (if is_compressed then gzip_decompress rt data else Ok data) ;;
      emit (EvPrint (pystr "Writing " ++ name ++ pystr " ...")) ;;;
      let path := os_join w out_path name in
      emit (EvWrite path data) ;;;
      (if os_write_ok w n path
       then write_files rt w out_path is_compressed buffer (S n) rest
       else raise (OSError (EvWrite path data)))
  end.

(** The magic as the error message shows it. *)
Definition magic_of (rt : runtime) (input : bytes) : str :=
  match decode (ENCODING rt) (cut_null (firstn 4 input)) with
  | Some magic => magic
  | None => []
  end.

(** farc.py:53, the whole function. A wrong magic is printed and the
    function returns; the other errors of the parser are exceptions. *)
Definition unpack_io (rt : runtime) (w : os) (in_path out_path : str)
    (force_overwrite : bool) : io unit :=
  go <~ prepare_output w out_path force_overwrite ;;
  if negb go then ret tt
  else
    (* Create an empty directory *)
    emit (EvMkdir out_path) ;;;
    (if negb (os_mkdir_ok w out_path) then raise (OSError (EvMkdir out_path))
     else
       emit (EvRead in_path) ;;;
       match os_read w in_path with
       | None => raise (OSError (EvRead in_path))
       | Some input =>
           match parse_header rt input with
           | Err InvalidFormat =>
               emit (EvPrint (pystr "Error: unexpected magic: " ++ magic_of rt input))
           | Err e => raise (CoreError e)
           | Ok (is_compressed, entries) =>
               write_files rt w out_path is_compressed input 0 entries ;;;
               emit (EvPrint (nl ++ pystr "FArc was unpacked to " ++ dq ++ out_path ++ dq))
           end
       end).

(** The body of the loop of farc.py:134, the file read where the source
    reads it. *)
Definition add_file_io (rt : runtime) (w : os) (use_compression : bool)
    (align_value header_size : Z) (st : writer) (f : str * str) : io writer :=
  let '(name, path) := f in
  emit (EvPrint (pystr "Adding " ++ name ++ pystr " ...")) ;;;
  farc <~ lift (write_str name true (farc st)) ;;
  (* Offset *)
  let offset := header_size + size (data_br st) in
  farc <~ lift (write_uint32 offset farc) ;;
  emit (EvRead path) ;;;
  match os_read w path with
  | None => raise (OSError (EvRead path))
  | Some data =>
      p <~ lift (if use_compression then
                   compressed_data <- write_gzip_name rt name (gzip_compress rt data) ;;
                   farc <- write_uint32 (len compressed_data) farc ;;
                   Ok (farc, compressed_data)
                 else Ok (farc, data)) ;;
      let '(farc, payload) := p in
      let data_br := extend payload (data_br st) in
      data_br <~ lift (align align_value data_br) ;;
      farc <~ lift (write_uint32 (len data) farc) ;;
      ret (mkWriter farc data_br
             (table st ++ [mkWritten name offset (len payload) payload]))
  end.

Fixpoint foldM_io {S X : Type} (f : S -> X -> io S) (s : S) (l : list X) : io S :=
  match l with
  | [] => ret s
  | x :: t => s' <~ f s x ;; foldM_io f s' t
  end.

(** farc.py:102, the whole function. *)
Definition repack_io (rt : runtime) (w : os) (in_path out_path : str)
    (force_overwrite use_compression : bool) (align_value : Z) : io unit :=
  go <~ prepare_output w out_path force_overwrite ;;
  if negb go then ret tt
  else
    (* Only get the files in the root of the input path *)
    let file_paths := map (fun f => (f, os_join w in_path f)) (os_walk w in_path) in
    total <~ lift (sum_costs rt use_compression
                     (map (fun x : str * str => (fst x, @nil byte)) file_paths)) ;;
    let org_header_size := total + 0xC in
    header_size <~ lift
      (if align_value =? 0 then Err ZeroDivisionError
       else if org_header_size mod align_value =? 0 then Ok org_header_size
       else Ok (org_header_size + (align_value - org_header_size mod align_value))) ;;
    let farc := mkBR [] 0 BIG (default_encoding rt) in
    farc <~ lift (write_str (pystr (if use_compression then "FArC" else "FArc")) false farc) ;;
    farc <~ lift (write_uint32 (org_header_size - 8) farc) ;;
    farc <~ lift (write_uint32 align_value farc) ;;
    let data_br := mkBR [] 0 (default_endianness rt) (default_encoding rt) in
    st <~ foldM_io (add_file_io rt w use_compression align_value header_size)
            (mkWriter farc data_br []) file_paths ;;
    archive <~ lift (finish align_value st) ;;
    (* Write output file *)
    emit (EvWrite out_path archive) ;;;
    (if os_write_ok w 0 out_path
     then emit (EvPrint (nl ++ pystr "Folder was repacked to " ++ dq ++ out_path ++ dq))
     else raise (OSError (EvWrite out_path archive))).

(** The parsed command line. *)
Record arguments := mkArgs {
  arg_path : str;
  arg_force_overwrite : bool;
  arg_compress : bool;
  arg_align : Z
}.

Definition contains (ch : Z) (s : str) : bool := existsb (Z.eqb ch) s.

(** [str.rfind] of one character: the index of its last occurrence, [-1]
    without one. *)
Fixpoint rfind_from (ch : Z) (s : str) (i last : Z) : Z :=
  match s with
  | [] => last
  | x :: t => rfind_from ch t (i + 1) (if x =? ch then i else last)
  end.

Definition rfind (ch : Z) (s : str) : Z := rfind_from ch s 0 (-1).

(** farc.py:200, where the archive at [path] is unpacked to. *)
Definition unpack_target (path : str) : str :=
  if contains 46 path then firstn (Z.to_nat (rfind 46 path)) path
  else path ++ pystr "_unpacked".

(** farc.py:203, where the folder at [path] is repacked to. *)
Definition repack_target (path : str) : str := path ++ pystr ".farc".

(** farc.py:172, after the arguments are parsed. *)
Definition main (rt : runtime) (w : os) (args : arguments) : io unit :=
  emit (EvPrint (pystr "PyFArc v1.0")) ;;;
  emit (EvPrint (pystr "By SutandoTsukai181" ++ nl)) ;;;
  if negb (os_exists w (arg_path args)) then
    emit (EvPrint (pystr "Error: path does not exist.")) ;;;
    emit EvPause
  else
    returned <~
      (if os_isfile w (arg_path args) then
         emit (EvPrint (pystr "Unpacking FArc file..." ++ nl)) ;;;
         unpack_io rt w (arg_path args) (unpack_target (arg_path args))
           (arg_force_overwrite args) ;;;
         ret false
       else if os_isdir w (arg_path args) then
         emit (EvPrint (pystr "Repacking folder to FArc..." ++ nl)) ;;;
         repack_io rt w (arg_path args) (repack_target (arg_path args))
           (arg_force_overwrite args) (arg_compress args) (Z.max 1 (arg_align args)) ;;;
         ret false
       else
         emit (EvPrint (pystr "Error: path is invalid.")) ;;;
         emit EvPause ;;;
         ret true) ;;
    if returned : bool then ret tt
    else
      emit (EvPrint (nl ++ pystr "Program finished.")) ;;;
      emit EvPause.

Definition is_write (e : event) : bool :=
  match e with
  | EvWrite _ _ => true
  | _ => false
  end.

Definition is_input (e : event) : bool :=
  match e with
  | EvInput _ => true
  | _ => false
  end.

Definition is_pause (e : event) : bool :=
  match e with
  | EvPause => true
  | _ => false
  end.

(** A world to run the command line in: the folder [dir] holds the two
    files of [two_files], [dir.farc] is their archive, [bad.farc] is not
    an archive, [cut.farc] ends inside the magic and [bad] is a folder;
    every call succeeds and paths are joined with a slash. *)
Definition demo_os (answer : str) : os :=
  let one_of (l : list string) (p : str) := existsb (fun x => str_eqb p (pystr x)) l in
  mkOS
    (one_of ["dir"; "dir.farc"; "bad.farc"; "cut.farc"; "bad"]%string)
    (one_of ["dir.farc"; "bad.farc"; "cut.farc"]%string)
    (one_of ["dir"; "bad"]%string)
    answer
    (fun _ => true)
    (fun _ => true)
    (fun p =>
       if str_eqb p (pystr "dir/a.txt") then Some (pybytes "hello")
       else if str_eqb p (pystr "dir/b") then Some (pybytes "xyz")
       else if str_eqb p (pystr "dir.farc") then Some two_files_archive
       else if str_eqb p (pystr "bad.farc") then Some (pybytes "nope")
       else if str_eqb p (pystr "cut.farc") then Some (pybytes "FAr")
       else None)
    (fun _ _ => true)
    (fun p => if str_eqb p (pystr "dir") then [pystr "a.txt"; pystr "b"] else [])
    (fun a b => a ++ pystr "/" ++ b).

(** ** Bytes and 32-bit fields *)

Lemma byte_val_range (b : byte) : 0 <= byte_val b < 256.
Proof.
  unfold byte_val. pose proof (Byte.to_N_bounded b). lia.
Qed.

Lemma byte_val_of (z : Z) : byte_val (byte_of z) = z mod 256.
Proof.
  unfold byte_val, byte_of.
  destruct (Byte.of_N (Z.to_N (z mod 256))) as [b|] eqn:E.
  - apply Byte.to_of_N in E. rewrite E. lia.
  - apply Byte.of_N_None_iff in E. lia.
Qed.

Lemma byte_of_val (b : byte) : byte_of (byte_val b) = b.
Proof.
  unfold byte_of, byte_val.
  pose proof (Byte.to_N_bounded b).
  rewrite Z.mod_small by lia.
  rewrite N2Z.id, Byte.of_to_N. reflexivity.
Qed.

Lemma byte_val_inj (a b : byte) : byte_val a = byte_val b -> a = b.
Proof.
  intros H. rewrite <- (byte_of_val a), <- (byte_of_val b), H. reflexivity.
Qed.

Lemma be_value_be32 (v : Z) : 0 <= v < 2 ^ 32 -> be_value (be32 v) = v.
Proof.
  intros H. unfold be_value, be32. cbn [fold_left].
  rewrite !byte_val_of.
  change (2 ^ 24) with 16777216. change (2 ^ 16) with 65536.
  change (2 ^ 8) with 256. change (2 ^ 32) with 4294967296 in H.
  lia.
Qed.

Lemma length_be32 (v : Z) : length (be32 v) = 4%nat.
Proof. reflexivity. Qed.

Lemma len_be32 (v : Z) : len (be32 v) = 4.
Proof. reflexivity. Qed.

Lemma pack_uint32_big (v : Z) (bs : bytes) :
  pack_uint32 BIG v = Ok bs -> bs = be32 v /\ 0 <= v < 2 ^ 32.
Proof.
  unfold pack_uint32.
  destruct (0 <=? v) eqn:E1; destruct (v <? 2 ^ 32) eqn:E2; cbn; try discriminate.
  intros [= <-]. split; [reflexivity | lia].
Qed.

(** ** The cursor at the end of its buffer *)

(** A successful [bind] had a successful first step. *)
Tactic Notation "bind_ok" hyp(H) :=
  match type of H with
  | bind ?x _ = Ok _ =>
      let E := fresh "E" in
      destruct x eqn:E; cbn [bind] in H; [| discriminate H]
  end.

Tactic Notation "bind_ok" hyp(H) "as" simple_intropattern(p) :=
  match type of H with
  | bind ?x _ = Ok _ =>
      let E := fresh "E" in
      destruct x as [p |] eqn:E; cbn [bind] in H; [| discriminate H]
  end.

Lemma len_app {A} (l1 l2 : list A) : len (l1 ++ l2) = len l1 + len l2.
Proof. unfold len. rewrite length_app. lia. Qed.

Lemma len_nonneg {A} (l : list A) : 0 <= len l.
Proof. unfold len. lia. Qed.

Lemma len_repeat {A} (x : A) (k : nat) : len (repeat x k) = Z.of_nat k.
Proof. unfold len. rewrite repeat_length. reflexivity. Qed.

Lemma mod_pad (x a : Z) : 1 <= a -> (x + (a - x mod a)) mod a = 0.
Proof.
  intros Ha. pose proof (Z.div_mod x a ltac:(lia)) as H.
  replace (x + (a - x mod a)) with ((x / a + 1) * a).
  - apply Z.mod_mul. lia.
  - rewrite H at 2. ring.
Qed.

Lemma write_bytes_appender e enc buf bs :
  write_bytes bs (appender e enc buf) = appender e enc (buf ++ bs).
Proof.
  unfold write_bytes, appender. cbn [br_buf br_idx br_endian br_encoding].
  destruct (length buf + length bs <=? length buf)%nat eqn:E.
  - apply Nat.leb_le in E.
    assert (bs = []) as -> by (destruct bs; [reflexivity | cbn in E; lia]).
    cbn [length]. rewrite Nat.add_0_r, firstn_all, skipn_all, !app_nil_r.
    reflexivity.
  - rewrite Nat.eqb_refl, firstn_app, firstn_all, Nat.sub_diag.
    cbn [firstn]. rewrite app_nil_r.
    rewrite skipn_all2 by (rewrite length_app, repeat_length; lia).
    rewrite app_nil_r, length_app. reflexivity.
Qed.

Lemma write_uint32_appender enc buf v br' :
  write_uint32 v (appender BIG enc buf) = Ok br' ->
  br' = appender BIG enc (buf ++ be32 v) /\ 0 <= v < 2 ^ 32.
Proof.
  unfold write_uint32. intros H. bind_ok H.
  cbn in E. apply pack_uint32_big in E as [-> Hv].
  injection H as <-. rewrite write_bytes_appender. auto.
Qed.

Lemma write_str_appender e enc buf s null br' :
  write_str s null (appender e enc buf) = Ok br' ->
  exists nb, encode enc s = Some nb /\
    br' = appender e enc (buf ++ nb ++ (if null then [x00] else [])).
Proof.
  unfold write_str. intros H. bind_ok H. cbn in E.
  destruct (encode enc s) as [nb|]; cbn in E; [| discriminate].
  injection E as <-. injection H as <-.
  exists nb. rewrite write_bytes_appender. auto.
Qed.

Lemma align_spec a br br' :
  1 <= a -> align a br = Ok br' ->
  exists k : nat, br_buf br' = br_buf br ++ repeat x00 k /\
    0 <= Z.of_nat k < a /\ (size br + Z.of_nat k) mod a = 0.
Proof.
  intros Ha. unfold align.
  destruct (a =? 0) eqn:E0; [lia |].
  destruct (size br mod a =? 0) eqn:E1; intros [= <-].
  - exists 0%nat. cbn. rewrite app_nil_r, Z.add_0_r.
    repeat split; try lia.
  - exists (Z.to_nat (a - size br mod a)). cbn.
    pose proof (Z.mod_pos_bound (size br) a ltac:(lia)).
    repeat split; try lia.
    rewrite Z2Nat.id by lia. apply mod_pad. lia.
Qed.

Lemma align_appender e enc a buf br' :
  1 <= a -> align a (appender e enc buf) = Ok br' ->
  exists k : nat, br' = appender e enc (buf ++ repeat x00 k) /\
    0 <= Z.of_nat k < a /\ (len buf + Z.of_nat k) mod a = 0.
Proof.
  intros Ha. unfold align.
  destruct (a =? 0) eqn:E0; [lia |].
  change (size (appender e enc buf)) with (len buf).
  destruct (len buf mod a =? 0) eqn:E1; intros [= <-].
  - exists 0%nat. cbn. rewrite app_nil_r, Z.add_0_r.
    repeat split; try lia.
  - pose proof (Z.mod_pos_bound (len buf) a ltac:(lia)).
    exists (Z.to_nat (a - len buf mod a)).
    split; [| split; [lia |]].
    + unfold pad, appender. cbn. rewrite Nat.eqb_refl.
      f_equal. unfold pos. cbn. rewrite length_app, repeat_length. lia.
    + rewrite Z2Nat.id by lia. apply mod_pad. lia.
Qed.

(** ** The loop of [repack] *)

Section Writer.

Variable rt : runtime.
Variables (c : bool) (a hs : Z).
Hypothesis a_pos : 1 <= a.

Lemma add_file_spec st name data st' buf :
  farc st = appender BIG (default_encoding rt) buf ->
  add_file rt c a hs st (name, data) = Ok st' ->
  exists nb payload (k : nat),
    encode (default_encoding rt) name = Some nb /\
    (if c then write_gzip_name rt name (gzip_compress rt data) = Ok payload
     else payload = data) /\
    0 <= hs + size (data_br st) < 2 ^ 32 /\
    len payload < 2 ^ 32 /\
    len data < 2 ^ 32 /\
    0 <= Z.of_nat k < a /\
    (size (data_br st) + len payload + Z.of_nat k) mod a = 0 /\
    farc st' = appender BIG (default_encoding rt)
      (buf ++ nb ++ [x00] ++ be32 (hs + size (data_br st)) ++ be32 (len payload)
           ++ (if c then be32 (len data) else [])) /\
    br_buf (data_br st') = br_buf (data_br st) ++ payload ++ repeat x00 k /\
    table st' = table st ++ [mkWritten name (hs + size (data_br st)) (len payload) payload].
Proof.
  intros Hf H. unfold add_file in H. rewrite Hf in H.
  bind_ok H. apply write_str_appender in E as (nb & Hnb & ->).
  bind_ok H. apply write_uint32_appender in E as [-> Hoff].
  bind_ok H as [farc1 payload].
  bind_ok H. bind_ok H. injection H as <-. cbn [farc data_br table].
  apply align_spec in E0 as (k & Hk & Hkr & Hkm); [| exact a_pos].
  cbn [extend with_buf br_buf] in Hk.
  assert (Hsz : size (extend payload (data_br st)) = size (data_br st) + len payload).
  { unfold size, extend. cbn. apply len_app. }
  rewrite Hsz in Hkm.
  exists nb, payload, k.
  destruct c.
  - bind_ok E. bind_ok E. injection E as <- <-.
    apply write_uint32_appender in E2 as [-> Hp].
    apply write_uint32_appender in E1 as [-> Hd].
    repeat split; try assumption; try lia.
    + rewrite <- !app_assoc. reflexivity.
    + rewrite Hk, <- app_assoc. reflexivity.
  - injection E as <- <-.
    apply write_uint32_appender in E1 as [-> Hd].
    repeat split; try assumption; try lia.
    + rewrite <- !app_assoc. rewrite app_nil_r. reflexivity.
    + rewrite Hk, <- app_assoc. reflexivity.
Qed.

Lemma foldM_add_file_laid_out files : forall st st' buf,
  farc st = appender BIG (default_encoding rt) buf ->
  foldM (add_file rt c a hs) st files = Ok st' ->
  exists rows tb db,
    laid_out rt c a hs (size (data_br st)) files rows tb db /\
    farc st' = appender BIG (default_encoding rt) (buf ++ tb) /\
    br_buf (data_br st') = br_buf (data_br st) ++ db /\
    table st' = table st ++ rows.
Proof.
  induction files as [| [name data] files IH]; intros st st' buf Hf H.
  - injection H as <-. exists [], [], []. rewrite !app_nil_r.
    repeat split; auto. constructor.
  - cbn [foldM] in H. bind_ok H as st1.
    destruct (add_file_spec _ _ _ _ _ Hf E)
      as (nb & payload & k & Hnb & Hp & Hoff & Hpl & Hdl & Hk & Hm & Hf1 & Hd1 & Ht1).
    destruct (IH _ _ _ Hf1 H) as (rows & tb & db & Hlo & Hf' & Hd' & Ht').
    assert (Hsz : size (data_br st1) = size (data_br st) + len payload + Z.of_nat k).
    { unfold size. rewrite Hd1, !len_app, len_repeat. lia. }
    rewrite Hsz in Hlo.
    eexists _, _, _. split; [| split; [| split]].
    + econstructor; eassumption.
    + rewrite Hf'. f_equal. rewrite <- !app_assoc. reflexivity.
    + rewrite Hd', Hd1, <- !app_assoc. reflexivity.
    + rewrite Ht', Ht1, <- app_assoc. reflexivity.
Qed.

End Writer.

(** ** Reading back what was appended *)

Lemma skipn_length_app {A} (l1 l2 : list A) : skipn (length l1) (l1 ++ l2) = l2.
Proof. induction l1; cbn; auto. Qed.

Lemma firstn_length_app {A} (l1 l2 : list A) : firstn (length l1) (l1 ++ l2) = l1.
Proof. induction l1; cbn; congruence. Qed.

Lemma read_bytes_at buf i n e enc pre x post :
  buf = pre ++ x ++ post -> i = length pre -> n = length x ->
  read_bytes n (mkBR buf i e enc) = Ok (x, mkBR buf (i + n) e enc).
Proof.
  intros -> -> ->. unfold read_bytes. cbn [br_idx br_buf].
  replace (length pre + length x <=? length (pre ++ x ++ post))%nat with true.
  - rewrite skipn_length_app, firstn_length_app. reflexivity.
  - symmetry. apply Nat.leb_le. rewrite !length_app. lia.
Qed.

Lemma read_uint32_at buf i enc pre v post :
  buf = pre ++ be32 v ++ post -> i = length pre -> 0 <= v < 2 ^ 32 ->
  read_uint32 (mkBR buf i BIG enc) = Ok (v, mkBR buf (i + 4) BIG enc).
Proof.
  intros Hb Hi Hv. unfold read_uint32.
  rewrite (read_bytes_at _ _ _ _ _ _ _ _ Hb Hi eq_refl).
  cbn [bind br_endian unpack_uint32]. rewrite be_value_be32 by assumption.
  reflexivity.
Qed.

Lemma read_uint32_2_at buf i enc pre v1 v2 post :
  buf = pre ++ be32 v1 ++ be32 v2 ++ post -> i = length pre ->
  0 <= v1 < 2 ^ 32 -> 0 <= v2 < 2 ^ 32 ->
  read_uint32_2 (mkBR buf i BIG enc) = Ok (v1, v2, mkBR buf (i + 8) BIG enc).
Proof.
  intros Hb Hi Hv1 Hv2. unfold read_uint32_2.
  rewrite (read_bytes_at buf i 8 BIG enc pre (be32 v1 ++ be32 v2) post).
  - cbn [bind br_endian unpack_uint32].
    change (firstn 4 (be32 v1 ++ be32 v2)) with (be32 v1).
    change (skipn 4 (be32 v1 ++ be32 v2)) with (be32 v2).
    rewrite !be_value_be32 by assumption. reflexivity.
  - rewrite Hb, <- app_assoc. reflexivity.
  - assumption.
  - reflexivity.
Qed.

Lemma scan_null_app nb post :
  no_null nb = true -> scan_null (nb ++ x00 :: post) = Some nb.
Proof.
  induction nb as [| b nb IH]; cbn; intros H.
  - reflexivity.
  - apply andb_prop in H as [Hb Hn].
    destruct (Byte.eqb b x00); [discriminate |].
    rewrite IH by assumption. reflexivity.
Qed.

Lemma after_null_app nb post :
  no_null nb = true -> after_null (nb ++ x00 :: post) = post.
Proof.
  induction nb as [| b nb IH]; cbn; intros H.
  - reflexivity.
  - apply andb_prop in H as [Hb Hn].
    destruct (Byte.eqb b x00); [discriminate | auto].
Qed.

Lemma read_str_at buf i e enc pre nb s post :
  buf = pre ++ nb ++ x00 :: post -> i = length pre ->
  no_null nb = true -> decode enc nb = Some s ->
  read_str (mkBR buf i e enc) = Ok (s, mkBR buf (i + length nb + 1) e enc).
Proof.
  intros -> -> Hn Hd. unfold read_str. cbn [br_idx br_buf br_encoding].
  rewrite skipn_length_app, scan_null_app by assumption.
  cbn [of_option bind]. rewrite Hd. reflexivity.
Qed.

Lemma str_eqb_eq (s t : str) : str_eqb s t = true <-> s = t.
Proof.
  revert t. induction s as [| x s IH]; destruct t as [| y t]; cbn;
    try (split; [discriminate | congruence]); try tauto.
  rewrite andb_true_iff, IH, Z.eqb_eq. split.
  - intros [-> ->]. reflexivity.
  - intros [= -> ->]. auto.
Qed.

Lemma bytes_eqb_eq (x y : bytes) : bytes_eqb x y = true <-> x = y.
Proof.
  unfold bytes_eqb. rewrite str_eqb_eq. split; [| congruence].
  revert y. induction x as [| b x IH]; destruct y as [| b' y]; cbn;
    try discriminate; auto.
  intros [= Hb Hx]. f_equal; [apply byte_val_inj; assumption | auto].
Qed.

Lemma name_ok_spec rt name :
  name_ok rt name = true ->
  exists nb, encode (ENCODING rt) name = Some nb /\
    encode (default_encoding rt) name = Some nb /\
    no_null nb = true /\ decode (ENCODING rt) nb = Some name.
Proof.
  unfold name_ok.
  destruct (encode (ENCODING rt) name) as [nb|]; [| discriminate].
  destruct (encode (default_encoding rt) name) as [nb'|]; [| discriminate].
  destruct (decode (ENCODING rt) nb) as [s|] eqn:Hd.
  - rewrite !andb_true_iff, bytes_eqb_eq, str_eqb_eq.
    intros [[-> Hn] ->]. exists nb'. rewrite Hd. auto.
  - rewrite andb_false_r. discriminate.
Qed.

Lemma magic_ok_spec rt (use_compression : bool) :
  magic_ok rt = true ->
  let m := (if use_compression then "FArC" else "FArc")%string in
  encode (default_encoding rt) (pystr m) = Some (pybytes m) /\
  decode (ENCODING rt) (pybytes m) = Some (pystr m).
Proof.
  unfold magic_ok. cbn [forallb]. rewrite !andb_true_iff.
  intros (H1 & H2 & _).
  destruct use_compression; cbn zeta.
  - destruct (encode _ (pystr "FArC")) as [mb|]; [| discriminate].
    destruct (decode _ (pybytes "FArC")) as [s|]; [| discriminate].
    apply andb_prop in H2 as [Hb Hs].
    apply bytes_eqb_eq in Hb as ->. apply str_eqb_eq in Hs as ->. auto.
  - destruct (encode _ (pystr "FArc")) as [mb|]; [| discriminate].
    destruct (decode _ (pybytes "FArc")) as [s|]; [| discriminate].
    apply andb_prop in H1 as [Hb Hs].
    apply bytes_eqb_eq in Hb as ->. apply str_eqb_eq in Hs as ->. auto.
Qed.

(** ** The gzip name injector *)

Lemma seek_begin (n : nat) br :
  (n <= length (br_buf br))%nat ->
  seek (Z.of_nat n) BEGIN br = Ok (with_idx br n).
Proof.
  intros H. unfold seek, size, len.
  replace (0 <=? Z.of_nat n) with true by lia.
  replace (Z.of_nat n <=? Z.of_nat (length (br_buf br))) with true by lia.
  cbn. rewrite Nat2Z.id. reflexivity.
Qed.

Lemma pack_uint8_lor (b : byte) :
  pack_uint8 (Z.lor (byte_val b) 8) = Ok [byte_of (Z.lor (byte_val b) 8)].
Proof. destruct b; reflexivity. Qed.

Lemma skipn_repeat_sub {A} (x : A) : forall k n,
  skipn k (repeat x n) = repeat x (n - k).
Proof.
  induction k as [| k IH]; intros n.
  - rewrite Nat.sub_0_r. reflexivity.
  - destruct n as [| n]; [reflexivity |]. cbn. apply IH.
Qed.

Lemma write_bytes_inside bs br :
  (br_idx br + length bs <= length (br_buf br))%nat ->
  write_bytes bs br =
    mkBR (firstn (br_idx br) (br_buf br) ++ bs
            ++ skipn (br_idx br + length bs) (br_buf br))
         (br_idx br + length bs) (br_endian br) (br_encoding br).
Proof.
  intros H. unfold write_bytes.
  replace (br_idx br + length bs <=? length (br_buf br))%nat with true
    by (symmetry; apply Nat.leb_le; exact H).
  reflexivity.
Qed.

Lemma write_bytes_straddling bs br :
  (br_idx br < length (br_buf br))%nat ->
  (length (br_buf br) < br_idx br + length bs)%nat ->
  write_bytes bs br =
    mkBR (firstn (br_idx br) (br_buf br) ++ bs
            ++ repeat x00 (length (br_buf br) - br_idx br))
         (br_idx br) (br_endian br) (br_encoding br).
Proof.
  intros Hi H. unfold write_bytes.
  replace (br_idx br + length bs <=? length (br_buf br))%nat with false
    by (symmetry; apply Nat.leb_gt; exact H).
  replace (br_idx br =? length (br_buf br))%nat with false
    by (symmetry; apply Nat.eqb_neq; lia).
  cbv zeta. f_equal.
  rewrite firstn_app.
  replace (br_idx br - length (br_buf br))%nat with 0%nat by lia.
  cbn [firstn]. rewrite app_nil_r. do 2 f_equal.
  rewrite skipn_app, skipn_all2 by lia. cbn [app].
  rewrite skipn_repeat_sub. f_equal. lia.
Qed.

(** What [write_gzip_name] returns for a stream of ten bytes or more: the
    ten header bytes with FNAME set in the flags at offset 3 and OS 3 at
    offset 9, then the name with its null byte when the stream has room for
    it after the header (or ends with the header), then the rest of the
    stream. A name longer than what follows the header is left out,
    although the flags announce one. *)
Lemma write_gzip_name_cases rt name data nb :
  (10 <= length data)%nat ->
  encode (default_encoding rt) name = Some nb ->
  write_gzip_name rt name data =
    Ok (firstn 3 data ++ [byte_of (Z.lor (byte_val (nth 3 data x00)) 8)]
          ++ firstn 5 (skipn 4 data) ++ [x03]
          ++ (if (length data =? 10)%nat || (10 + (length nb + 1) <=? length data)%nat
              then nb ++ [x00] else [])
          ++ skipn 10 data).
Proof.
  intros Hl Hnb.
  do 10 (destruct data as [| ? data]; [cbn in Hl; lia |]).
  unfold write_gzip_name.
  rewrite (seek_begin 3) by (cbn; lia).
  cbn [bind]. unfold read_uint8, read_bytes. cbn.
  rewrite (seek_begin 3) by (cbn; lia).
  cbn [bind]. unfold write_uint8. rewrite pack_uint8_lor. cbn [bind].
  rewrite write_bytes_inside by (cbn; lia).
  cbn [with_idx br_idx br_buf br_endian br_encoding length Nat.add firstn skipn app].
  rewrite (seek_begin 9) by (cbn; lia).
  cbn [bind pack_uint8 Z.leb Z.ltb Z.compare andb Pos.compare Pos.compare_cont].
  rewrite write_bytes_inside by (cbn; lia).
  cbn [with_idx br_idx br_buf br_endian br_encoding length Nat.add firstn skipn app].
  unfold write_str, buffer.
  cbn [br_encoding br_buf br_idx br_endian]. rewrite Hnb.
  cbn [of_option bind].
  set (hdr := [b; b0; b1; byte_of (Z.lor (byte_val b2) 8); b3; b4; b5; b6; b7; x03]).
  change (b :: b0 :: b1 :: byte_of (Z.lor (byte_val b2) 8)
            :: b3 :: b4 :: b5 :: b6 :: b7 :: x03 :: data) with (hdr ++ data).
  change (b :: b0 :: b1 :: byte_of (Z.lor (byte_val b2) 8)
            :: b3 :: b4 :: b5 :: b6 :: b7 :: x03
            :: (if (length data =? 0)%nat || (length nb + 1 <=? length data)%nat
                then nb ++ [x00] else []) ++ data)
    with (hdr ++ (if (length data =? 0)%nat || (length nb + 1 <=? length data)%nat
                  then nb ++ [x00] else []) ++ data).
  assert (Hh : length hdr = 10%nat) by reflexivity.
  assert (Hn : length (nb ++ [x00]) = (length nb + 1)%nat)
    by (rewrite length_app; reflexivity).
  f_equal.
  destruct (length nb + 1 <=? length data)%nat eqn:Efit.
  - apply Nat.leb_le in Efit. rewrite orb_true_r.
    rewrite write_bytes_inside
      by (cbn [br_idx br_buf]; rewrite !length_app, Hh; cbn [length]; lia).
    cbn [br_idx br_buf].
    change 10%nat with (length hdr) at 1 2.
    rewrite (firstn_length_app hdr data).
    rewrite (app_assoc hdr (nb ++ [x00])).
    replace (length hdr + length (nb ++ [x00]))%nat
      with (length (hdr ++ nb ++ [x00])) by (rewrite length_app; reflexivity).
    rewrite firstn_length_app, <- !app_assoc. reflexivity.
  - apply Nat.leb_gt in Efit. rewrite orb_false_r.
    destruct data as [| d data].
    + cbn [length Nat.eqb]. rewrite !app_nil_r.
      change (mkBR hdr 10 (default_endianness rt) (default_encoding rt))
        with (appender (default_endianness rt) (default_encoding rt) hdr).
      rewrite write_bytes_appender. unfold appender. cbn [br_idx br_buf].
      rewrite firstn_all. reflexivity.
    + cbn [length Nat.eqb].
      rewrite write_bytes_straddling
        by (cbn [br_idx br_buf]; rewrite !length_app, Hh; cbn [length] in *; lia).
      cbn [br_idx br_buf app].
      change 10%nat with (length hdr) at 1 2.
      rewrite (firstn_length_app hdr (d :: data)).
      rewrite firstn_length_app. reflexivity.
Qed.

Lemma write_gzip_name_spec rt name data nb :
  (10 + (length nb + 1) <= length data)%nat ->
  encode (default_encoding rt) name = Some nb ->
  write_gzip_name rt name data =
    Ok (firstn 3 data ++ [byte_of (Z.lor (byte_val (nth 3 data x00)) 8)]
          ++ firstn 5 (skipn 4 data) ++ [x03]
          ++ nb ++ [x00] ++ skipn 10 data).
Proof.
  intros Hl Hnb.
  rewrite (write_gzip_name_cases rt name data nb) by (lia || exact Hnb).
  replace (10 + (length nb + 1) <=? length data)%nat with true
    by (symmetry; apply Nat.leb_le; exact Hl).
  rewrite orb_true_r, <- app_assoc. reflexivity.
Qed.

Lemma gzip_injected_roundtrip rt name data nb :
  encode (default_encoding rt) name = Some nb ->
  no_null nb = true ->
  (length nb + 1 <= length (deflate_member rt data))%nat ->
  inflate_member rt (deflate_member rt data) = Some data ->
  exists payload,
    write_gzip_name rt name (gzip_compress rt data) = Ok payload /\
    gzip_decompress rt payload = Ok data.
Proof.
  intros Hnb Hn Hfit Hinf.
  eexists. split.
  - apply (write_gzip_name_spec rt name (gzip_compress rt data) nb);
      [cbn; lia | exact Hnb].
  - unfold gzip_compress. cbn.
    rewrite after_null_app by assumption.
    rewrite Hinf. reflexivity.
Qed.

(** ** What the layout invariant gives *)

Lemma read_entries_eq fuel c H br acc :
  read_entries fuel c H br acc =
  if pos br <? H then
    match fuel with
    | O => Err OutOfBounds
    | S fuel' =>
        '(name, br) <- read_str br ;;
        '(offset, sz, br) <- read_uint32_2 br ;;
        let acc := acc ++ [(name, offset, sz)] in
        if c then
          '(_, br) <- read_uint32 br ;;
          read_entries fuel' c H br acc
        else read_entries fuel' c H br acc
    end
  else Ok acc.
Proof. destruct fuel; reflexivity. Qed.

Lemma names_ok_cons rt name data files :
  names_ok rt ((name, data) :: files) = true ->
  name_ok rt name = true /\ names_ok rt files = true.
Proof. unfold names_ok. cbn. apply andb_prop. Qed.

Lemma member_ok_spec rt name data :
  member_ok rt (name, data) = true ->
  exists nb, encode (default_encoding rt) name = Some nb /\
    (length nb + 1 <= length (deflate_member rt data))%nat /\
    inflate_member rt (deflate_member rt data) = Some data.
Proof.
  unfold member_ok. cbn [fst snd].
  destruct (encode (default_encoding rt) name) as [nb |]; [| discriminate].
  destruct (inflate_member rt (deflate_member rt data)) as [data' |]; [| discriminate].
  rewrite andb_true_iff, Nat.leb_le, bytes_eqb_eq.
  intros [Hfit ->]. exists nb. auto.
Qed.

Lemma members_ok_cons rt f files :
  members_ok rt (f :: files) = true ->
  member_ok rt f = true /\ members_ok rt files = true.
Proof. unfold members_ok. cbn. apply andb_prop. Qed.

Section Layout.

Variable rt : runtime.
Variables (c : bool) (a hs : Z).

Lemma laid_out_table_len d files rows tb db total :
  laid_out rt c a hs d files rows tb db ->
  names_ok rt files = true ->
  sum_costs rt c files = Ok total ->
  len tb = total.
Proof.
  intros Hlo. revert total.
  induction Hlo as [d | d name data files nb payload k rows tb db Hnb Hp Hoff Hpl Hdl Hk Hm Hlo IH];
    intros total Hok Hsum.
  - cbn in Hsum. injection Hsum as <-. reflexivity.
  - apply names_ok_cons in Hok as [Hn Hok].
    apply name_ok_spec in Hn as (nb' & He & Hd & _).
    assert (nb' = nb) as -> by congruence.
    cbn [sum_costs] in Hsum. rewrite He in Hsum. cbn [of_option bind] in Hsum.
    bind_ok Hsum. injection Hsum as <-.
    rewrite !len_app, (IH _ Hok eq_refl), !len_be32. unfold entry_size.
    change (len [x00]) with 1.
    destruct c; rewrite ?len_be32; change (len (@nil byte)) with 0; lia.
Qed.

Lemma laid_out_rows_le d files rows tb db :
  laid_out rt c a hs d files rows tb db ->
  (length rows <= length tb)%nat /\ length rows = length files.
Proof.
  induction 1 as [d | d name data files nb payload k rows tb db Hnb Hp Hoff Hpl Hdl Hk Hm Hlo IH].
  - cbn. lia.
  - cbn [length]. rewrite !length_app. cbn [length]. lia.
Qed.

Lemma laid_out_read_back d files rows tb db :
  laid_out rt c a hs d files rows tb db ->
  names_ok rt files = true ->
  forall pre post acc fuel,
    (length rows <= fuel)%nat ->
    read_entries fuel c (len pre + len tb)
      (mkBR (pre ++ tb ++ post) (length pre) BIG (ENCODING rt)) acc
    = Ok (acc ++ map entry_of rows).
Proof.
  induction 1 as [d | d name data files nb payload k rows tb db Hnb Hp Hoff Hpl Hdl Hk Hm Hlo IH];
    intros Hok pre post acc fuel Hfuel.
  - rewrite read_entries_eq. unfold pos. cbn [br_idx].
    change (len (@nil byte)) with 0. unfold len.
    replace (Z.of_nat (length pre) <? Z.of_nat (length pre) + 0) with false by lia.
    cbn. rewrite app_nil_r. reflexivity.
  - apply names_ok_cons in Hok as [Hn Hok].
    apply name_ok_spec in Hn as (nb' & He & Hd & Hnn & Hdec).
    assert (nb' = nb) as -> by congruence.
    pose proof (len_nonneg payload) as Hp0.
    pose proof (len_nonneg data) as Hd0.
    set (row := nb ++ [x00] ++ be32 (hs + d) ++ be32 (len payload)
                  ++ (if c then be32 (len data) else [])).
    assert (Hrow : nb ++ [x00] ++ be32 (hs + d) ++ be32 (len payload)
                  ++ (if c then be32 (len data) else []) ++ tb = row ++ tb).
    { unfold row. rewrite <- !app_assoc. reflexivity. }
    rewrite Hrow. clear Hrow.
    rewrite read_entries_eq. unfold pos. cbn [br_idx].
    replace (Z.of_nat (length pre) <? len pre + len (row ++ tb)) with true.
    2:{ symmetry. apply Z.ltb_lt. unfold row. rewrite !len_app, !len_be32.
        pose proof (len_nonneg nb). pose proof (len_nonneg tb).
        pose proof (len_nonneg (if c then be32 (len data) else [])).
        change (len [x00]) with 1. unfold len at 1. lia. }
    destruct fuel as [| fuel]; [cbn in Hfuel; lia |].
    rewrite (read_str_at _ _ _ _ pre nb name
               (be32 (hs + d) ++ be32 (len payload)
                 ++ (if c then be32 (len data) else []) ++ tb ++ post));
      [| unfold row; rewrite <- !app_assoc; reflexivity | reflexivity
       | assumption | assumption].
    cbn [bind].
    rewrite (read_uint32_2_at _ _ _ (pre ++ nb ++ [x00]) (hs + d) (len payload)
               ((if c then be32 (len data) else []) ++ tb ++ post));
      [| unfold row; rewrite <- !app_assoc; reflexivity
       | rewrite !length_app, ?length_be32; cbn [length]; lia
       | assumption | lia].
    cbn [bind].
    assert (Hgo : forall i,
      i = length (pre ++ row) ->
      read_entries fuel c (len pre + len (row ++ tb))
        (mkBR (pre ++ (row ++ tb) ++ post) i BIG (ENCODING rt))
        (acc ++ [(name, hs + d, len payload)])
      = Ok (acc ++ map entry_of
              (mkWritten name (hs + d) (len payload) payload :: rows))).
    { intros i ->.
      replace (len pre + len (row ++ tb)) with (len (pre ++ row) + len tb)
        by (rewrite !len_app; lia).
      replace (pre ++ (row ++ tb) ++ post) with ((pre ++ row) ++ tb ++ post)
        by (rewrite <- !app_assoc; reflexivity).
      rewrite IH; [| assumption | cbn [length] in Hfuel; lia].
      rewrite <- app_assoc. reflexivity. }
    destruct c.
    + rewrite (read_uint32_at _ _ _ (pre ++ nb ++ [x00] ++ be32 (hs + d) ++ be32 (len payload))
                 (len data) (tb ++ post));
        [| unfold row; rewrite <- !app_assoc; reflexivity
         | rewrite !length_app, ?length_be32; cbn [length]; lia
         | lia].
      cbn [bind]. apply Hgo.
      unfold row. rewrite !length_app, ?length_be32. cbn [length]. lia.
    + apply Hgo. unfold row. rewrite !length_app, ?length_be32. cbn [length]. lia.
Qed.

End Layout.

Lemma slice_at (pre x post : bytes) (lo : Z) :
  lo = len pre -> slice (pre ++ x ++ post) lo (lo + len x) = x.
Proof.
  intros ->. unfold slice, len.
  replace (Z.to_nat (Z.of_nat (length pre) + Z.of_nat (length x) - Z.of_nat (length pre)))
    with (length x) by lia.
  rewrite Nat2Z.id, skipn_length_app, firstn_length_app. reflexivity.
Qed.

Section Data.

Variable rt : runtime.
Variables (c : bool) (a hs : Z).

Lemma laid_out_slices d files rows tb db :
  laid_out rt c a hs d files rows tb db ->
  forall pre, len pre = hs + d ->
    Forall (fun w => slice (pre ++ db) (w_offset w) (w_offset w + w_size w)
                     = w_payload w) rows.
Proof.
  induction 1 as [d | d name data files nb payload k rows tb db Hnb Hp Hoff Hpl Hdl Hk Hm Hlo IH];
    intros pre Hpre.
  - constructor.
  - constructor.
    + cbn [w_offset w_size w_payload]. apply slice_at. lia.
    + specialize (IH (pre ++ payload ++ repeat x00 k)).
      rewrite <- !app_assoc in IH. apply IH.
      rewrite !len_app, len_repeat. lia.
Qed.

Lemma laid_out_bounds d files rows tb db :
  laid_out rt c a hs d files rows tb db ->
  Forall (fun w => hs + d <= w_offset w /\
                   w_offset w + w_size w <= hs + d + len db /\
                   w_size w = len (w_payload w)) rows.
Proof.
  induction 1 as [d | d name data files nb payload k rows tb db Hnb Hp Hoff Hpl Hdl Hk Hm Hlo IH].
  - constructor.
  - pose proof (len_nonneg payload). pose proof (len_nonneg db).
    constructor.
    + cbn [w_offset w_size w_payload]. rewrite !len_app, len_repeat. lia.
    + eapply Forall_impl; [| exact IH].
      intros w (H1 & H2 & H3). rewrite !len_app, len_repeat. lia.
Qed.

Lemma laid_out_aligned d files rows tb db :
  laid_out rt c a hs d files rows tb db ->
  1 <= a -> hs mod a = 0 -> d mod a = 0 ->
  Forall (fun w => w_offset w mod a = 0) rows.
Proof.
  induction 1 as [d | d name data files nb payload k rows tb db Hnb Hp Hoff Hpl Hdl Hk Hm Hlo IH];
    intros Ha Hhs Hd.
  - constructor.
  - constructor.
    + cbn [w_offset]. rewrite Z.add_mod, Hhs, Hd by lia. apply Z.mod_0_l. lia.
    + apply IH; assumption.
Qed.

Lemma laid_out_consecutive d files rows tb db :
  laid_out rt c a hs d files rows tb db ->
  forall i w1 w2,
    nth_error rows i = Some w1 -> nth_error rows (S i) = Some w2 ->
    w_offset w1 + w_size w1 <= w_offset w2.
Proof.
  induction 1 as [d | d name data files nb payload k rows tb db Hnb Hp Hoff Hpl Hdl Hk Hm Hlo IH];
    intros i w1 w2 H1 H2.
  - destruct i; discriminate.
  - destruct i as [| i].
    + injection H1 as <-. cbn [w_offset w_size].
      apply laid_out_bounds in Hlo.
      destruct rows as [| w rows]; [discriminate |].
      injection H2 as ->. inversion Hlo as [| ? ? (Hb & _) _]. lia.
    + cbn [nth_error] in H1, H2. eauto.
Qed.

Lemma laid_out_extract d files rows tb db :
  laid_out rt c a hs d files rows tb db ->
  names_ok rt files = true ->
  (c = true -> members_ok rt files = true) ->
  forall pre, len pre = hs + d ->
    extract rt c (pre ++ db) (map entry_of rows) = (files, Ok tt).
Proof.
  induction 1 as [d | d name data files nb payload k rows tb db Hnb Hp Hoff Hpl Hdl Hk Hm Hlo IH];
    intros Hok Hgz pre Hpre.
  - reflexivity.
  - apply names_ok_cons in Hok as [Hn Hok].
    apply name_ok_spec in Hn as (nb' & He & Hd & Hnn & Hdec).
    assert (nb' = nb) as -> by congruence.
    cbn [map entry_of w_name w_offset w_size extract].
    rewrite slice_at by lia.
    assert (Hgz' : c = true -> members_ok rt files = true).
    { intros Hc. apply Hgz in Hc. apply members_ok_cons in Hc. tauto. }
    specialize (IH Hok Hgz' (pre ++ payload ++ repeat x00 k)).
    rewrite <- !app_assoc in IH.
    rewrite IH by (rewrite !len_app, len_repeat; lia).
    destruct c.
    + specialize (Hgz eq_refl). apply members_ok_cons in Hgz as [Hmem _].
      apply member_ok_spec in Hmem as (nb2 & Hnb2 & Hfit & Hinf).
      assert (nb2 = nb) as -> by congruence.
      destruct (gzip_injected_roundtrip rt name data nb Hnb Hnn Hfit Hinf)
        as (payload' & Hw & Hz).
      assert (payload' = payload) as -> by congruence.
      rewrite Hz. reflexivity.
    + subst payload. reflexivity.
Qed.

End Data.

(** ** The whole of [repack] *)

Lemma align_up_unique (x a : Z) (k : Z) :
  1 <= a -> 0 <= k < a -> (x + k) mod a = 0 ->
  x + k = if x mod a =? 0 then x else x + (a - x mod a).
Proof.
  intros Ha Hk Hm.
  pose proof (Z.div_mod x a ltac:(lia)) as Hx.
  pose proof (Z.mod_pos_bound x a ltac:(lia)) as Hr.
  pose proof (Z.div_mod (x + k) a ltac:(lia)) as Hxk.
  rewrite Hm, Z.add_0_r in Hxk.
  assert (E : (x mod a =? 0) = (x mod a =? 0)) by reflexivity.
  revert E. generalize (x mod a =? 0) at 2 3. intros b E.
  assert (Hb : if b then x mod a = 0 else x mod a <> 0).
  { destruct b; [apply Z.eqb_eq | apply Z.eqb_neq]; exact E. }
  clear E Hm. revert Hx Hr Hxk Hb.
  generalize (x mod a) (x / a) ((x + k) / a). intros r q q' Hx Hr Hxk Hb.
  assert (Hd : a * (q' - q) = r + k) by lia.
  assert (H0 : 0 <= q' - q) by nia.
  assert (H2 : q' - q < 2) by nia.
  assert (Hq : q' - q = 0 \/ q' - q = 1) by lia.
  destruct b; destruct Hq as [Hq | Hq]; rewrite Hq in Hd; lia.
Qed.

Lemma align_total a br : 1 <= a -> exists br', align a br = Ok br'.
Proof.
  intros Ha. unfold align.
  destruct (a =? 0) eqn:E; [lia |].
  destruct (size br mod a =? 0); eauto.
Qed.

Lemma seek_cur off br :
  0 <= pos br + off <= size br ->
  seek off CUR br = Ok (with_idx br (Z.to_nat (pos br + off))).
Proof.
  intros H. unfold seek.
  replace (0 <=? pos br + off) with true by lia.
  replace (pos br + off <=? size br) with true by lia. reflexivity.
Qed.

Lemma finish_spec e enc a st hbuf :
  1 <= a -> farc st = appender e enc hbuf ->
  exists k : nat,
    finish a st = Ok (hbuf ++ repeat x00 k ++ br_buf (data_br st)) /\
    0 <= Z.of_nat k < a /\ (len hbuf + Z.of_nat k) mod a = 0.
Proof.
  intros Ha Hf. unfold finish. rewrite Hf.
  destruct (align_total a (appender e enc hbuf) Ha) as [br' Hal].
  rewrite Hal. cbn [bind].
  apply align_appender in Hal as (k & -> & Hk & Hm); [| exact Ha].
  exists k. split; [| auto].
  rewrite seek_cur.
  - cbn. rewrite <- app_assoc. reflexivity.
  - unfold pos, size, extend, appender, with_buf, buffer. cbn [br_idx br_buf].
    unfold len. rewrite !length_app. lia.
Qed.

Lemma repack_run_spec rt files c a org hs st :
  1 <= a ->
  repack_run rt files c a = Ok (org, hs, st) ->
  exists total mb rows tb db,
    sum_costs rt c files = Ok total /\
    org = total + 12 /\
    hs = (if org mod a =? 0 then org else org + (a - org mod a)) /\
    0 <= org - 8 < 2 ^ 32 /\
    0 <= a < 2 ^ 32 /\
    encode (default_encoding rt) (pystr (if c then "FArC" else "FArc")) = Some mb /\
    laid_out rt c a hs 0 files rows tb db /\
    farc st = appender BIG (default_encoding rt)
                (mb ++ be32 (org - 8) ++ be32 a ++ tb) /\
    br_buf (data_br st) = db /\
    table st = rows.
Proof.
  intros Ha H. unfold repack_run in H.
  bind_ok H as total.
  replace (a =? 0) with false in H by lia.
  bind_ok H as hs'.
  bind_ok H.
  change (mkBR [] 0 BIG (default_encoding rt))
    with (appender BIG (default_encoding rt) []) in E1.
  apply write_str_appender in E1 as (mb & Hmb & ->).
  bind_ok H. apply write_uint32_appender in E1 as [-> Horg].
  bind_ok H. apply write_uint32_appender in E1 as [-> Hav].
  bind_ok H. injection H as <- <- <-.
  eapply foldM_add_file_laid_out in E1 as (rows & tb & db & Hlo & Hf & Hd & Ht);
    [| exact Ha | reflexivity].
  cbn [data_br table br_buf app] in Hd, Ht, Hlo.
  change (size _) with 0 in Hlo.
  exists total, mb, rows, tb, db.
  repeat split; try assumption; try lia.
  - destruct (_ mod a =? 0); injection E0 as <-; reflexivity.
  - rewrite Hf. f_equal. cbn [app]. rewrite app_nil_r, <- !app_assoc. reflexivity.
Qed.

Lemma parse_header_written rt c a hs d files rows tb db org av post :
  magic_ok rt = true ->
  names_ok rt files = true ->
  laid_out rt c a hs d files rows tb db ->
  0 <= org - 8 < 2 ^ 32 -> 0 <= av < 2 ^ 32 ->
  len tb + 12 = org ->
  parse_header rt
    ((pybytes (if c then "FArC" else "FArc") ++ be32 (org - 8) ++ be32 av ++ tb) ++ post)
  = Ok (c, map entry_of rows).
Proof.
  intros Hmagic Hok Hlo Horg Hav Hlen.
  destruct (magic_ok_spec rt c Hmagic) as [_ Hdec]. cbn zeta in Hdec.
  set (m := pybytes (if c then "FArC" else "FArc")) in *.
  assert (Hm4 : length m = 4%nat) by (unfold m; destruct c; reflexivity).
  set (input := (m ++ be32 (org - 8) ++ be32 av ++ tb) ++ post).
  assert (Hin : input = [] ++ m ++ (be32 (org - 8) ++ be32 av ++ tb ++ post)).
  { unfold input. rewrite <- !app_assoc. reflexivity. }
  unfold parse_header, parse_header_fuel, read_str_n.
  rewrite (read_bytes_at input 0 4 BIG (ENCODING rt) [] m _ Hin eq_refl (eq_sym Hm4)).
  assert (Hcut : cut_null m = m) by (unfold m; destruct c; reflexivity).
  cbn [bind br_encoding]. rewrite Hcut, Hdec. cbn [of_option bind].
  assert (Hs : str_eqb (pystr (if c then "FArC" else "FArc")) (pystr "FArc")
               || str_eqb (pystr (if c then "FArC" else "FArc")) (pystr "FArC") = true)
    by (destruct c; reflexivity).
  rewrite Hs. cbn [negb].
  assert (Hc : str_eqb (pystr (if c then "FArC" else "FArc")) (pystr "FArC") = c)
    by (destruct c; reflexivity).
  rewrite Hc.
  rewrite (read_uint32_at input (0 + 4) (ENCODING rt) m (org - 8) (be32 av ++ tb ++ post));
    [| unfold input; rewrite <- !app_assoc; reflexivity | rewrite Hm4; reflexivity | assumption].
  cbn [bind].
  rewrite (read_uint32_at input (0 + 4 + 4) (ENCODING rt) (m ++ be32 (org - 8)) av (tb ++ post));
    [| unfold input; rewrite <- !app_assoc; reflexivity
     | rewrite length_app, Hm4; reflexivity | assumption].
  cbn [bind].
  set (pre := m ++ be32 (org - 8) ++ be32 av).
  assert (Hpre : length pre = 12%nat).
  { unfold pre. rewrite !length_app, Hm4. reflexivity. }
  replace (org - 8 + 8) with (len pre + len tb) by (unfold len; rewrite Hpre; unfold len in Hlen; lia).
  replace (0 + 4 + 4 + 4)%nat with (length pre) by (rewrite Hpre; reflexivity).
  replace input with (pre ++ tb ++ post)
    by (unfold input, pre; rewrite <- !app_assoc; reflexivity).
  rewrite (laid_out_read_back rt c a hs d files rows tb db Hlo Hok).
  - reflexivity.
  - apply laid_out_rows_le in Hlo as [Hle _]. rewrite !length_app. lia.
Qed.

Lemma repack_archive_shape rt files c a archive :
  magic_ok rt = true ->
  names_ok rt files = true ->
  1 <= a ->
  repack rt files c a = Ok archive ->
  exists org hs st tb db (k : nat),
    repack_run rt files c a = Ok (org, hs, st) /\
    laid_out rt c a hs 0 files (table st) tb db /\
    br_buf (farc st)
      = pybytes (if c then "FArC" else "FArc") ++ be32 (org - 8) ++ be32 a ++ tb /\
    br_buf (data_br st) = db /\
    archive = br_buf (farc st) ++ repeat x00 k ++ db /\
    len (br_buf (farc st)) = org /\
    org + Z.of_nat k = hs /\ 0 <= Z.of_nat k < a /\ hs mod a = 0 /\
    0 <= org - 8 < 2 ^ 32 /\ 0 <= a < 2 ^ 32.
Proof.
  intros Hmagic Hok Ha H. unfold repack in H.
  bind_ok H as [[org hs] st].
  destruct (repack_run_spec _ _ _ _ _ _ _ Ha E)
    as (total & mb & rows & tb & db & Hsum & Horg & Hhs & Hob & Hab & Hmb & Hlo & Hf & Hd & Ht).
  destruct (magic_ok_spec rt c Hmagic) as [Henc _]. cbn zeta in Henc.
  assert (mb = pybytes (if c then "FArC" else "FArc")) as -> by congruence.
  destruct (finish_spec _ _ _ _ _ Ha Hf) as (k & Hfin & Hk & Hm).
  rewrite Hfin in H. injection H as <-.
  pose proof (laid_out_table_len _ _ _ _ _ _ _ _ _ _ Hlo Hok Hsum) as Htl.
  assert (Hlen : len (pybytes (if c then "FArC" else "FArc")
                       ++ be32 (org - 8) ++ be32 a ++ tb) = org).
  { rewrite !len_app, !len_be32.
    replace (len (pybytes (if c then "FArC" else "FArc"))) with 4
      by (destruct c; reflexivity).
    lia. }
  rewrite Hlen in Hm.
  pose proof (align_up_unique org a (Z.of_nat k) Ha Hk Hm) as Hu.
  rewrite <- Hhs in Hu.
  exists org, hs, st, tb, db, k.
  rewrite Hf. cbn [appender br_buf]. rewrite Hd, Ht.
  repeat split; try assumption; try lia.
  rewrite <- Hu. exact Hm.
Qed.

(** ** [repack] completes within the 32-bit range *)

Lemma write_uint32_fits enc buf v :
  0 <= v < 2 ^ 32 ->
  write_uint32 v (appender BIG enc buf) = Ok (appender BIG enc (buf ++ be32 v)).
Proof.
  intros Hv. unfold write_uint32, pack_uint32. cbn [br_endian appender].
  replace (0 <=? v) with true by lia. replace (v <? 2 ^ 32) with true by lia.
  cbn [andb bind]. fold (appender BIG enc buf).
  rewrite write_bytes_appender. reflexivity.
Qed.

Lemma write_str_encodes e enc buf s null nb :
  encode enc s = Some nb ->
  write_str s null (appender e enc buf)
  = Ok (appender e enc (buf ++ nb ++ (if null then [x00] else []))).
Proof.
  intros H. unfold write_str. cbn [br_encoding appender]. rewrite H.
  cbn [of_option bind]. fold (appender e enc buf).
  rewrite write_bytes_appender. reflexivity.
Qed.

Lemma data_bound_nonneg rt c a files : 0 <= a -> 0 <= data_bound rt c a files.
Proof.
  intros Ha. induction files as [| [name data] files IH]; cbn [data_bound].
  - lia.
  - pose proof (len_nonneg data). pose proof (len_nonneg (gzip_compress rt data)).
    destruct (encode (default_encoding rt) name) as [nb |];
      [pose proof (len_nonneg nb) |]; destruct c; lia.
Qed.

Lemma sum_costs_names_ok rt c files :
  names_ok rt files = true ->
  exists total, sum_costs rt c files = Ok total /\ 0 <= total.
Proof.
  induction files as [| [name data] files IH]; intros Hok.
  - exists 0. cbn. split; [reflexivity | lia].
  - apply names_ok_cons in Hok as [Hn Hok].
    destruct (IH Hok) as (total & Hsum & Hb).
    apply name_ok_spec in Hn as (nb & He & Hd & _).
    cbn [sum_costs]. rewrite He, Hsum. cbn [of_option bind].
    eexists. split; [reflexivity |].
    pose proof (len_nonneg nb).
    unfold entry_size. destruct c; lia.
Qed.

Lemma foldM_add_file_completes rt c a hs files : forall st buf,
  1 <= a -> 0 <= hs ->
  names_ok rt files = true ->
  farc st = appender BIG (default_encoding rt) buf ->
  hs + size (data_br st) + data_bound rt c a files < 2 ^ 32 ->
  exists st', foldM (add_file rt c a hs) st files = Ok st'.
Proof.
  induction files as [| [name data] files IH]; intros st buf Ha Hhs Hok Hf Hb.
  - eexists. reflexivity.
  - apply names_ok_cons in Hok as [Hn Hok].
    apply name_ok_spec in Hn as (nb & _ & Hd & _).
    cbn [data_bound] in Hb. rewrite Hd in Hb.
    pose proof (data_bound_nonneg rt c a files ltac:(lia)) as Hsb.
    pose proof (len_nonneg nb) as Hnb0. pose proof (len_nonneg data) as Hd0.
    pose proof (len_nonneg (br_buf (data_br st))) as Hs0. fold (size (data_br st)) in Hs0.
    pose proof (len_nonneg (gzip_compress rt data)) as Hg0.
    set (payload := if c
           then firstn 3 (gzip_compress rt data)
                  ++ [byte_of (Z.lor (byte_val (nth 3 (gzip_compress rt data) x00)) 8)]
                  ++ firstn 5 (skipn 4 (gzip_compress rt data)) ++ [x03]
                  ++ (if (length (gzip_compress rt data) =? 10)%nat
                         || (10 + (length nb + 1) <=? length (gzip_compress rt data))%nat
                      then nb ++ [x00] else [])
                  ++ skipn 10 (gzip_compress rt data)
           else data).
    assert (Hpl : len payload
                  <= if c then len (gzip_compress rt data) + len nb + 1 else len data).
    { unfold payload. destruct c; [| lia].
      destruct (_ || _); unfold gzip_compress; cbn [app firstn skipn nth];
        unfold len; cbn [length]; rewrite ?length_app; cbn [length]; lia. }
    pose proof (len_nonneg payload) as Hp0.
    assert (Hadd : exists st1 (k : nat),
      add_file rt c a hs st (name, data) = Ok st1 /\
      (exists buf1, farc st1 = appender BIG (default_encoding rt) buf1) /\
      size (data_br st1) = size (data_br st) + len payload + Z.of_nat k /\
      0 <= Z.of_nat k < a).
    { unfold add_file. rewrite Hf.
      rewrite (write_str_encodes _ _ _ _ _ _ Hd). cbn [bind].
      rewrite write_uint32_fits by (destruct c; lia). cbn [bind].
      destruct (align_total a (extend payload (data_br st)) Ha) as [dbr Hal].
      destruct (align_spec _ _ _ Ha Hal) as (k & Hk & Hkr & _).
      assert (Hsz : size dbr = size (data_br st) + len payload + Z.of_nat k).
      { unfold size. rewrite Hk. cbn [extend with_buf br_buf].
        rewrite !len_app, len_repeat. lia. }
      destruct c.
      - rewrite (write_gzip_name_cases rt name (gzip_compress rt data) nb)
          by (cbn; try lia; exact Hd).
        cbn [bind]. fold payload.
        rewrite write_uint32_fits by lia. cbn [bind].
        rewrite Hal. cbn [bind].
        rewrite write_uint32_fits by lia. cbn [bind].
        eexists _, k. split; [reflexivity |]. cbn [farc data_br]. eauto.
      - cbn [bind]. fold payload. rewrite Hal. cbn [bind].
        rewrite write_uint32_fits by lia. cbn [bind].
        eexists _, k. split; [reflexivity |]. cbn [farc data_br]. eauto. }
    destruct Hadd as (st1 & k & Hadd & [buf1 Hf1] & Hsz & Hk).
    cbn [foldM]. rewrite Hadd. cbn [bind].
    apply (IH st1 buf1); try assumption.
    rewrite Hsz. destruct c; lia.
Qed.

(** When the names are fit for the archive and [size_bound] is below
    [2^32], [repack] produces an archive. *)
Theorem repack_completes rt files c a :
  magic_ok rt = true ->
  names_ok rt files = true ->
  1 <= a ->
  size_bound rt c a files < 2 ^ 32 ->
  exists archive, repack rt files c a = Ok archive.
Proof.
  intros Hmagic Hok Ha Hb.
  destruct (sum_costs_names_ok rt c files Hok) as (total & Hsum & Ht).
  unfold size_bound in Hb. rewrite Hsum in Hb.
  pose proof (data_bound_nonneg rt c a files ltac:(lia)) as Hdb.
  destruct (magic_ok_spec rt c Hmagic) as [Henc _]. cbn zeta in Henc.
  unfold repack, repack_run. rewrite Hsum. cbn [bind].
  replace (a =? 0) with false by lia.
  set (org := total + 12).
  set (hs := if org mod a =? 0 then org else org + (a - org mod a)).
  assert (Hhs : org <= hs < org + a).
  { unfold hs. pose proof (Z.mod_pos_bound org a ltac:(lia)).
    destruct (org mod a =? 0) eqn:E; [lia |]. apply Z.eqb_neq in E. lia. }
  assert (Hhd : (if org mod a =? 0 then Ok org
                 else Ok (org + (a - org mod a))) = @Ok Z hs).
  { unfold hs. destruct (org mod a =? 0); reflexivity. }
  rewrite Hhd. cbn [bind].
  change (mkBR [] 0 BIG (default_encoding rt))
    with (appender BIG (default_encoding rt) []).
  rewrite (write_str_encodes _ _ _ _ _ _ Henc). cbn [bind].
  rewrite write_uint32_fits by (unfold org; lia). cbn [bind].
  rewrite write_uint32_fits by lia. cbn [bind].
  edestruct (foldM_add_file_completes rt c a hs files) as [st' Hst'];
    [exact Ha | lia | exact Hok | | | rewrite Hst'].
  - cbn [farc]. reflexivity.
  - cbn [data_br]. change (size _) with 0. unfold org in Hhs. lia.
  - cbn [bind].
    eapply foldM_add_file_laid_out in Hst' as (rows & tb & db & _ & Hf & _);
      [| exact Ha | cbn [farc]; reflexivity].
    destruct (finish_spec _ _ _ _ _ Ha Hf) as (k & Hfin & _).
    eexists. exact Hfin.
Qed.

(** ** Round trip *)

(** Unpacking what [repack] wrote gives the files back. *)
Lemma unpack_of_repacked rt files c a archive :
  magic_ok rt = true ->
  names_ok rt files = true ->
  (c = true -> members_ok rt files = true) ->
  1 <= a ->
  repack rt files c a = Ok archive ->
  unpack rt archive = (files, Ok tt).
Proof.
  intros Hmagic Hok Hgz Ha H.
  destruct (repack_archive_shape _ _ _ _ _ Hmagic Hok Ha H)
    as (org & hs & st & tb & db & k & Hrun & Hlo & Hfb & Hdb & Harc & Hlen & Hk & Hkr & Hhs & Hob & Hab).
  unfold unpack.
  assert (Hparse : parse_header rt archive = Ok (c, map entry_of (table st))).
  { rewrite Harc, Hfb.
    apply (parse_header_written rt c a hs 0 files (table st) tb db); try assumption.
    rewrite Hfb in Hlen. rewrite !len_app, !len_be32 in Hlen.
    replace (len (pybytes (if c then "FArC" else "FArc"))) with 4 in Hlen
      by (destruct c; reflexivity).
    lia. }
  rewrite Hparse. rewrite Harc.
  rewrite app_assoc.
  apply (laid_out_extract rt c a hs 0 files (table st) tb db Hlo Hok Hgz).
  rewrite len_app, len_repeat. lia.
Qed.

(** ** The extraction loop of [unpack] *)

Lemma skip_exact_err n l e : skip_exact n l = Err e -> e = DecompressionError.
Proof.
  unfold skip_exact. destruct (n <=? length l)%nat; congruence.
Qed.

Lemma gzip_decompress_err rt data e :
  gzip_decompress rt data = Err e -> e = DecompressionError.
Proof.
  unfold gzip_decompress.
  do 10 (destruct data as [| ? data]; [congruence |]).
  destruct (_ && _); [| congruence].
  destruct (Z.testbit _ 2).
  - destruct data as [| l0 [| l1 data]]; cbn [bind]; try congruence.
    destruct (skip_exact _ data) as [r |] eqn:E1; cbn [bind].
    + destruct (Z.testbit _ 1).
      * destruct (skip_exact 2 _) eqn:E2; cbn [bind].
        -- destruct (inflate_member rt _); cbn; congruence.
        -- apply skip_exact_err in E2. congruence.
      * cbn [bind]. destruct (inflate_member rt _); cbn; congruence.
    + apply skip_exact_err in E1. congruence.
  - cbn [bind]. destruct (Z.testbit _ 1).
    + destruct (skip_exact 2 _) eqn:E2; cbn [bind].
      * destruct (inflate_member rt _); cbn; congruence.
      * apply skip_exact_err in E2. congruence.
    + cbn [bind]. destruct (inflate_member rt _); cbn; congruence.
Qed.

Lemma extract_uncompressed rt buf entries :
  extract rt false buf entries
  = (map (fun '(name, offset, sz) => (name, slice buf offset (offset + sz))) entries,
     Ok tt).
Proof.
  induction entries as [| [[name offset] sz] entries IH]; cbn [extract map].
  - reflexivity.
  - rewrite IH. reflexivity.
Qed.

Lemma extract_names rt c buf entries out :
  extract rt c buf entries = (out, Ok tt) ->
  map fst out = map (fun e => fst (fst e)) entries.
Proof.
  revert out. induction entries as [| [[name offset] sz] entries IH]; intros out H.
  - injection H as <-. reflexivity.
  - cbn [extract] in H.
    destruct (if c then _ else _) as [data |]; [| discriminate].
    destruct (extract rt c buf entries) as [out' r] eqn:E.
    injection H as <- ->. cbn. f_equal. auto.
Qed.

Lemma extract_err rt c buf entries out e :
  extract rt c buf entries = (out, Err e) ->
  c = true /\ e = DecompressionError /\
  exists pre name offset sz post,
    entries = pre ++ (name, offset, sz) :: post /\
    extract rt c buf pre = (out, Ok tt) /\
    gzip_decompress rt (slice buf offset (offset + sz)) = Err DecompressionError.
Proof.
  revert out. induction entries as [| [[name offset] sz] entries IH]; intros out H.
  - discriminate.
  - cbn [extract] in H.
    destruct c.
    + destruct (gzip_decompress rt (slice buf offset (offset + sz))) as [data | e'] eqn:Ez.
      * destruct (extract rt true buf entries) as [out' r] eqn:E.
        injection H as <- ->.
        destruct (IH _ eq_refl) as (_ & He & pre & n & o & s & post & -> & Hpre & Hz).
        repeat split; auto.
        exists ((name, offset, sz) :: pre), n, o, s, post.
        repeat split; auto.
        cbn [extract]. rewrite Ez, Hpre. reflexivity.
      * injection H as <- <-.
        pose proof (gzip_decompress_err _ _ _ Ez) as ->.
        repeat split; auto.
        exists [], name, offset, sz, entries. auto.
    + rewrite extract_uncompressed in H. discriminate.
Qed.

Lemma extract_all rt c buf entries :
  (c = true ->
   Forall (fun e => exists data,
     gzip_decompress rt (slice buf (snd (fst e)) (snd (fst e) + snd e)) = Ok data) entries) ->
  exists out,
    extract rt c buf entries = (out, Ok tt) /\
    Forall2 (fun e o =>
      fst o = fst (fst e) /\
      let stored := slice buf (snd (fst e)) (snd (fst e) + snd e) in
      if c then gzip_decompress rt stored = Ok (snd o) else snd o = stored)
      entries out.
Proof.
  intros H. induction entries as [| [[name offset] sz] entries IH].
  - exists []. split; [reflexivity | constructor].
  - destruct IH as (out & Hout & HF).
    { intros Hc. specialize (H Hc). inversion H; assumption. }
    cbn [extract]. destruct c.
    + specialize (H eq_refl). inversion H as [| ? ? [data Hd] _]. subst.
      cbn [fst snd] in Hd. rewrite Hd, Hout.
      exists ((name, data) :: out). split; [reflexivity |].
      constructor; [| assumption]. cbn. auto.
    + rewrite Hout. eexists. split; [reflexivity |].
      constructor; [| assumption]. cbn. auto.
Qed.

(** ** Reads do not look behind the cursor *)

Lemma skipn_agree (n i : nat) (b1 b2 : bytes) :
  skipn n b1 = skipn n b2 -> (n <= i)%nat -> skipn i b1 = skipn i b2.
Proof.
  intros H Hi. replace i with ((i - n) + n)%nat by lia.
  rewrite <- !skipn_skipn, H. reflexivity.
Qed.

Section Rebase.

Variables (n : nat) (b1 b2 : bytes).
Hypothesis tail_eq : skipn n b1 = skipn n b2.
Hypothesis length_eq : length b1 = length b2.

Lemma read_bytes_rebase k i e enc :
  (n <= i)%nat ->
  read_bytes k (mkBR b2 i e enc) =
  match read_bytes k (mkBR b1 i e enc) with
  | Ok (v, _) => Ok (v, mkBR b2 (i + k) e enc)
  | Err er => Err er
  end.
Proof.
  intros Hi. unfold read_bytes. cbn [br_idx br_buf].
  rewrite <- length_eq, (skipn_agree n i b1 b2 tail_eq Hi).
  destruct (i + k <=? length b1)%nat; reflexivity.
Qed.

Lemma read_bytes_idx k b i e enc v br' :
  read_bytes k (mkBR b i e enc) = Ok (v, br') -> br' = mkBR b (i + k) e enc.
Proof.
  unfold read_bytes. cbn [br_idx br_buf].
  destruct (_ <=? _)%nat; [| discriminate]. intros [= _ <-]. reflexivity.
Qed.

Lemma read_entries_rebase fuel c H e enc : forall i acc,
  (n <= i)%nat ->
  read_entries fuel c H (mkBR b2 i e enc) acc
  = read_entries fuel c H (mkBR b1 i e enc) acc.
Proof.
  induction fuel as [| fuel IH]; intros i acc Hi.
  - reflexivity.
  - rewrite !(read_entries_eq (S fuel)). unfold pos. cbn [br_idx].
    destruct (Z.of_nat i <? H); [| reflexivity].
    assert (Hrest : forall j s, (n <= j)%nat ->
      ('(offset, sz, br) <- read_uint32_2 (mkBR b2 j e enc) ;;
       if c then
         '(_, br) <- read_uint32 br ;;
         read_entries fuel c H br (acc ++ [(s, offset, sz)])
       else read_entries fuel c H br (acc ++ [(s, offset, sz)]))
      = ('(offset, sz, br) <- read_uint32_2 (mkBR b1 j e enc) ;;
         if c then
           '(_, br) <- read_uint32 br ;;
           read_entries fuel c H br (acc ++ [(s, offset, sz)])
         else read_entries fuel c H br (acc ++ [(s, offset, sz)]))).
    { intros j s Hj. unfold read_uint32_2.
      rewrite read_bytes_rebase by lia.
      destruct (read_bytes 8 (mkBR b1 j e enc)) as [[v br'] |] eqn:E8;
        [| reflexivity].
      apply read_bytes_idx in E8 as ->.
      cbn [bind br_endian].
      destruct c.
      + unfold read_uint32. rewrite read_bytes_rebase by lia.
        destruct (read_bytes 4 (mkBR b1 (j + 8) e enc)) as [[v4 br'] |] eqn:E4;
          [| reflexivity].
        apply read_bytes_idx in E4 as ->.
        cbn [bind br_endian]. apply IH. lia.
      + apply IH. lia. }
    unfold read_str. cbn [br_idx br_buf br_encoding].
    rewrite (skipn_agree n i b1 b2 tail_eq Hi).
    destruct (scan_null (skipn i b2)) as [span |].
    + destruct (decode enc span) as [s |]; [| reflexivity].
      cbn [of_option bind]. apply Hrest. lia.
    + destruct (decode enc (skipn i b2)) as [s |]; [| reflexivity].
      cbn [of_option bind]. apply Hrest. lia.
Qed.

End Rebase.

Lemma parse_header_alignment_bytes rt (b1 b2 : bytes) :
  length b1 = length b2 ->
  firstn 8 b1 = firstn 8 b2 ->
  skipn 12 b1 = skipn 12 b2 ->
  parse_header rt b1 = parse_header rt b2.
Proof.
  intros Hl H8 H12.
  assert (A1 : firstn 4 b1 = firstn 4 b2).
  { change 4%nat with (Nat.min 4 8). rewrite <- !firstn_firstn, H8. reflexivity. }
  assert (A2 : firstn 4 (skipn 4 b1) = firstn 4 (skipn 4 b2)).
  { change 4%nat with (8 - 4)%nat at 1 3.
    rewrite <- !skipn_firstn_comm, H8. reflexivity. }
  unfold parse_header, parse_header_fuel, read_str_n, read_uint32, read_bytes.
  cbn [br_idx br_buf br_encoding br_endian with_idx Nat.add skipn].
  rewrite <- Hl, <- A1.
  destruct (4 <=? length b1)%nat; [| reflexivity].
  cbn [bind br_encoding].
  destruct (decode (ENCODING rt) (cut_null (firstn 4 b1))) as [magic |];
    [| reflexivity].
  cbn [of_option bind]. destruct (negb _); [reflexivity |].
  cbn [br_idx br_buf br_encoding br_endian with_idx Nat.add].
  rewrite <- Hl, <- A2.
  destruct (8 <=? length b1)%nat; [| reflexivity].
  cbn [bind br_idx br_buf br_encoding br_endian with_idx Nat.add].
  rewrite <- Hl.
  destruct (12 <=? length b1)%nat; [| reflexivity].
  cbn [bind br_idx br_buf br_encoding br_endian with_idx Nat.add].
  unfold with_idx. cbn [br_buf br_endian br_encoding].
  rewrite (read_entries_rebase 12 b1 b2 H12 Hl) by lia.
  reflexivity.
Qed.

(** A slice that does not meet the bytes 8..11 is the same in two buffers
    that differ in those bytes only. *)
Lemma slice_agree (b1 b2 : bytes) (lo hi : Z) :
  firstn 8 b1 = firstn 8 b2 ->
  skipn 12 b1 = skipn 12 b2 ->
  0 <= lo ->
  hi - lo <= 0 \/ hi <= 8 \/ 12 <= lo ->
  slice b1 lo hi = slice b2 lo hi.
Proof.
  intros H8 H12 Hlo Hr. unfold slice.
  destruct (Z.le_gt_cases (hi - lo) 0) as [He | Hpos].
  { replace (Z.to_nat (hi - lo)) with 0%nat by lia. reflexivity. }
  destruct Hr as [He | [Hhi | H]]; [lia | |].
  - rewrite !firstn_skipn_comm. f_equal.
    set (m := (Z.to_nat lo + Z.to_nat (hi - lo))%nat).
    assert (Hm : (m <= 8)%nat) by (unfold m; lia).
    replace m with (Nat.min m 8) by lia.
    rewrite <- !firstn_firstn, H8. reflexivity.
  - rewrite (skipn_agree 12 (Z.to_nat lo) b1 b2 H12) by lia. reflexivity.
Qed.

Lemma extract_agree rt c (b1 b2 : bytes) entries :
  firstn 8 b1 = firstn 8 b2 ->
  skipn 12 b1 = skipn 12 b2 ->
  Forall (fun e : str * Z * Z =>
            0 <= snd (fst e) /\
            (snd e = 0 \/ snd (fst e) + snd e <= 8 \/ 12 <= snd (fst e))) entries ->
  extract rt c b1 entries = extract rt c b2 entries.
Proof.
  intros H8 H12. induction 1 as [| [[name offset] sz] entries [Ho Hr] _ IH].
  - reflexivity.
  - cbn [extract]. cbn [fst snd] in Ho, Hr.
    rewrite (slice_agree b1 b2 offset (offset + sz) H8 H12 Ho) by lia.
    rewrite IH. reflexivity.
Qed.

(** The offsets and sizes of a parsed table are unsigned. *)
Lemma be_value_nonneg (bs : bytes) : 0 <= be_value bs.
Proof.
  unfold be_value.
  assert (H : forall acc, 0 <= acc ->
            0 <= fold_left (fun acc b => acc * 256 + byte_val b) bs acc).
  { induction bs as [| b bs IH]; intros acc Hacc; cbn [fold_left]; [exact Hacc |].
    apply IH. pose proof (byte_val_range b). lia. }
  apply H. lia.
Qed.

Lemma unpack_uint32_nonneg e (bs : bytes) : 0 <= unpack_uint32 e bs.
Proof. unfold unpack_uint32. apply be_value_nonneg. Qed.

Lemma read_entries_nonneg c H : forall fuel br acc entries,
  Forall (fun en : str * Z * Z => 0 <= snd (fst en) /\ 0 <= snd en) acc ->
  read_entries fuel c H br acc = Ok entries ->
  Forall (fun en : str * Z * Z => 0 <= snd (fst en) /\ 0 <= snd en) entries.
Proof.
  induction fuel as [| fuel IH]; intros br acc entries Hacc Hr;
    rewrite read_entries_eq in Hr.
  - destruct (pos br <? H); [discriminate |]. injection Hr as <-. exact Hacc.
  - destruct (pos br <? H); [| injection Hr as <-; exact Hacc].
    destruct (read_str br) as [[name br1] |]; cbn [bind] in Hr; [| discriminate].
    unfold read_uint32_2 in Hr.
    destruct (read_bytes 8 br1) as [[bs br2] |]; cbn [bind] in Hr; [| discriminate].
    assert (Hacc' : Forall (fun en : str * Z * Z => 0 <= snd (fst en) /\ 0 <= snd en)
                      (acc ++ [(name, unpack_uint32 (br_endian br1) (firstn 4 bs),
                                unpack_uint32 (br_endian br1) (skipn 4 bs))])).
    { apply Forall_app. split; [exact Hacc |].
      constructor; [| constructor]. cbn [fst snd].
      split; apply unpack_uint32_nonneg. }
    destruct c.
    + destruct (read_uint32 br2) as [[v br3] |]; cbn [bind] in Hr; [| discriminate].
      eapply IH; eassumption.
    + eapply IH; eassumption.
Qed.

Lemma parse_header_nonneg rt input c entries :
  parse_header rt input = Ok (c, entries) ->
  Forall (fun en : str * Z * Z => 0 <= snd (fst en) /\ 0 <= snd en) entries.
Proof.
  unfold parse_header, parse_header_fuel. intros H.
  destruct (read_str_n 4 _) as [[magic br1] |]; cbn [bind] in H; [| discriminate].
  destruct (negb _); [discriminate |].
  destruct (read_uint32 br1) as [[hs br2] |]; cbn [bind] in H; [| discriminate].
  destruct (read_uint32 br2) as [[av br3] |]; cbn [bind] in H; [| discriminate].
  destruct (read_entries _ _ _ br3 []) as [es |] eqn:Er; cbn [bind] in H;
    [| discriminate].
  injection H as <- <-.
  eapply read_entries_nonneg; [| exact Er]. constructor.
Qed.

(** ** The table loop never runs out of rounds *)

Lemma scan_null_length l span :
  scan_null l = Some span -> (length span + 1 <= length l)%nat.
Proof.
  revert span. induction l as [| b l IH]; intros span H; cbn in H.
  - discriminate.
  - destruct (Byte.eqb b x00).
    + injection H as <-. cbn. lia.
    + destruct (scan_null l) as [s |]; [| discriminate].
      injection H as <-. specialize (IH s eq_refl). cbn. lia.
Qed.

Lemma read_bytes_past_end k buf i e enc :
  (0 < k)%nat -> (length buf <= i)%nat ->
  read_bytes k (mkBR buf i e enc) = Err OutOfBounds.
Proof.
  intros Hk Hi. unfold read_bytes. cbn [br_idx br_buf].
  replace (i + k <=? length buf)%nat with false
    by (symmetry; apply Nat.leb_gt; lia).
  reflexivity.
Qed.

(** Any two amounts of fuel above the number of bytes left give the same
    result: the [Err] of the exhausted branch is never what the loop
    returns when it is started with the buffer length. *)
Lemma read_entries_fuel buf c H e enc : forall f1 f2 i acc,
  (length buf - i < f1)%nat -> (length buf - i < f2)%nat ->
  read_entries f1 c H (mkBR buf i e enc) acc
  = read_entries f2 c H (mkBR buf i e enc) acc.
Proof.
  induction f1 as [| f1 IH]; intros f2 i acc H1 H2; [lia |].
  destruct f2 as [| f2]; [lia |].
  rewrite !(read_entries_eq (S _)). unfold pos. cbn [br_idx].
  destruct (Z.of_nat i <? H); [| reflexivity].
  unfold read_str. cbn [br_idx br_buf br_encoding].
  destruct (scan_null (skipn i buf)) as [span |] eqn:Es.
  2:{ destruct (decode enc (skipn i buf)) as [s |]; [| reflexivity].
      cbn [of_option bind]. unfold read_uint32_2, with_idx.
      cbn [br_buf br_endian br_encoding].
      rewrite !read_bytes_past_end by (rewrite ?length_skipn; lia).
      reflexivity. }
  apply scan_null_length in Es. rewrite length_skipn in Es.
  cbn [of_option bind].
  destruct (decode enc span) as [s |]; [| reflexivity].
  cbn [of_option bind]. unfold read_uint32_2, with_idx.
  cbn [br_buf br_endian br_encoding].
  destruct (read_bytes 8 (mkBR buf (i + length span + 1) e enc)) as [[v br'] |] eqn:E8;
    [| reflexivity].
  apply read_bytes_idx in E8 as ->.
  cbn [bind br_endian].
  destruct c.
  - unfold read_uint32.
    destruct (read_bytes 4 (mkBR buf (i + length span + 1 + 8) e enc)) as [[v4 br'] |] eqn:E4;
      [| reflexivity].
    apply read_bytes_idx in E4 as ->.
    cbn [bind br_endian]. apply IH; lia.
  - apply IH; lia.
Qed.

(** [parse_header] gives the loop enough fuel: with any larger amount the
    header parses to the same result. *)
Lemma parse_header_fuel_enough rt input fuel :
  (length input <= fuel)%nat ->
  parse_header_fuel rt fuel input = parse_header rt input.
Proof.
  intros Hf.
  unfold parse_header, parse_header_fuel, read_str_n, read_uint32, read_bytes.
  cbn [br_idx br_buf br_encoding br_endian with_idx Nat.add skipn].
  destruct (4 <=? length input)%nat; [| reflexivity].
  cbn [bind br_encoding].
  destruct (decode (ENCODING rt) (cut_null (firstn 4 input))) as [magic |];
    [| reflexivity].
  cbn [of_option bind]. destruct (negb _); [reflexivity |].
  cbn [br_idx br_buf br_encoding br_endian with_idx Nat.add].
  destruct (8 <=? length input)%nat; [| reflexivity].
  cbn [bind br_idx br_buf br_encoding br_endian with_idx Nat.add].
  destruct (12 <=? length input)%nat eqn:E12; [| reflexivity].
  apply Nat.leb_le in E12.
  cbn [bind br_idx br_buf br_encoding br_endian with_idx Nat.add].
  unfold with_idx. cbn [br_buf br_endian br_encoding].
  rewrite (read_entries_fuel input _ _ BIG (ENCODING rt) fuel (length input)) by lia.
  reflexivity.
Qed.

(** C1, counterexample. Alignment [2^32] is a value [>= 1] for which
    [repack] produces no archive at all: the alignment field cannot hold
    it, and [struct] refuses the write. *)
Lemma roundtrip_fails_wide_alignment :
  1 <= 2 ^ 32 /\
  ~ exists archive,
      repack python_rt example_files false (2 ^ 32) = Ok archive /\
      unpack python_rt archive = (example_files, Ok tt).
Proof.
  split; [lia |].
  intros (archive & H & _). vm_compute in H. discriminate H.
Qed.

(** C1, as amended. Take files whose names are encoded alike by the
    writer's cursor and by [ENCODING], to bytes without a null that
    [ENCODING] decodes back, an alignment [>= 1] and either compression
    setting; with compression, let every name with its null byte be no
    longer than the DEFLATE member of its file ([write_gzip_name] leaves a
    longer name out of the stream), and let the decoder return the
    contents from that member. Whenever [repack] completes, [unpack] of
    its archive returns exactly the files given: same names, same
    contents, same order. And [repack] does complete when [size_bound],
    which bounds every number it writes, is below [2^32]. *)
Theorem unpack_repack_roundtrip rt files c a :
  magic_ok rt = true ->
  names_ok rt files = true ->
  (c = true -> members_ok rt files = true) ->
  1 <= a ->
  (forall archive,
     repack rt files c a = Ok archive -> unpack rt archive = (files, Ok tt)) /\
  (size_bound rt c a files < 2 ^ 32 ->
   exists archive,
     repack rt files c a = Ok archive /\ unpack rt archive = (files, Ok tt)).
Proof.
  intros Hmagic Hok Hgz Ha.
  assert (Hrt : forall archive,
    repack rt files c a = Ok archive -> unpack rt archive = (files, Ok tt)).
  { intros archive. apply unpack_of_repacked; assumption. }
  split; [exact Hrt |].
  intros Hb.
  destruct (repack_completes rt files c a Hmagic Hok Ha Hb) as [archive H].
  exists archive. auto.
Qed.

Lemma unpack_repack_roundtrip_witness :
  unpack python_rt two_files_archive = (two_files, Ok tt) /\
  exists archive,
    repack python_rt two_files true 16 = Ok archive /\
    unpack python_rt archive = (two_files, Ok tt).
Proof.
  destruct (unpack_repack_roundtrip python_rt two_files true 16) as [Hany Hex].
  - reflexivity.
  - reflexivity.
  - intros _. reflexivity.
  - lia.
  - split.
    + apply Hany. vm_compute. reflexivity.
    + apply Hex. vm_compute. reflexivity.
Defined.

(** ** The example of the specification *)

(** C2, counterexample. The bytes given for the example are not what
    [repack] writes (the header-size field holds 18, not 4, and the payload
    starts at 26, not 20), and unpacking them finds no entry at all. *)
Lemma spec_example_is_not_the_output :
  repack python_rt example_files false 1 <> Ok spec_example_archive /\
  unpack python_rt spec_example_archive <> (example_files, Ok tt).
Proof.
  split; intros H; vm_compute in H; discriminate H.
Qed.

(** C2, as amended. Repacking ["a.txt"] holding [b"hello"], compression
    off, alignment 1, yields [b"FArc" + uint32_be(26-8) + uint32_be(1) +
    b"a.txt\x00" + uint32_be(26) + uint32_be(5) + b"hello"]: the header
    boundary is 26, the payload starts at offset 26, and unpacking that
    output returns [("a.txt", b"hello")]. *)
Theorem repack_example :
  repack python_rt example_files false 1 = Ok example_archive /\
  unpack_uint32 BIG (slice example_archive 4 8) + 8 = 26 /\
  slice example_archive 26 (26 + 5) = pybytes "hello" /\
  unpack python_rt example_archive = (example_files, Ok tt).
Proof.
  repeat split; vm_compute; reflexivity.
Qed.

(** ** The layout of a repacked archive *)

Lemma laid_out_payloads rt c a hs d files rows tb db :
  laid_out rt c a hs d files rows tb db ->
  Forall2 (fun w f =>
    w_name w = fst f /\
    if c then write_gzip_name rt (fst f) (gzip_compress rt (snd f)) = Ok (w_payload w)
    else w_payload w = snd f) rows files.
Proof.
  induction 1 as [d | d name data files nb payload k rows tb db Hnb Hp Hoff Hpl Hdl Hk Hm Hlo IH].
  - constructor.
  - constructor; [| exact IH]. cbn. split; [reflexivity | exact Hp].
Qed.

(** When the names are encoded alike by the writer's cursor and by
    [ENCODING], the header-size field plus 8 is where the table ends, and
    the padded header ends on a multiple of the alignment, where the data
    region starts. *)
Theorem repack_header_boundary rt files c a archive :
  magic_ok rt = true ->
  names_ok rt files = true ->
  1 <= a ->
  repack rt files c a = Ok archive ->
  exists org_header_size header_size st,
    repack_run rt files c a = Ok (org_header_size, header_size, st) /\
    unpack_uint32 BIG (slice archive 4 8) + 8 = size (farc st) /\
    size (farc st) = org_header_size /\
    org_header_size <= header_size < org_header_size + a /\
    header_size mod a = 0 /\
    len archive = header_size + size (data_br st) /\
    slice archive header_size (len archive) = buffer (data_br st).
Proof.
  intros Hmagic Hok Ha H.
  destruct (repack_archive_shape _ _ _ _ _ Hmagic Hok Ha H)
    as (org & hs & st & tb & db & k & Hrun & Hlo & Hfb & Hdb & Harc & Hlen & Hk & Hkr & Hhs & Hob & Hab).
  exists org, hs, st. unfold size, buffer. rewrite Hdb.
  repeat split; try assumption; try lia.
  - assert (Hs : slice archive 4 (4 + len (be32 (org - 8))) = be32 (org - 8)).
    { rewrite Harc, Hfb, <- !app_assoc. apply slice_at. destruct c; reflexivity. }
    rewrite len_be32 in Hs. change (4 + 4) with 8 in Hs.
    rewrite Hs, Hlen. unfold unpack_uint32.
    rewrite be_value_be32 by assumption. lia.
  - rewrite Harc, !len_app, len_repeat. lia.
  - rewrite Harc. rewrite app_assoc.
    replace (len ((br_buf (farc st) ++ repeat x00 k) ++ db)) with (hs + len db)
      by (rewrite !len_app, len_repeat; lia).
    rewrite <- (app_nil_r db) at 1.
    apply slice_at. rewrite len_app, len_repeat. lia.
Qed.

(** Under the same condition every row of the table points at its payload:
    the bytes of the archive at [offset, offset + stored size) are the bytes
    that went to the data buffer for that file. *)
Theorem repack_payload_at_offset rt files c a archive :
  magic_ok rt = true ->
  names_ok rt files = true ->
  1 <= a ->
  repack rt files c a = Ok archive ->
  exists org_header_size header_size st,
    repack_run rt files c a = Ok (org_header_size, header_size, st) /\
    Forall (fun w =>
      slice archive (w_offset w) (w_offset w + w_size w) = w_payload w) (table st) /\
    Forall2 (fun w f =>
      w_name w = fst f /\
      if c then write_gzip_name rt (fst f) (gzip_compress rt (snd f)) = Ok (w_payload w)
      else w_payload w = snd f) (table st) files.
Proof.
  intros Hmagic Hok Ha H.
  destruct (repack_archive_shape _ _ _ _ _ Hmagic Hok Ha H)
    as (org & hs & st & tb & db & k & Hrun & Hlo & Hfb & Hdb & Harc & Hlen & Hk & Hkr & Hhs & Hob & Hab).
  exists org, hs, st. split; [assumption |]. split.
  - rewrite Harc, app_assoc.
    apply (laid_out_slices rt c a hs 0 files (table st) tb db Hlo).
    rewrite len_app, len_repeat. lia.
  - exact (laid_out_payloads _ _ _ _ _ _ _ _ _ Hlo).
Qed.

(** Under the same condition the rows do not overlap and follow each other,
    start on multiples of the alignment, at or after the end of the header,
    and end inside the archive. *)
Theorem repack_table_invariants rt files c a archive :
  magic_ok rt = true ->
  names_ok rt files = true ->
  1 <= a ->
  repack rt files c a = Ok archive ->
  exists org_header_size header_size st,
    repack_run rt files c a = Ok (org_header_size, header_size, st) /\
    (forall i w1 w2,
       nth_error (table st) i = Some w1 -> nth_error (table st) (S i) = Some w2 ->
       w_offset w1 + w_size w1 <= w_offset w2) /\
    Forall (fun w =>
      w_offset w mod a = 0 /\
      size (farc st) <= header_size <= w_offset w /\
      w_offset w + w_size w <= len archive) (table st).
Proof.
  intros Hmagic Hok Ha H.
  destruct (repack_archive_shape _ _ _ _ _ Hmagic Hok Ha H)
    as (org & hs & st & tb & db & k & Hrun & Hlo & Hfb & Hdb & Harc & Hlen & Hk & Hkr & Hhs & Hob & Hab).
  exists org, hs, st. split; [assumption |]. split.
  - exact (laid_out_consecutive _ _ _ _ _ _ _ _ _ Hlo).
  - pose proof (laid_out_bounds _ _ _ _ _ _ _ _ _ Hlo) as Hb.
    pose proof (laid_out_aligned _ _ _ _ _ _ _ _ _ Hlo Ha Hhs (Z.mod_0_l a ltac:(lia))) as Hal.
    rewrite Forall_forall in *. intros w Hw.
    destruct (Hb w Hw) as (H1 & H2 & H3). specialize (Hal w Hw).
    unfold size. rewrite Harc, !len_app, len_repeat.
    repeat split; try assumption; lia.
Qed.

(** ** Names outside ASCII: the writer's cursor has no [ENCODING] *)

(** C3 at the failing input. For the file [kana_files] the header-size
    field plus 8 is 26, but the table really ends at byte 28, where the
    data region starts: the size was counted in cp932 (farc.py:123) and the
    name written in the cursor's own codec (farc.py:128, 136). *)
Theorem header_size_field_undercounts :
  match repack_run python_rt kana_files false 1,
        repack python_rt kana_files false 1 with
  | Ok (org_header_size, header_size, st), Ok archive =>
      unpack_uint32 BIG (slice archive 4 8) + 8 = 26 /\
      size (farc st) = 28 /\
      slice archive 28 (len archive) = buffer (data_br st)
  | _, _ => False
  end.
Proof. vm_compute. repeat split; reflexivity. Qed.

(** C4 at the failing input. The row written for the file of [kana_files]
    has offset 26 and size 2, its payload is [b"hi"], and the archive holds
    the last two bytes of the size field at [26, 28). *)
Theorem payload_not_at_offset :
  match repack_run python_rt kana_files false 1,
        repack python_rt kana_files false 1 with
  | Ok (_, _, st), Ok archive =>
      map (fun w => (w_offset w, w_size w, w_payload w,
                     slice archive (w_offset w) (w_offset w + w_size w))) (table st)
      = [(26, 2, pybytes "hi", [x00; x02])]
  | _, _ => False
  end.
Proof. vm_compute. reflexivity. Qed.

(** C8 at the failing input. The only offset of the table written for
    [kana_files] is 26, inside the header, which is 28 bytes long. *)
Theorem offset_inside_header :
  match repack_run python_rt kana_files false 1 with
  | Ok (_, _, st) =>
      map w_offset (table st) = [26] /\ size (farc st) = 28
  | Err _ => False
  end.
Proof. vm_compute. split; reflexivity. Qed.

(** With a cursor that wrote names in [ENCODING], the same file would
    come back from its archive. *)
Example kana_roundtrip_uniform :
  exists archive,
    repack uniform_rt kana_files false 1 = Ok archive /\
    unpack uniform_rt archive = (kana_files, Ok tt).
Proof.
  destruct (repack_completes uniform_rt kana_files false 1) as [archive H];
    [reflexivity | reflexivity | lia | vm_compute; reflexivity |].
  exists archive. split; [exact H |].
  apply (unpack_of_repacked uniform_rt kana_files false 1);
    [reflexivity | reflexivity | discriminate | lia | exact H].
Qed.

(** C5 at the failing input. The stream is what [gzip.compress] gives for
    [b"hi"], ten header bytes and a member of twelve, so that the name has
    room after the header. The name injected is encoded by the cursor's
    own codec, UTF-8 in [python_rt]: the three bytes EF BD B1 for U+FF71,
    where cp932 has the single byte B1. *)
Theorem gzip_name_not_in_cp932 :
  gzip_compress python_rt (pybytes "hi")
  = [x1f; x8b; x08; x00; x00; x00; x00; x00; x02; xff]
      ++ [xcb; xc8; x04; x00; xac; x2a; x93; xd8; x02; x00; x00; x00] /\
  write_gzip_name python_rt [0xFF71] (gzip_compress python_rt (pybytes "hi"))
  = Ok ([x1f; x8b; x08; x08; x00; x00; x00; x00; x02; x03]
          ++ [xef; xbd; xb1] ++ [x00]
          ++ [xcb; xc8; x04; x00; xac; x2a; x93; xd8; x02; x00; x00; x00]) /\
  encode (ENCODING python_rt) [0xFF71] = Some [xb1].
Proof. repeat split; vm_compute; reflexivity. Qed.

(** ** Errors and the files already written *)

(** C6, counterexample. [broken_archive] parses, its first entry is
    decompressed and written, then the second fails to decompress: the call
    ends in an error with one file already out. *)
Lemma unpack_commits_before_error :
  unpack python_rt broken_archive
  = ([(pystr "a", pybytes "hi")], Err DecompressionError).
Proof. vm_compute. reflexivity. Qed.

(** C6, as amended. An error met while the magic, the header or the table
    is parsed leaves no file written. The only error after that is a gzip
    failure on some entry of a compressed archive, and then the files of
    the entries before it, and only those, have been written, in table
    order. *)
Theorem unpack_error_prefix rt input out e :
  unpack rt input = (out, Err e) ->
  (parse_header rt input = Err e /\ out = []) \/
  (e = DecompressionError /\
   exists entries pre name offset sz post,
     parse_header rt input = Ok (true, entries) /\
     entries = pre ++ (name, offset, sz) :: post /\
     gzip_decompress rt (slice input offset (offset + sz)) = Err DecompressionError /\
     extract rt true input pre = (out, Ok tt) /\
     map fst out = map (fun en => fst (fst en)) pre).
Proof.
  unfold unpack. intros H.
  destruct (parse_header rt input) as [[c entries] | e'] eqn:Hp.
  - right.
    apply extract_err in H as (-> & -> & pre & name & offset & sz & post & -> & Hpre & Hz).
    split; [reflexivity |].
    exists (pre ++ (name, offset, sz) :: post), pre, name, offset, sz, post.
    repeat split; try assumption.
    exact (extract_names _ _ _ _ _ Hpre).
  - left. injection H as <- <-. auto.
Qed.

Lemma unpack_error_prefix_witness :
  (parse_header python_rt broken_archive = Err DecompressionError /\
   [(pystr "a", pybytes "hi")] = []) \/
  (DecompressionError = DecompressionError /\
   exists entries pre name offset sz post,
     parse_header python_rt broken_archive = Ok (true, entries) /\
     entries = pre ++ (name, offset, sz) :: post /\
     gzip_decompress python_rt (slice broken_archive offset (offset + sz))
       = Err DecompressionError /\
     extract python_rt true broken_archive pre
       = ([(pystr "a", pybytes "hi")], Ok tt) /\
     map fst [(pystr "a", pybytes "hi")] = map (fun en => fst (fst en)) pre).
Proof.
  apply (unpack_error_prefix python_rt broken_archive).
  vm_compute. reflexivity.
Defined.

(** C7, counterexample. The only entry of [truncated_archive] claims the
    bytes [26, 31) of a 29-byte buffer; [unpack] reports no error and
    writes the three bytes that exist. *)
Lemma truncated_entry_is_clamped :
  parse_header python_rt truncated_archive = Ok (false, [(pystr "a.txt", 26, 5)]) /\
  26 + 5 > len truncated_archive /\
  unpack python_rt truncated_archive = ([(pystr "a.txt", pybytes "hel")], Ok tt).
Proof. repeat split; vm_compute; reflexivity. Qed.

(** C7, as amended. Once the table is parsed no [OutOfBounds] error can
    arise: the payload range of an entry is cut to the bytes the buffer has.
    [unpack] of an uncompressed archive succeeds and writes, for every
    entry, the slice [input[offset : offset + size]] so clamped; in a
    compressed archive that slice goes to the gzip decoder. *)
Theorem unpack_slices_are_clamped rt input c entries :
  parse_header rt input = Ok (c, entries) ->
  snd (unpack rt input) <> Err OutOfBounds /\
  (c = false ->
   unpack rt input
   = (map (fun '(name, offset, sz) => (name, slice input offset (offset + sz))) entries,
      Ok tt)).
Proof.
  intros Hp. unfold unpack. rewrite Hp. split.
  - destruct (extract rt c input entries) as [out r] eqn:E. cbn [snd].
    destruct r as [[] | e]; [discriminate |].
    apply extract_err in E as (_ & -> & _). discriminate.
  - intros ->. apply extract_uncompressed.
Qed.

Lemma unpack_slices_are_clamped_witness :
  snd (unpack python_rt truncated_archive) <> Err OutOfBounds /\
  unpack python_rt truncated_archive
  = ([(pystr "a.txt", slice truncated_archive 26 (26 + 5))], Ok tt).
Proof.
  destruct (unpack_slices_are_clamped python_rt truncated_archive false
              [(pystr "a.txt", 26, 5)]) as [Hne Hout].
  - vm_compute. reflexivity.
  - split; [exact Hne | exact (Hout eq_refl)].
Defined.

(** ** The alignment field on the read path *)

(** C9, counterexample. The two archives [peek_archive 1] and
    [peek_archive 2] differ in the alignment bytes only, and [unpack]
    writes different contents for them, because their entry points at
    those very bytes. *)
Lemma alignment_bytes_can_be_payload :
  length (peek_archive 1) = length (peek_archive 2) /\
  firstn 8 (peek_archive 1) = firstn 8 (peek_archive 2) /\
  skipn 12 (peek_archive 1) = skipn 12 (peek_archive 2) /\
  unpack python_rt (peek_archive 1) <> unpack python_rt (peek_archive 2).
Proof.
  repeat split; try reflexivity.
  intros H. vm_compute in H. discriminate H.
Qed.

(** C9, as amended. For two buffers that differ only in the bytes 8..11,
    [unpack] parses the same table or fails with the same error, and it
    writes the same files whenever no entry takes any of those four
    bytes: every entry is empty, or ends at byte 8 or before, or starts at
    byte 12 or later. *)
Theorem alignment_field_not_interpreted rt (b1 b2 : bytes) :
  length b1 = length b2 ->
  firstn 8 b1 = firstn 8 b2 ->
  skipn 12 b1 = skipn 12 b2 ->
  parse_header rt b1 = parse_header rt b2 /\
  ((forall c entries, parse_header rt b1 = Ok (c, entries) ->
      Forall (fun en : str * Z * Z =>
                snd en = 0 \/ snd (fst en) + snd en <= 8 \/ 12 <= snd (fst en))
             entries) ->
   unpack rt b1 = unpack rt b2).
Proof.
  intros Hl H8 H12.
  pose proof (parse_header_alignment_bytes rt b1 b2 Hl H8 H12) as Hp.
  split; [exact Hp |].
  intros Hoff. unfold unpack. rewrite <- Hp.
  destruct (parse_header rt b1) as [[c entries] | e] eqn:Hparse; [| reflexivity].
  apply extract_agree; [assumption | assumption |].
  specialize (Hoff c entries eq_refl).
  pose proof (parse_header_nonneg rt b1 c entries Hparse) as Hnn.
  clear -Hoff Hnn.
  induction Hoff as [| en entries Hr _ IH]; [constructor |].
  inversion Hnn as [| ? ? [Ho _] Hnn']. subst.
  constructor; [split; assumption | exact (IH Hnn')].
Qed.

Lemma alignment_field_not_interpreted_witness :
  parse_header python_rt (low_archive 1) = parse_header python_rt (low_archive 2) /\
  unpack python_rt (low_archive 1) = unpack python_rt (low_archive 2).
Proof.
  destruct (alignment_field_not_interpreted python_rt (low_archive 1) (low_archive 2))
    as [Hp Hu]; try reflexivity.
  split; [exact Hp |].
  apply Hu. intros c entries H.
  vm_compute in H. injection H as <- <-.
  repeat constructor; cbn; lia.
Defined.

(** ** No check of the table on read *)

(** C10, counterexample. The magic and the table of [broken_archive] parse
    to two entries, yet a single file is written for it: the second
    payload is not a gzip stream. *)
Lemma unpack_stops_at_bad_stream :
  parse_header python_rt broken_archive
    = Ok (true, [(pystr "a", 40, 22); (pystr "b", 62, 1)]) /\
  length (fst (unpack python_rt broken_archive)) = 1%nat.
Proof. split; vm_compute; reflexivity. Qed.

(** C10, as amended. When the magic and the table parse, and, in a
    compressed archive, every stored slice is a gzip stream the decoder
    accepts, [unpack] writes exactly one file per entry, in table order,
    named as the entry and holding its slice (decompressed in a compressed
    archive). Nothing else about the entries is checked: offsets may go
    backwards, overlap, point into the header, and names may repeat. *)
Theorem unpack_emits_every_entry rt input c entries :
  parse_header rt input = Ok (c, entries) ->
  (c = true ->
   Forall (fun en => exists data,
     gzip_decompress rt (slice input (snd (fst en)) (snd (fst en) + snd en)) = Ok data)
     entries) ->
  exists out,
    unpack rt input = (out, Ok tt) /\
    Forall2 (fun en o =>
      fst o = fst (fst en) /\
      let stored := slice input (snd (fst en)) (snd (fst en) + snd en) in
      if c then gzip_decompress rt stored = Ok (snd o) else snd o = stored)
      entries out.
Proof.
  intros Hp Hgz. unfold unpack. rewrite Hp.
  apply extract_all. exact Hgz.
Qed.

Lemma unpack_emits_every_entry_witness :
  parse_header python_rt unruly_archive
    = Ok (true, [(pystr "a", 54, 22); (pystr "a", 54, 22); (pystr "b", 4, 0)]) /\
  exists out,
    unpack python_rt unruly_archive = (out, Ok tt) /\
    Forall2 (fun en o =>
      fst o = fst (fst en) /\
      let stored := slice unruly_archive (snd (fst en)) (snd (fst en) + snd en) in
      if true then gzip_decompress python_rt stored = Ok (snd o) else snd o = stored)
      [(pystr "a", 54, 22); (pystr "a", 54, 22); (pystr "b", 4, 0)] out.
Proof.
  assert (Hp : parse_header python_rt unruly_archive
    = Ok (true, [(pystr "a", 54, 22); (pystr "a", 54, 22); (pystr "b", 4, 0)])).
  { vm_compute. reflexivity. }
  split; [exact Hp |].
  apply (unpack_emits_every_entry python_rt unruly_archive true _ Hp).
  intros _.
  repeat constructor; eexists; vm_compute; reflexivity.
Defined.

(** * Further properties of the codec *)

(** ** The shape of any archive [repack] writes *)

Lemma laid_out_data_aligned rt c a hs d files rows tb db :
  laid_out rt c a hs d files rows tb db ->
  d mod a = 0 -> (d + len db) mod a = 0.
Proof.
  induction 1 as [d | d name data files nb payload k rows tb db Hnb Hp Hoff Hpl Hdl Hk Hm Hlo IH];
    intros Hd.
  - change (len (@nil byte)) with 0. rewrite Z.add_0_r. exact Hd.
  - rewrite !len_app, len_repeat.
    replace (d + (len payload + (Z.of_nat k + len db)))
      with (d + len payload + Z.of_nat k + len db) by lia.
    apply IH. exact Hm.
Qed.

Lemma laid_out_no_padding rt c hs d files rows tb db :
  laid_out rt c 1 hs d files rows tb db ->
  db = concat (map w_payload rows).
Proof.
  induction 1 as [d | d name data files nb payload k rows tb db Hnb Hp Hoff Hpl Hdl Hk Hm Hlo IH].
  - reflexivity.
  - assert (k = 0%nat) as -> by lia.
    cbn [map concat w_payload repeat app]. rewrite IH. reflexivity.
Qed.

(** Whatever the names, an archive is the header buffer, fewer than [a]
    zero bytes, and the data buffer. *)
Lemma repack_shape rt files c a archive :
  1 <= a ->
  repack rt files c a = Ok archive ->
  exists org hs st mb tb db (k : nat),
    repack_run rt files c a = Ok (org, hs, st) /\
    encode (default_encoding rt) (pystr (if c then "FArC" else "FArc")) = Some mb /\
    laid_out rt c a hs 0 files (table st) tb db /\
    br_buf (farc st) = mb ++ be32 (org - 8) ++ be32 a ++ tb /\
    br_buf (data_br st) = db /\
    archive = br_buf (farc st) ++ repeat x00 k ++ db /\
    0 <= Z.of_nat k < a /\
    (len (br_buf (farc st)) + Z.of_nat k) mod a = 0.
Proof.
  intros Ha H. unfold repack in H.
  bind_ok H as [[org hs] st].
  destruct (repack_run_spec _ _ _ _ _ _ _ Ha E)
    as (total & mb & rows & tb & db & Hsum & Horg & Hhs & Hob & Hab & Hmb & Hlo & Hf & Hd & Ht).
  destruct (finish_spec _ _ _ _ _ Ha Hf) as (k & Hfin & Hk & Hm).
  rewrite Hfin in H. injection H as <-.
  exists org, hs, st, mb, tb, db, k.
  rewrite Hf. cbn [appender br_buf]. rewrite Hd, Ht.
  repeat split; try assumption; lia.
Qed.

(** X1. The first four bytes of a repacked archive are the magic of its
    mode: [FArC] when compression was asked for, [FArc] otherwise. *)
Theorem repack_magic rt files c a archive :
  magic_ok rt = true ->
  1 <= a ->
  repack rt files c a = Ok archive ->
  firstn 4 archive = pybytes (if c then "FArC" else "FArc") /\
  (firstn 4 archive = pybytes "FArC" <-> c = true).
Proof.
  intros Hmagic Ha H.
  destruct (repack_shape _ _ _ _ _ Ha H)
    as (org & hs & st & mb & tb & db & k & _ & Hmb & _ & Hfb & _ & Harc & _).
  destruct (magic_ok_spec rt c Hmagic) as [Henc _]. cbn zeta in Henc.
  assert (mb = pybytes (if c then "FArC" else "FArc")) as -> by congruence.
  assert (H4 : firstn 4 archive = pybytes (if c then "FArC" else "FArc")).
  { rewrite Harc, Hfb, <- !app_assoc.
    replace 4%nat with (length (pybytes (if c then "FArC" else "FArc")))
      by (destruct c; reflexivity).
    apply firstn_length_app. }
  split; [exact H4 |].
  rewrite H4. destruct c; split; intros E; try reflexivity; discriminate E.
Qed.

Lemma repack_magic_witness :
  firstn 4 two_files_archive = pybytes "FArC" /\
  (firstn 4 two_files_archive = pybytes "FArC" <-> true = true).
Proof.
  apply (repack_magic python_rt two_files true 16).
  - reflexivity.
  - lia.
  - vm_compute. reflexivity.
Defined.

(** X2. The length of a repacked archive is a multiple of the alignment,
    whatever the names and contents: the header and every payload are
    padded to it. *)
Theorem repack_length_aligned rt files c a archive :
  1 <= a ->
  repack rt files c a = Ok archive ->
  len archive mod a = 0.
Proof.
  intros Ha H.
  destruct (repack_shape _ _ _ _ _ Ha H)
    as (org & hs & st & mb & tb & db & k & _ & _ & Hlo & _ & _ & Harc & Hk & Hm).
  pose proof (laid_out_data_aligned _ _ _ _ _ _ _ _ _ Hlo (Z.mod_0_l a ltac:(lia))) as Hd.
  rewrite Z.add_0_l in Hd.
  rewrite Harc, !len_app, len_repeat, Z.add_assoc.
  rewrite Z.add_mod, Hm, Hd by lia. apply Z.mod_0_l. lia.
Qed.

Lemma repack_length_aligned_witness : len two_files_archive mod 16 = 0.
Proof.
  apply (repack_length_aligned python_rt two_files true 16).
  - lia.
  - vm_compute. reflexivity.
Defined.

(** X3. With alignment 1 nothing is padded: the archive is the header
    buffer followed by the payloads of the rows, one after the other. *)
Theorem repack_unaligned_is_dense rt files c archive :
  repack rt files c 1 = Ok archive ->
  exists org_header_size header_size st,
    repack_run rt files c 1 = Ok (org_header_size, header_size, st) /\
    archive = buffer (farc st) ++ concat (map w_payload (table st)).
Proof.
  intros H.
  destruct (repack_shape rt files c 1 archive ltac:(lia) H)
    as (org & hs & st & mb & tb & db & k & Hrun & _ & Hlo & _ & _ & Harc & Hk & _).
  exists org, hs, st. split; [exact Hrun |].
  assert (k = 0%nat) as -> by lia.
  rewrite Harc. cbn [repeat app].
  rewrite (laid_out_no_padding _ _ _ _ _ _ _ _ Hlo). reflexivity.
Qed.

Lemma repack_unaligned_is_dense_witness :
  exists org_header_size header_size st,
    repack_run python_rt example_files false 1 = Ok (org_header_size, header_size, st) /\
    example_archive = buffer (farc st) ++ concat (map w_payload (table st)).
Proof.
  apply (repack_unaligned_is_dense python_rt example_files false).
  vm_compute. reflexivity.
Defined.

(** ** Edge cases and errors of [repack] *)

(** X4. Without any file [repack] writes a header-only archive: the magic,
    the header-size field 4, the alignment, and the zero bytes that pad
    those 12 bytes to the alignment (none for alignment 1). [unpack]
    finds no entry in it. *)
Theorem repack_no_files rt c a :
  magic_ok rt = true ->
  1 <= a < 2 ^ 32 ->
  exists k : nat,
    repack rt [] c a
      = Ok (pybytes (if c then "FArC" else "FArc") ++ be32 4 ++ be32 a ++ repeat x00 k) /\
    0 <= Z.of_nat k < a /\ (12 + Z.of_nat k) mod a = 0 /\
    unpack rt (pybytes (if c then "FArC" else "FArc") ++ be32 4 ++ be32 a ++ repeat x00 k)
      = ([], Ok tt).
Proof.
  intros Hmagic Ha.
  destruct (magic_ok_spec rt c Hmagic) as [Henc _]. cbn zeta in Henc.
  set (m := pybytes (if c then "FArC" else "FArc")) in *.
  assert (Hm4 : len m = 4) by (unfold m; destruct c; reflexivity).
  set (st := mkWriter (appender BIG (default_encoding rt) (m ++ be32 4 ++ be32 a))
               (mkBR [] 0 (default_endianness rt) (default_encoding rt)) []).
  assert (Hrun : repack_run rt [] c a
                 = Ok (12, (if 12 mod a =? 0 then 12 else 12 + (a - 12 mod a)), st)).
  { unfold repack_run. cbn [sum_costs bind].
    replace (a =? 0) with false by lia.
    change (0 + 0xC) with 12.
    assert (Hhd : (if 12 mod a =? 0 then Ok 12 else Ok (12 + (a - 12 mod a)))
                  = @Ok Z (if 12 mod a =? 0 then 12 else 12 + (a - 12 mod a)))
      by (destruct (12 mod a =? 0); reflexivity).
    rewrite Hhd. cbn [bind].
    change (mkBR [] 0 BIG (default_encoding rt))
      with (appender BIG (default_encoding rt) []).
    rewrite (write_str_encodes _ _ _ _ _ _ Henc). cbn [bind].
    rewrite write_uint32_fits by lia. cbn [bind].
    rewrite write_uint32_fits by lia. cbn [bind foldM].
    unfold st. do 3 f_equal. cbn [app]. rewrite app_nil_r, <- !app_assoc. reflexivity. }
  destruct (finish_spec BIG (default_encoding rt) a st (m ++ be32 4 ++ be32 a)
              ltac:(lia) eq_refl) as (k & Hfin & Hk & Hmod).
  cbn [st data_br br_buf] in Hfin. rewrite app_nil_r in Hfin.
  rewrite !len_app, !len_be32, Hm4 in Hmod.
  exists k. unfold repack. rewrite Hrun. cbn [bind].
  rewrite Hfin, <- !app_assoc.
  repeat split; try lia; try exact Hmod.
  unfold unpack.
  pose proof (parse_header_written rt c a 0 0 [] [] [] [] 12 a (repeat x00 k)
                Hmagic eq_refl (laid_nil rt c a 0 0)) as Hp.
  change (12 - 8) with 4 in Hp. fold m in Hp.
  rewrite app_nil_r, <- !app_assoc in Hp.
  rewrite Hp by (try reflexivity; lia). reflexivity.
Qed.

Lemma repack_no_files_witness :
  exists k : nat,
    repack python_rt [] false 1
      = Ok (pybytes "FArc" ++ be32 4 ++ be32 1 ++ repeat x00 k) /\
    0 <= Z.of_nat k < 1 /\ (12 + Z.of_nat k) mod 1 = 0 /\
    unpack python_rt (pybytes "FArc" ++ be32 4 ++ be32 1 ++ repeat x00 k)
      = ([], Ok tt).
Proof.
  apply (repack_no_files python_rt false 1).
  - reflexivity.
  - lia.
Defined.

Lemma sum_costs_err rt c files e :
  sum_costs rt c files = Err e -> e = UnicodeError.
Proof.
  revert e. induction files as [| [name data] files IH]; intros e H.
  - discriminate.
  - cbn [sum_costs] in H.
    destruct (encode (ENCODING rt) name) as [nb |]; cbn [of_option bind] in H.
    + destruct (sum_costs rt c files) as [s | e'] eqn:Es; cbn [bind] in H.
      * discriminate.
      * injection H as <-. apply IH. reflexivity.
    + congruence.
Qed.

Lemma sum_costs_unencodable rt c files name data :
  In (name, data) files ->
  encode (ENCODING rt) name = None ->
  sum_costs rt c files = Err UnicodeError.
Proof.
  intros Hin Hn.
  destruct (sum_costs rt c files) as [total | e] eqn:Es.
  - exfalso. revert total Es.
    induction files as [| [n d] files IH]; intros total Es; [destruct Hin |].
    cbn [sum_costs] in Es. destruct Hin as [[= -> ->] | Hin].
    + rewrite Hn in Es. discriminate.
    + destruct (encode (ENCODING rt) n); cbn [of_option bind] in Es; [| discriminate].
      destruct (sum_costs rt c files) as [s |]; cbn [bind] in Es; [| discriminate].
      eapply IH; [exact Hin | reflexivity].
  - f_equal. eapply sum_costs_err. exact Es.
Qed.

(** X5. A single name that [ENCODING] cannot encode makes [repack] fail
    with a Unicode error, whatever the other files, the compression flag
    and the alignment: the header size is summed over all names before
    anything is written. *)
Theorem repack_unencodable_name rt files c a name data :
  In (name, data) files ->
  encode (ENCODING rt) name = None ->
  repack rt files c a = Err UnicodeError.
Proof.
  intros Hin Hn. unfold repack, repack_run.
  rewrite (sum_costs_unencodable rt c files name data Hin Hn). reflexivity.
Qed.

Lemma repack_unencodable_name_witness :
  repack python_rt [(pystr "a.txt", pybytes "hello"); ([0x1F600], pybytes "x")] true 0
  = Err UnicodeError.
Proof.
  apply (repack_unencodable_name python_rt _ true 0 [0x1F600] (pybytes "x")).
  - right. left. reflexivity.
  - reflexivity.
Defined.

Lemma write_str_err s null br e :
  write_str s null br = Err e -> e = UnicodeError.
Proof.
  unfold write_str. destruct (encode (br_encoding br) s); cbn; congruence.
Qed.

Lemma write_uint32_err v br e :
  write_uint32 v br = Err e -> e = StructError.
Proof.
  unfold write_uint32, pack_uint32.
  destruct ((0 <=? v) && (v <? 2 ^ 32)); cbn; congruence.
Qed.

Lemma write_gzip_name_err rt name data e :
  (10 <= length data)%nat ->
  write_gzip_name rt name data = Err e -> e = UnicodeError.
Proof.
  intros Hl H.
  destruct (encode (default_encoding rt) name) as [nb |] eqn:Hnb.
  - rewrite (write_gzip_name_cases rt name data nb Hl Hnb) in H. discriminate.
  - do 10 (destruct data as [| ? data]; [cbn in Hl; lia |]).
    unfold write_gzip_name in H.
    rewrite (seek_begin 3) in H by (cbn; lia).
    cbn [bind] in H. unfold read_uint8, read_bytes in H. cbn in H.
    rewrite (seek_begin 3) in H by (cbn; lia).
    cbn [bind] in H. unfold write_uint8 in H. rewrite pack_uint8_lor in H.
    cbn [bind] in H.
    rewrite write_bytes_inside in H by (cbn; lia).
    cbn [with_idx br_idx br_buf br_endian br_encoding length Nat.add firstn skipn app] in H.
    rewrite (seek_begin 9) in H by (cbn; lia).
    cbn [bind pack_uint8 Z.leb Z.ltb Z.compare andb Pos.compare Pos.compare_cont] in H.
    rewrite write_bytes_inside in H by (cbn; lia).
    cbn [with_idx br_idx br_buf br_endian br_encoding length Nat.add firstn skipn app] in H.
    unfold write_str in H.
    cbn [br_encoding br_buf br_idx br_endian] in H. rewrite Hnb in H.
    cbn [of_option bind] in H. congruence.
Qed.

Lemma add_file_err rt c a hs st f e :
  1 <= a ->
  add_file rt c a hs st f = Err e -> e = UnicodeError \/ e = StructError.
Proof.
  intros Ha H. destruct f as [name data]. unfold add_file in H.
  destruct (write_str name true (farc st)) as [f1 | e1] eqn:E1; cbn [bind] in H.
  2:{ injection H as <-. left. eapply write_str_err. exact E1. }
  destruct (write_uint32 _ f1) as [f2 | e2] eqn:E2; cbn [bind] in H.
  2:{ injection H as <-. right. eapply write_uint32_err. exact E2. }
  assert (Hal : forall p, exists dbr, align a (extend p (data_br st)) = Ok dbr)
    by (intros p; apply align_total; exact Ha).
  destruct c.
  - destruct (write_gzip_name rt name (gzip_compress rt data)) as [p | e3] eqn:E3;
      cbn [bind] in H.
    2:{ injection H as <-. left.
        eapply (write_gzip_name_err rt name (gzip_compress rt data)); [cbn; lia | exact E3]. }
    destruct (write_uint32 (len p) f2) as [f3 | e4] eqn:E4; cbn [bind] in H.
    2:{ injection H as <-. right. eapply write_uint32_err. exact E4. }
    destruct (Hal p) as [dbr Hd]. rewrite Hd in H. cbn [bind] in H.
    destruct (write_uint32 (len data) f3) as [f4 | e5] eqn:E5; cbn [bind] in H.
    + discriminate.
    + injection H as <-. right. eapply write_uint32_err. exact E5.
  - cbn [bind] in H.
    destruct (Hal data) as [dbr Hd]. rewrite Hd in H. cbn [bind] in H.
    destruct (write_uint32 (len data) f2) as [f4 | e5] eqn:E5; cbn [bind] in H.
    + discriminate.
    + injection H as <-. right. eapply write_uint32_err. exact E5.
Qed.

Lemma foldM_add_file_err rt c a hs files : forall st e,
  1 <= a ->
  foldM (add_file rt c a hs) st files = Err e -> e = UnicodeError \/ e = StructError.
Proof.
  induction files as [| f files IH]; intros st e Ha H.
  - discriminate.
  - cbn [foldM] in H.
    destruct (add_file rt c a hs st f) as [st1 | e1] eqn:E1; cbn [bind] in H.
    + eapply IH; eassumption.
    + injection H as <-. eapply add_file_err; eassumption.
Qed.

Lemma repack_run_err rt files c a e :
  1 <= a ->
  repack_run rt files c a = Err e ->
  e = UnicodeError \/ e = StructError.
Proof.
  intros Ha Erun. unfold repack_run in Erun.
  destruct (sum_costs rt c files) as [total | e0] eqn:Es; cbn [bind] in Erun.
  2:{ injection Erun as <-. left. eapply sum_costs_err. exact Es. }
  replace (a =? 0) with false in Erun by lia.
  destruct (if _ mod a =? 0 then _ else _) as [hs | e0] eqn:Eh;
    [| destruct (_ mod a =? 0); discriminate].
  cbn [bind] in Erun.
  destruct (write_str _ false _) as [f1 | e0] eqn:E1; cbn [bind] in Erun.
  2:{ injection Erun as <-. left. eapply write_str_err. exact E1. }
  destruct (write_uint32 _ f1) as [f2 | e0] eqn:E2; cbn [bind] in Erun.
  2:{ injection Erun as <-. right. eapply write_uint32_err. exact E2. }
  destruct (write_uint32 a f2) as [f3 | e0] eqn:E3; cbn [bind] in Erun.
  2:{ injection Erun as <-. right. eapply write_uint32_err. exact E3. }
  destruct (foldM _ _ files) as [st | e0] eqn:E4; cbn [bind] in Erun.
  - discriminate.
  - injection Erun as <-. eapply foldM_add_file_err; eassumption.
Qed.

Lemma finish_after_run rt files c a org hs st :
  1 <= a ->
  repack_run rt files c a = Ok (org, hs, st) ->
  exists archive, finish a st = Ok archive.
Proof.
  intros Ha Erun.
  destruct (repack_run_spec _ _ _ _ _ _ _ Ha Erun)
    as (total & mb & rows & tb & db & _ & _ & _ & _ & _ & _ & _ & Hf & _).
  destruct (finish_spec _ _ _ _ _ Ha Hf) as (k & Hfin & _).
  eexists. exact Hfin.
Qed.

(** X6. With an alignment of 1 or more, [repack] can fail in two ways
    only: a name that a codec cannot encode, or a number that does not fit
    an unsigned 32-bit field. In particular it never divides by zero and
    never reads outside a buffer. *)
Theorem repack_errors rt files c a e :
  1 <= a ->
  repack rt files c a = Err e ->
  e = UnicodeError \/ e = StructError.
Proof.
  intros Ha H. unfold repack in H.
  destruct (repack_run rt files c a) as [[[org hs] st] | e1] eqn:Erun; cbn [bind] in H.
  - exfalso.
    destruct (finish_after_run rt files c a org hs st Ha Erun) as [archive Hfin].
    rewrite Hfin in H. discriminate.
  - injection H as <-. exact (repack_run_err rt files c a e1 Ha Erun).
Qed.

Lemma repack_errors_witness :
  StructError = UnicodeError \/ StructError = StructError.
Proof.
  apply (repack_errors python_rt example_files false (2 ^ 32)).
  - lia.
  - vm_compute. reflexivity.
Defined.

(** ** More on the gzip name injector *)

Lemma byte_val_lor8 (b : byte) :
  byte_val (byte_of (Z.lor (byte_val b) 8)) = Z.lor (byte_val b) 8.
Proof. destruct b; reflexivity. Qed.

(** X7. An injected name that fits is transparent to a gzip decoder:
    for a stream whose flags announce neither an extra field nor a name
    and which holds, after its ten header bytes, at least as many bytes as
    the name with its null byte, and for a name encoded without a null
    byte, decoding the output of [write_gzip_name] gives what decoding the
    input gives. *)
Theorem write_gzip_name_transparent rt name data nb :
  (10 + (length nb + 1) <= length data)%nat ->
  encode (default_encoding rt) name = Some nb ->
  no_null nb = true ->
  Z.testbit (byte_val (nth 3 data x00)) 2 = false ->
  Z.testbit (byte_val (nth 3 data x00)) 3 = false ->
  exists injected,
    write_gzip_name rt name data = Ok injected /\
    gzip_decompress rt injected = gzip_decompress rt data.
Proof.
  intros Hl Hnb Hn H2 H3.
  eexists. split; [apply write_gzip_name_spec; eassumption |].
  do 10 (destruct data as [| ? data]; [cbn in Hl; lia |]).
  cbn [nth] in H2, H3.
  cbn [firstn skipn nth app]. unfold gzip_decompress.
  destruct (Byte.eqb b x1f && Byte.eqb b0 x8b && Byte.eqb b1 x08); [| reflexivity].
  rewrite byte_val_lor8.
  rewrite !Z.lor_spec, H2, H3.
  change (Z.testbit 8 2) with false. change (Z.testbit 8 3) with true.
  change (Z.testbit 8 4) with false. change (Z.testbit 8 1) with false.
  rewrite !orb_false_r. cbn [orb bind].
  rewrite after_null_app by assumption. reflexivity.
Qed.

Lemma write_gzip_name_transparent_witness :
  exists injected,
    write_gzip_name python_rt (pystr "a.txt") (gzip_compress python_rt (pybytes "hello"))
      = Ok injected /\
    gzip_decompress python_rt injected
      = gzip_decompress python_rt (gzip_compress python_rt (pybytes "hello")).
Proof.
  apply (write_gzip_name_transparent python_rt (pystr "a.txt") _ (pybytes "a.txt"));
    try reflexivity.
  cbn. lia.
Defined.

Lemma seek_beyond off br :
  size br < off -> seek off BEGIN br = Err OutOfBounds.
Proof.
  intros H. unfold seek.
  replace (off <=? size br) with false by lia.
  rewrite andb_false_r. reflexivity.
Qed.

(** X8. A stream shorter than 9 bytes is refused before the name is
    looked at: the seeks to the flags and to the OS byte, or the read of
    the flags, fall outside the buffer. *)
Theorem write_gzip_name_short rt name data :
  (length data < 9)%nat ->
  write_gzip_name rt name data = Err OutOfBounds.
Proof.
  intros Hl.
  assert (Hgo : forall b0 b1 b2 b3 rest,
    (length rest < 5)%nat ->
    write_gzip_name rt name (b0 :: b1 :: b2 :: b3 :: rest) = Err OutOfBounds).
  { intros b0 b1 b2 b3 rest Hr. unfold write_gzip_name.
    rewrite (seek_begin 3) by (cbn; lia).
    cbn [bind]. unfold read_uint8, read_bytes. cbn.
    rewrite (seek_begin 3) by (cbn; lia).
    cbn [bind]. unfold write_uint8. rewrite pack_uint8_lor. cbn [bind].
    rewrite write_bytes_inside by (cbn; lia).
    rewrite seek_beyond; [reflexivity |].
    unfold size, len, with_idx.
    cbn [br_buf br_idx firstn skipn app length Nat.add]. lia. }
  do 4 (destruct data as [| ? data]; [reflexivity |]).
  apply Hgo. cbn in Hl. lia.
Qed.

Lemma write_gzip_name_short_witness :
  write_gzip_name python_rt (pystr "a.txt") [x1f; x8b; x08; x00] = Err OutOfBounds.
Proof.
  apply (write_gzip_name_short python_rt). cbn. lia.
Defined.

(** X23. A name that does not fit is left out. When the stream goes on
    after its ten header bytes, but for fewer bytes than the name with its
    null byte takes, the write of the name runs past the end of the
    buffer: the cursor stays where it was, and [write_gzip_name] returns
    the patched header followed by the rest of the stream. FNAME is set in
    the flags all the same, so that a decoder takes the start of the
    compressed data for the name. *)
Theorem write_gzip_name_drops_long_name rt name data nb :
  (10 < length data)%nat ->
  (length data < 10 + (length nb + 1))%nat ->
  encode (default_encoding rt) name = Some nb ->
  write_gzip_name rt name data =
    Ok (firstn 3 data ++ [byte_of (Z.lor (byte_val (nth 3 data x00)) 8)]
          ++ firstn 5 (skipn 4 data) ++ [x03] ++ skipn 10 data).
Proof.
  intros Hl Hfit Hnb.
  rewrite (write_gzip_name_cases rt name data nb) by (lia || exact Hnb).
  replace (length data =? 10)%nat with false
    by (symmetry; apply Nat.eqb_neq; lia).
  replace (10 + (length nb + 1) <=? length data)%nat with false
    by (symmetry; apply Nat.leb_gt; lia).
  reflexivity.
Qed.

Lemma write_gzip_name_drops_long_name_witness :
  write_gzip_name python_rt (pystr "longfilename.bin")
    (gzip_compress python_rt (pybytes "hi"))
  = Ok ([x1f; x8b; x08; x08; x00; x00; x00; x00; x02; x03]
          ++ [xcb; xc8; x04; x00; xac; x2a; x93; xd8; x02; x00; x00; x00]).
Proof.
  apply (write_gzip_name_drops_long_name python_rt (pystr "longfilename.bin")
           (gzip_compress python_rt (pybytes "hi")) (pybytes "longfilename.bin")).
  - cbn. lia.
  - cbn. lia.
  - reflexivity.
Defined.

(** The file that pays for it: [repack] with compression completes on a
    16-letter name holding two bytes, and [unpack] of the archive fails on
    its only entry. *)
Example long_name_is_lost :
  exists archive,
    repack python_rt [(pystr "longfilename.bin", pybytes "hi")] true 1 = Ok archive /\
    unpack python_rt archive = ([], Err DecompressionError).
Proof. eexists. split; vm_compute; reflexivity. Qed.

(** ** More on the table parser *)

Lemma read_bytes_ok k b i e enc v br' :
  read_bytes k (mkBR b i e enc) = Ok (v, br') -> (i + k <= length b)%nat.
Proof.
  unfold read_bytes. cbn [br_idx br_buf].
  destruct (i + k <=? length b)%nat eqn:E; [| discriminate].
  intros _. apply Nat.leb_le. exact E.
Qed.

Lemma read_entries_count buf c H e enc : forall fuel i acc entries,
  read_entries fuel c H (mkBR buf i e enc) acc = Ok entries ->
  exists n : nat,
    length entries = (length acc + n)%nat /\
    (n = 0%nat \/ (i + n * (if c then 13 else 9) <= length buf)%nat).
Proof.
  induction fuel as [| fuel IH]; intros i acc entries Hr;
    rewrite read_entries_eq in Hr; unfold pos in Hr; cbn [br_idx] in Hr.
  - destruct (Z.of_nat i <? H); [discriminate |].
    injection Hr as <-. exists 0%nat. split; [lia | auto].
  - destruct (Z.of_nat i <? H).
    2:{ injection Hr as <-. exists 0%nat. split; [lia | auto]. }
    unfold read_str in Hr. cbn [br_idx br_buf br_encoding] in Hr.
    destruct (scan_null (skipn i buf)) as [span |] eqn:Es.
    2:{ destruct (decode enc (skipn i buf)) as [s |]; [| discriminate].
        cbn [of_option bind] in Hr. unfold read_uint32_2, with_idx in Hr.
        cbn [br_buf br_endian br_encoding] in Hr.
        rewrite read_bytes_past_end in Hr by (rewrite ?length_skipn; lia).
        discriminate. }
    cbn [of_option bind] in Hr.
    destruct (decode enc span) as [s |]; [| discriminate].
    cbn [of_option bind] in Hr. unfold read_uint32_2, with_idx in Hr.
    cbn [br_buf br_endian br_encoding] in Hr.
    destruct (read_bytes 8 (mkBR buf (i + length span + 1) e enc)) as [[v br'] |] eqn:E8;
      [| discriminate].
    pose proof (read_bytes_ok _ _ _ _ _ _ _ E8) as H8.
    apply read_bytes_idx in E8 as ->.
    cbn [bind br_endian] in Hr.
    destruct c.
    + unfold read_uint32 in Hr.
      destruct (read_bytes 4 (mkBR buf (i + length span + 1 + 8) e enc)) as [[v4 br'] |] eqn:E4;
        [| discriminate].
      pose proof (read_bytes_ok _ _ _ _ _ _ _ E4) as H4.
      apply read_bytes_idx in E4 as ->.
      cbn [bind br_endian] in Hr.
      destruct (IH _ _ _ Hr) as (n & Hn & Hb).
      rewrite length_app in Hn. cbn [length] in Hn.
      exists (S n). split; [lia |]. right. destruct Hb as [-> | Hb]; lia.
    + destruct (IH _ _ _ Hr) as (n & Hn & Hb).
      rewrite length_app in Hn. cbn [length] in Hn.
      exists (S n). split; [lia |]. right. destruct Hb as [-> | Hb]; lia.
Qed.

(** X9. A parsed table is paid for in bytes: after the 12 bytes of magic,
    header size and alignment, every entry takes at least 9 bytes of the
    input, 13 in a compressed archive. [unpack] therefore never writes
    more than a ninth of the input length in files. *)
Theorem parse_header_entries_bound rt input c entries :
  parse_header rt input = Ok (c, entries) ->
  (12 + length entries * (if c then 13 else 9) <= length input)%nat.
Proof.
  unfold parse_header, parse_header_fuel, read_str_n, read_uint32, read_bytes.
  cbn [br_idx br_buf br_encoding br_endian with_idx Nat.add skipn].
  destruct (4 <=? length input)%nat; [| discriminate].
  cbn [bind br_encoding].
  destruct (decode (ENCODING rt) (cut_null (firstn 4 input))) as [magic |];
    [| discriminate].
  cbn [of_option bind]. destruct (negb _); [discriminate |].
  cbn [br_idx br_buf br_encoding br_endian with_idx Nat.add].
  destruct (8 <=? length input)%nat; [| discriminate].
  cbn [bind br_idx br_buf br_encoding br_endian with_idx Nat.add].
  destruct (12 <=? length input)%nat eqn:E12; [| discriminate].
  apply Nat.leb_le in E12.
  cbn [bind br_idx br_buf br_encoding br_endian with_idx Nat.add].
  unfold with_idx. cbn [br_buf br_endian br_encoding].
  destruct (read_entries _ _ _ _ []) as [es |] eqn:Er; [| discriminate].
  cbn [bind]. intros [= <- <-].
  destruct (read_entries_count _ _ _ _ _ _ _ _ _ Er) as (n & Hn & Hb).
  cbn [length] in Hn. rewrite Hn. destruct Hb as [-> | Hb]; lia.
Qed.

Lemma parse_header_entries_bound_witness :
  (12 + length [(pystr "a", 54%Z, 22%Z); (pystr "a", 54%Z, 22%Z); (pystr "b", 4%Z, 0%Z)] * 13
   <= length unruly_archive)%nat.
Proof.
  apply (parse_header_entries_bound python_rt unruly_archive true).
  vm_compute. reflexivity.
Defined.

Lemma read_entries_err c H : forall fuel br acc e,
  read_entries fuel c H br acc = Err e ->
  e = OutOfBounds \/ e = UnicodeError.
Proof.
  induction fuel as [| fuel IH]; intros br acc e Hr;
    rewrite read_entries_eq in Hr.
  - destruct (pos br <? H); [| discriminate]. injection Hr as <-. auto.
  - destruct (pos br <? H); [| discriminate].
    unfold read_str in Hr.
    assert (Hgo : forall s br1,
      ('(name, farc) <- Ok (s, br1) ;;
       '(offset, sz, farc) <- read_uint32_2 farc ;;
       let entries := acc ++ [(name, offset, sz)] in
       if c then
         '(_, farc) <- read_uint32 farc ;;
         read_entries fuel c H farc entries
       else read_entries fuel c H farc entries) = Err e ->
      e = OutOfBounds \/ e = UnicodeError).
    { clear Hr. intros s br1 Hr. cbn [bind] in Hr.
      unfold read_uint32_2, read_bytes in Hr.
      destruct (_ <=? _)%nat; cbn [bind] in Hr; [| injection Hr as <-; auto].
      destruct c.
      + unfold read_uint32, read_bytes in Hr.
        destruct (_ <=? _)%nat; cbn [bind] in Hr; [| injection Hr as <-; auto].
        eapply IH. exact Hr.
      + eapply IH. exact Hr. }
    destruct (scan_null _) as [span |].
    + destruct (decode _ span) as [s |]; cbn [of_option bind] in Hr;
        [| injection Hr as <-; auto].
      eapply Hgo. exact Hr.
    + destruct (decode _ _) as [s |]; cbn [of_option bind] in Hr;
        [| injection Hr as <-; auto].
      eapply Hgo. exact Hr.
Qed.


(** X11. When the header-size field holds 4 or less, the table is empty
    whatever follows the 12 bytes of magic, header size and alignment:
    [unpack] succeeds and writes no file. The magic is read as
    [read_str(4)] reads it, cut at a null byte. *)
Theorem unpack_empty_table rt input (c : bool) :
  (12 <= length input)%nat ->
  decode (ENCODING rt) (cut_null (firstn 4 input))
    = Some (pystr (if c then "FArC" else "FArc")) ->
  unpack_uint32 BIG (slice input 4 8) <= 4 ->
  unpack rt input = ([], Ok tt).
Proof.
  intros Hl Hd Hf.
  unfold unpack, parse_header, parse_header_fuel, read_str_n, read_uint32, read_bytes.
  cbn [br_idx br_buf br_encoding br_endian with_idx Nat.add skipn].
  replace (4 <=? length input)%nat with true by (symmetry; apply Nat.leb_le; lia).
  cbn [bind br_encoding]. rewrite Hd. cbn [of_option bind].
  assert (Hs : str_eqb (pystr (if c then "FArC" else "FArc")) (pystr "FArc")
               || str_eqb (pystr (if c then "FArC" else "FArc")) (pystr "FArC") = true)
    by (destruct c; reflexivity).
  rewrite Hs. cbn [negb br_idx br_buf br_encoding br_endian with_idx Nat.add].
  replace (8 <=? length input)%nat with true by (symmetry; apply Nat.leb_le; lia).
  cbn [bind br_idx br_buf br_encoding br_endian with_idx Nat.add].
  replace (12 <=? length input)%nat with true by (symmetry; apply Nat.leb_le; lia).
  cbn [bind]. rewrite read_entries_eq. unfold pos, with_idx. cbn [br_idx].
  change (slice input 4 8) with (firstn 4 (skipn 4 input)) in Hf.
  assert (Hlt : (Z.of_nat 12 <? unpack_uint32 BIG (firstn 4 (skipn 4 input)) + 8) = false).
  { apply Z.ltb_ge. change (Z.of_nat 12) with 12. lia. }
  rewrite Hlt. reflexivity.
Qed.

Lemma unpack_empty_table_witness :
  unpack python_rt spec_example_archive = ([], Ok tt).
Proof.
  apply (unpack_empty_table python_rt spec_example_archive false).
  - cbn. lia.
  - reflexivity.
  - vm_compute. discriminate.
Defined.

Lemma laid_out_extract_post rt c a hs d files rows tb db :
  laid_out rt c a hs d files rows tb db ->
  names_ok rt files = true ->
  (c = true -> members_ok rt files = true) ->
  forall pre post, len pre = hs + d ->
    extract rt c (pre ++ db ++ post) (map entry_of rows) = (files, Ok tt).
Proof.
  induction 1 as [d | d name data files nb payload k rows tb db Hnb Hp Hoff Hpl Hdl Hk Hm Hlo IH];
    intros Hok Hgz pre post Hpre.
  - reflexivity.
  - apply names_ok_cons in Hok as [Hn Hok].
    apply name_ok_spec in Hn as (nb' & He & Hd & Hnn & Hdec).
    assert (nb' = nb) as -> by congruence.
    cbn [map entry_of w_name w_offset w_size extract].
    rewrite <- !app_assoc.
    rewrite slice_at by lia.
    assert (Hgz' : c = true -> members_ok rt files = true).
    { intros Hc. apply Hgz in Hc. apply members_ok_cons in Hc. tauto. }
    specialize (IH Hok Hgz' (pre ++ payload ++ repeat x00 k) post).
    rewrite <- !app_assoc in IH.
    rewrite IH by (rewrite !len_app, len_repeat; lia).
    destruct c.
    + specialize (Hgz eq_refl). apply members_ok_cons in Hgz as [Hmem _].
      apply member_ok_spec in Hmem as (nb2 & Hnb2 & Hfit & Hinf).
      assert (nb2 = nb) as -> by congruence.
      destruct (gzip_injected_roundtrip rt name data nb Hnb Hnn Hfit Hinf)
        as (payload' & Hw & Hz).
      assert (payload' = payload) as -> by congruence.
      rewrite Hz. reflexivity.
    + subst payload. reflexivity.
Qed.

(** X12. Bytes that follow a repacked archive change nothing: [unpack]
    returns the files of the archive, for names fit for it (and, with
    compression, no longer than the DEFLATE member of their file, which
    the decoder inverts), whatever is appended to the archive. *)
Theorem unpack_ignores_trailing_bytes rt files c a archive junk :
  magic_ok rt = true ->
  names_ok rt files = true ->
  (c = true -> members_ok rt files = true) ->
  1 <= a ->
  repack rt files c a = Ok archive ->
  unpack rt (archive ++ junk) = (files, Ok tt).
Proof.
  intros Hmagic Hok Hgz Ha H.
  destruct (repack_archive_shape _ _ _ _ _ Hmagic Hok Ha H)
    as (org & hs & st & tb & db & k & Hrun & Hlo & Hfb & Hdb & Harc & Hlen & Hk & Hkr & Hhs & Hob & Hab).
  unfold unpack.
  assert (Hparse : parse_header rt (archive ++ junk) = Ok (c, map entry_of (table st))).
  { rewrite Harc, Hfb, <- !app_assoc.
    pose proof (parse_header_written rt c a hs 0 files (table st) tb db org a
                  (repeat x00 k ++ db ++ junk) Hmagic Hok Hlo Hob Hab) as Hp.
    rewrite <- !app_assoc in Hp. apply Hp.
    rewrite Hfb in Hlen. rewrite !len_app, !len_be32 in Hlen.
    replace (len (pybytes (if c then "FArC" else "FArc"))) with 4 in Hlen
      by (destruct c; reflexivity).
    lia. }
  rewrite Hparse, Harc.
  replace ((br_buf (farc st) ++ repeat x00 k ++ db) ++ junk)
    with ((br_buf (farc st) ++ repeat x00 k) ++ db ++ junk)
    by (rewrite <- !app_assoc; reflexivity).
  apply (laid_out_extract_post rt c a hs 0 files (table st) tb db Hlo Hok Hgz).
  rewrite len_app, len_repeat. lia.
Qed.

Lemma unpack_ignores_trailing_bytes_witness :
  unpack python_rt (two_files_archive ++ pybytes "trailing") = (two_files, Ok tt).
Proof.
  apply (unpack_ignores_trailing_bytes python_rt two_files true 16).
  - reflexivity.
  - reflexivity.
  - intros _. reflexivity.
  - lia.
  - vm_compute. reflexivity.
Defined.

(** * The command line *)

(** ** Where [main] unpacks and repacks to *)

Lemma contains_cons ch x s :
  contains ch (x :: s) = (x =? ch) || contains ch s.
Proof. unfold contains. cbn [existsb]. rewrite Z.eqb_sym. reflexivity. Qed.

Lemma rfind_from_absent ch s : forall i last,
  contains ch s = false -> rfind_from ch s i last = last.
Proof.
  induction s as [| x s IH]; intros i last H.
  - reflexivity.
  - rewrite contains_cons in H. apply orb_false_elim in H as [Hx Hs].
    cbn [rfind_from]. rewrite Hx. apply IH. exact Hs.
Qed.

Lemma rfind_from_app ch s1 s2 : forall i last,
  rfind_from ch (s1 ++ s2) i last
  = rfind_from ch s2 (i + len s1) (rfind_from ch s1 i last).
Proof.
  induction s1 as [| x s1 IH]; intros i last; cbn [app rfind_from].
  - change (len (@nil Z)) with 0. rewrite Z.add_0_r. reflexivity.
  - rewrite IH. f_equal. unfold len. cbn [length]. lia.
Qed.

Lemma rfind_from_range ch s : forall i last,
  contains ch s = true ->
  i <= rfind_from ch s i last < i + len s.
Proof.
  induction s as [| x s IH]; intros i last H.
  - discriminate.
  - rewrite contains_cons in H.
    cbn [rfind_from]. unfold len. cbn [length].
    destruct (contains ch s) eqn:Hs.
    + specialize (IH (i + 1) (if x =? ch then i else last) eq_refl).
      unfold len in IH. lia.
    + rewrite rfind_from_absent by exact Hs.
      rewrite orb_false_r in H. rewrite H. lia.
Qed.

Lemma contains_app ch s1 s2 :
  contains ch (s1 ++ s2) = contains ch s1 || contains ch s2.
Proof. unfold contains. apply existsb_app. Qed.

(** The target is the path cut at its last dot. *)
Lemma unpack_target_cut (stem ext : str) :
  contains 46 ext = false ->
  unpack_target (stem ++ [46] ++ ext) = stem.
Proof.
  intros He. unfold unpack_target.
  rewrite !contains_app, contains_cons. change (46 =? 46) with true.
  cbn [orb]. rewrite orb_true_r.
  unfold rfind. rewrite rfind_from_app. cbn [app rfind_from].
  rewrite rfind_from_absent by exact He.
  change (46 =? 46) with true. cbn iota.
  rewrite Z.add_0_l. unfold len. rewrite Nat2Z.id.
  apply firstn_length_app.
Qed.

(** X13. The two modes of [main] undo each other's naming: the folder
    [path] is repacked to [path.farc], and that archive is unpacked to
    [path] again, whatever dots [path] itself holds. *)
Theorem unpack_target_of_repack_target (path : str) :
  unpack_target (repack_target path) = path.
Proof.
  unfold repack_target. apply (unpack_target_cut path (pystr "farc")). reflexivity.
Qed.

(** X14. An archive is unpacked to its path cut at the last dot, wherever
    that dot stands: for a name that starts with its only dot the target is
    the folder the archive lies in, written with its trailing separator. *)
Theorem unpack_target_of_dotfile (folder sep name : str) :
  contains 46 name = false ->
  unpack_target (folder ++ sep ++ [46] ++ name) = folder ++ sep.
Proof.
  intros Hn. rewrite app_assoc. apply unpack_target_cut. exact Hn.
Qed.

Lemma unpack_target_of_dotfile_witness :
  unpack_target (pystr "mods/.farc") = pystr "mods/".
Proof.
  apply (unpack_target_of_dotfile (pystr "mods") (pystr "/") (pystr "farc")).
  reflexivity.
Defined.

(** X15. Neither target is the path given: an archive is never unpacked
    onto its own path and a folder never repacked onto its own, so the
    path that [remove_path] is asked to clear differs from the argument. *)
Theorem targets_differ_from_path (path : str) :
  unpack_target path <> path /\ repack_target path <> path.
Proof.
  split; intros H; apply (f_equal (@length Z)) in H.
  - unfold unpack_target in H.
    destruct (contains 46 path) eqn:Hc.
    + pose proof (rfind_from_range 46 path 0 (-1) Hc) as Hr. fold (rfind 46 path) in Hr.
      rewrite length_firstn in H. unfold len in Hr. lia.
    + rewrite length_app in H. cbn in H. lia.
  - unfold repack_target in H. rewrite length_app in H. cbn in H. lia.
Qed.

(** ** Clearing the output path *)

Lemma lower_is_y (s : str) :
  str_eqb (lower s) (pystr "y") = true <-> s = pystr "y" \/ s = pystr "Y".
Proof.
  rewrite str_eqb_eq. split.
  - destruct s as [| ch [| ch' s]]; cbn; try discriminate.
    unfold ascii_lower. intros [= H].
    destruct ((65 <=? ch) && (ch <=? 90)).
    + right. f_equal. lia.
    + left. f_equal. exact H.
  - intros [-> | ->]; reflexivity.
Qed.

(** X16. When the output path exists and the overwrite is not forced, any
    answer other than a single [y] or [Y] cancels the command: [unpack]
    and [repack] alike prompt, print their two messages and return,
    without removing, creating, reading or writing anything. *)
Theorem declined_commands_touch_nothing rt w out_path :
  os_exists w out_path = true ->
  os_input w <> pystr "y" ->
  os_input w <> pystr "Y" ->
  let trace := [EvInput (pystr "Output path exists. Overwrite? (Y/N) ");
                EvPrint (pystr "User cancelled."); EvPrint (pystr "Aborting.")] in
  (forall in_path,
     unpack_io rt w in_path out_path false = (trace, Returned tt)) /\
  (forall in_path c a,
     repack_io rt w in_path out_path false c a = (trace, Returned tt)).
Proof.
  intros He Hy HY.
  assert (Hl : str_eqb (lower (os_input w)) (pystr "y") = false).
  { destruct (str_eqb (lower (os_input w)) (pystr "y")) eqn:E; [| reflexivity].
    apply lower_is_y in E. tauto. }
  split; intros; unfold unpack_io, repack_io, prepare_output, remove_path;
    rewrite He; cbn [negb]; rewrite Hl; reflexivity.
Qed.

Lemma declined_commands_touch_nothing_witness :
  let trace := [EvInput (pystr "Output path exists. Overwrite? (Y/N) ");
                EvPrint (pystr "User cancelled."); EvPrint (pystr "Aborting.")] in
  (forall in_path,
     unpack_io python_rt (demo_os (pystr "yes")) in_path (pystr "dir") false
     = (trace, Returned tt)) /\
  (forall in_path c a,
     repack_io python_rt (demo_os (pystr "yes")) in_path (pystr "dir") false c a
     = (trace, Returned tt)).
Proof.
  apply (declined_commands_touch_nothing python_rt (demo_os (pystr "yes")) (pystr "dir")).
  - reflexivity.
  - discriminate.
  - discriminate.
Defined.

(** ** What the events of a command can be *)

Lemma io_bind_returned {A B} (m : io A) (f : A -> io B) t a :
  m = (t, Returned a) -> io_bind m f = (t ++ fst (f a), snd (f a)).
Proof. intros ->. cbn. destruct (f a). reflexivity. Qed.

Lemma io_bind_raised {A B} (m : io A) (f : A -> io B) t x :
  m = (t, Raised x) -> io_bind m f = (t, Raised x).
Proof. intros ->. reflexivity. Qed.

Section Events.

(** A property of events that holds of every call but the prompt and the
    pause, and of the prompt when the overwrite is not forced. *)
Variable P : event -> Prop.
Variable force_overwrite : bool.
Hypothesis P_print : forall s, P (EvPrint s).
Hypothesis P_input : force_overwrite = false -> forall s, P (EvInput s).
Hypothesis P_rmtree : forall p, P (EvRmtree p).
Hypothesis P_remove : forall p, P (EvRemove p).
Hypothesis P_mkdir : forall p, P (EvMkdir p).
Hypothesis P_read : forall p, P (EvRead p).
Hypothesis P_write : forall p d, P (EvWrite p d).

Lemma io_bind_Forall {A B} (m : io A) (f : A -> io B) :
  Forall P (fst m) -> (forall a, Forall P (fst (f a))) ->
  Forall P (fst (io_bind m f)).
Proof.
  intros Hm Hf. destruct m as [t [a | x]]; cbn in *.
  - specialize (Hf a). destruct (f a) as [t' r]. cbn in *.
    apply Forall_app. auto.
  - exact Hm.
Qed.

Lemma lift_Forall {A} (r : result A) : Forall P (fst (lift r)).
Proof. destruct r; constructor. Qed.

Lemma emit_Forall e : P e -> Forall P (fst (emit e)).
Proof. intros H. repeat constructor. exact H. Qed.

Lemma remove_path_Forall w path :
  Forall P (fst (remove_path w path force_overwrite)).
Proof.
  unfold remove_path. apply io_bind_Forall.
  - destruct force_overwrite eqn:Ef; cbn [negb]; [constructor |].
    apply io_bind_Forall; [apply emit_Forall; auto | intros; constructor].
  - intros [|].
    + apply io_bind_Forall; [apply emit_Forall; auto | intros; constructor].
    + apply io_bind_Forall.
      * apply emit_Forall. destruct (os_isdir w path); auto.
      * intros _. destruct (os_remove_ok w path); [constructor |].
        apply io_bind_Forall; [apply emit_Forall; auto | intros; constructor].
Qed.

Lemma prepare_output_Forall w out_path :
  Forall P (fst (prepare_output w out_path force_overwrite)).
Proof.
  unfold prepare_output. destruct (os_exists w out_path); [| constructor].
  apply io_bind_Forall; [apply remove_path_Forall |].
  intros [|]; (apply io_bind_Forall; [apply emit_Forall; auto | intros; constructor]).
Qed.

Lemma write_files_Forall rt w out_path c buf entries : forall n,
  Forall P (fst (write_files rt w out_path c buf n entries)).
Proof.
  induction entries as [| [[name offset] sz] entries IH]; intros n; cbn [write_files].
  - constructor.
  - apply io_bind_Forall; [apply lift_Forall |]. intros data.
    apply io_bind_Forall; [apply emit_Forall; auto |]. intros _.
    apply io_bind_Forall; [apply emit_Forall; auto |]. intros _.
    destruct (os_write_ok w n _); [apply IH | constructor].
Qed.

Lemma unpack_io_Forall rt w in_path out_path :
  Forall P (fst (unpack_io rt w in_path out_path force_overwrite)).
Proof.
  unfold unpack_io. apply io_bind_Forall; [apply prepare_output_Forall |].
  intros go. destruct (negb go); [constructor |].
  apply io_bind_Forall; [apply emit_Forall; auto |]. intros _.
  destruct (negb (os_mkdir_ok w out_path)); [constructor |].
  apply io_bind_Forall; [apply emit_Forall; auto |]. intros _.
  destruct (os_read w in_path) as [input |]; [| constructor].
  destruct (parse_header rt input) as [[c entries] | e].
  - apply io_bind_Forall; [apply write_files_Forall |]. intros _.
    apply emit_Forall. auto.
  - destruct e; try constructor; auto.
Qed.

Lemma add_file_io_Forall rt w c a hs st f :
  Forall P (fst (add_file_io rt w c a hs st f)).
Proof.
  destruct f as [name path]. unfold add_file_io.
  apply io_bind_Forall; [apply emit_Forall; auto |]. intros _.
  apply io_bind_Forall; [apply lift_Forall |]. intros f1.
  apply io_bind_Forall; [apply lift_Forall |]. intros f2.
  apply io_bind_Forall; [apply emit_Forall; auto |]. intros _.
  destruct (os_read w path) as [data |]; [| constructor].
  apply io_bind_Forall; [apply lift_Forall |]. intros [f3 payload].
  apply io_bind_Forall; [apply lift_Forall |]. intros dbr.
  apply io_bind_Forall; [apply lift_Forall |]. intros f4. constructor.
Qed.

Lemma foldM_io_Forall {S X} (f : S -> X -> io S) l :
  (forall s x, Forall P (fst (f s x))) ->
  forall s, Forall P (fst (foldM_io f s l)).
Proof.
  intros Hf. induction l as [| x l IH]; intros s; cbn [foldM_io].
  - constructor.
  - apply io_bind_Forall; [apply Hf | apply IH].
Qed.

Lemma repack_io_Forall rt w in_path out_path c a :
  Forall P (fst (repack_io rt w in_path out_path force_overwrite c a)).
Proof.
  unfold repack_io. apply io_bind_Forall; [apply prepare_output_Forall |].
  intros go. destruct (negb go); [constructor |].
  apply io_bind_Forall; [apply lift_Forall |]. intros total.
  apply io_bind_Forall; [apply lift_Forall |]. intros hs.
  apply io_bind_Forall; [apply lift_Forall |]. intros f1.
  apply io_bind_Forall; [apply lift_Forall |]. intros f2.
  apply io_bind_Forall; [apply lift_Forall |]. intros f3.
  apply io_bind_Forall.
  { apply foldM_io_Forall. intros. apply add_file_io_Forall. }
  intros st.
  apply io_bind_Forall; [apply lift_Forall |]. intros archive.
  apply io_bind_Forall; [apply emit_Forall; auto |]. intros _.
  destruct (os_write_ok w 0 out_path); [apply emit_Forall; auto | constructor].
Qed.

End Events.

(** X17. With the overwrite forced, [main] never calls [input]: whatever
    the path, the archive and the answers of the operating system, the
    overwrite prompt of [remove_path] is not shown. (The pause that ends a
    finished run is another call, and is always made.) *)
Theorem forced_main_never_prompts rt w args :
  arg_force_overwrite args = true ->
  Forall (fun e => is_input e = false) (fst (main rt w args)).
Proof.
  intros Hf.
  set (P := fun e => is_input e = false).
  assert (Hcmd1 : forall i o, Forall P (fst (unpack_io rt w i o (arg_force_overwrite args)))).
  { intros. apply unpack_io_Forall; try (intros; reflexivity).
    intros Hc. congruence. }
  assert (Hcmd2 : forall i o c a,
            Forall P (fst (repack_io rt w i o (arg_force_overwrite args) c a))).
  { intros. apply repack_io_Forall; try (intros; reflexivity).
    intros Hc. congruence. }
  assert (Hem : forall e, P e -> Forall P (fst (emit e)))
    by (intros; repeat constructor; assumption).
  unfold main.
  apply io_bind_Forall; [apply Hem; reflexivity |]. intros _.
  apply io_bind_Forall; [apply Hem; reflexivity |]. intros _.
  destruct (negb (os_exists w (arg_path args))).
  - apply io_bind_Forall; [apply Hem; reflexivity |]. intros _.
    apply Hem. reflexivity.
  - apply io_bind_Forall.
    + destruct (os_isfile w (arg_path args)); [| destruct (os_isdir w (arg_path args))].
      * apply io_bind_Forall; [apply Hem; reflexivity |]. intros _.
        apply io_bind_Forall; [apply Hcmd1 | intros; constructor].
      * apply io_bind_Forall; [apply Hem; reflexivity |]. intros _.
        apply io_bind_Forall; [apply Hcmd2 | intros; constructor].
      * apply io_bind_Forall; [apply Hem; reflexivity |]. intros _.
        apply io_bind_Forall; [apply Hem; reflexivity | intros; constructor].
    + intros [|]; [constructor |].
      apply io_bind_Forall; [apply Hem; reflexivity |]. intros _.
      apply Hem. reflexivity.
Qed.

Lemma forced_main_never_prompts_witness :
  Forall (fun e => is_input e = false)
    (fst (main python_rt (demo_os (pystr "n")) (mkArgs (pystr "dir.farc") true false 1))).
Proof.
  apply (forced_main_never_prompts python_rt (demo_os (pystr "n"))
           (mkArgs (pystr "dir.farc") true false 1)).
  reflexivity.
Defined.

(** ** The commands and the codec *)

Lemma filter_none {A} (f : A -> bool) (l : list A) :
  Forall (fun x => f x = false) l -> filter f l = [].
Proof.
  induction 1 as [| x l Hx _ IH]; cbn; [reflexivity |]. rewrite Hx. exact IH.
Qed.

Lemma prepare_output_no_write w out_path force_overwrite :
  filter is_write (fst (prepare_output w out_path force_overwrite)) = [].
Proof.
  apply filter_none.
  apply (prepare_output_Forall (fun e => is_write e = false) force_overwrite);
    intros; reflexivity.
Qed.

Lemma sum_costs_names rt c (l1 l2 : list (str * bytes)) :
  map fst l1 = map fst l2 -> sum_costs rt c l1 = sum_costs rt c l2.
Proof.
  revert l2. induction l1 as [| [n1 d1] l1 IH]; intros [| [n2 d2] l2] H;
    try discriminate; [reflexivity |].
  cbn in H. injection H as -> H. cbn [sum_costs]. rewrite (IH l2 H). reflexivity.
Qed.

(** The text [repack] prints for a file, and the events of a file that is
    added without an error. *)
Lemma add_file_io_reads rt w c a hs st name path data :
  os_read w path = Some data ->
  exists t,
    add_file_io rt w c a hs st (name, path)
      = (t, match add_file rt c a hs st (name, data) with
            | Ok st' => Returned st'
            | Err e => Raised (CoreError e)
            end) /\
    filter is_write t = [] /\
    (forall st', add_file rt c a hs st (name, data) = Ok st' ->
       t = [EvPrint (pystr "Adding " ++ name ++ pystr " ..."); EvRead path]).
Proof.
  intros Hr. unfold add_file_io, add_file.
  destruct (write_str name true (farc st)) as [f1 | e1]; cbn [lift bind io_bind emit ret raise app].
  2:{ eexists. split; [reflexivity |]. split; [reflexivity | discriminate]. }
  destruct (write_uint32 _ f1) as [f2 | e2]; cbn [lift bind io_bind emit ret raise app].
  2:{ eexists. split; [reflexivity |]. split; [reflexivity | discriminate]. }
  rewrite Hr.
  destruct (if c then _ else _) as [[f3 payload] | e3]; cbn [lift bind io_bind emit ret raise app].
  2:{ eexists. split; [reflexivity |]. split; [reflexivity | discriminate]. }
  destruct (align a _) as [dbr | e4]; cbn [lift bind io_bind emit ret raise app].
  2:{ eexists. split; [reflexivity |]. split; [reflexivity | discriminate]. }
  destruct (write_uint32 (len data) f3) as [f4 | e5]; cbn [lift bind io_bind emit ret raise app].
  2:{ eexists. split; [reflexivity |]. split; [reflexivity | discriminate]. }
  eexists. split; [reflexivity |]. split; reflexivity.
Qed.

Lemma foldM_io_add_file_reads rt w c a hs file_paths files : forall st,
  Forall2 (fun (fp : str * str) (fd : str * bytes) =>
             fst fd = fst fp /\ os_read w (snd fp) = Some (snd fd)) file_paths files ->
  exists t,
    foldM_io (add_file_io rt w c a hs) st file_paths
      = (t, match foldM (add_file rt c a hs) st files with
            | Ok st' => Returned st'
            | Err e => Raised (CoreError e)
            end) /\
    filter is_write t = [] /\
    (forall st', foldM (add_file rt c a hs) st files = Ok st' ->
       t = concat (map (fun fp : str * str =>
                          [EvPrint (pystr "Adding " ++ fst fp ++ pystr " ..."); EvRead (snd fp)])
                       file_paths)).
Proof.
  intros st H. revert st.
  induction H as [| [name path] [name' data] file_paths files [Hn Hr] _ IH]; intros st.
  - exists []. cbn. repeat split.
  - cbn [fst snd] in Hn, Hr. subst name'.
    destruct (add_file_io_reads rt w c a hs st name path data Hr) as (t1 & H1 & Hw1 & Ht1).
    cbn [foldM_io foldM]. rewrite H1.
    destruct (add_file rt c a hs st (name, data)) as [st1 | e1]; cbn [bind].
    + destruct (IH st1) as (t2 & H2 & Hw2 & Ht2).
      cbn [io_bind]. rewrite H2.
      exists (t1 ++ t2). split; [reflexivity |]. split.
      * rewrite filter_app, Hw1, Hw2. reflexivity.
      * intros st' Hst'. rewrite (Ht1 st1 eq_refl), (Ht2 st' Hst'). reflexivity.
    + exists t1. split; [reflexivity |]. split; [exact Hw1 | discriminate].
Qed.

(** X18. [repack] on a folder is the codec on the contents read: when every
    file of the folder can be read, the command hands the archive of
    [repack] to a single write of the output path, its last call on the
    file system, after one read per file in folder order; and when the
    codec fails, the command raises its error without writing anything. *)
Theorem repack_io_refines_repack rt w in_path out_path force_overwrite c a files t0 :
  prepare_output w out_path force_overwrite = (t0, Returned true) ->
  Forall2 (fun f (fd : str * bytes) =>
             fst fd = f /\ os_read w (os_join w in_path f) = Some (snd fd))
          (os_walk w in_path) files ->
  match repack rt files c a with
  | Ok archive =>
      repack_io rt w in_path out_path force_overwrite c a
      = (t0
         ++ concat (map (fun f => [EvPrint (pystr "Adding " ++ f ++ pystr " ...");
                                   EvRead (os_join w in_path f)]) (os_walk w in_path))
         ++ [EvWrite out_path archive]
         ++ (if os_write_ok w 0 out_path
             then [EvPrint (nl ++ pystr "Folder was repacked to " ++ dq ++ out_path ++ dq)]
             else []),
         if os_write_ok w 0 out_path then Returned tt
         else Raised (OSError (EvWrite out_path archive)))
  | Err e =>
      exists t,
        repack_io rt w in_path out_path force_overwrite c a = (t, Raised (CoreError e)) /\
        filter is_write t = []
  end.
Proof.
  intros Hgo Hreads.
  pose proof (prepare_output_no_write w out_path force_overwrite) as Hw0.
  rewrite Hgo in Hw0. cbn [fst] in Hw0.
  set (file_paths := map (fun f => (f, os_join w in_path f)) (os_walk w in_path)).
  assert (Hfp : Forall2 (fun (fp : str * str) (fd : str * bytes) =>
                  fst fd = fst fp /\ os_read w (snd fp) = Some (snd fd)) file_paths files).
  { unfold file_paths. clear -Hreads.
    induction Hreads; cbn [map]; constructor; auto. }
  assert (Hnames : map fst (map (fun x : str * str => (fst x, @nil byte)) file_paths)
                   = map fst files).
  { clear -Hfp. induction Hfp as [| fp fd l l' [Hn _] _ IH]; cbn; [reflexivity |].
    rewrite IH, Hn. reflexivity. }
  unfold repack_io, repack, repack_run. fold file_paths.
  rewrite Hgo. cbn [io_bind negb].
  rewrite (sum_costs_names rt c _ files Hnames).
  destruct (sum_costs rt c files) as [total | e0]; cbn [lift bind io_bind ret raise].
  2:{ exists (t0 ++ []). split; [reflexivity |].
      rewrite app_nil_r. exact Hw0. }
  destruct (if a =? 0 then _ else _) as [hs | e0]; cbn [lift bind io_bind ret raise].
  2:{ exists (t0 ++ []). split; [reflexivity |]. rewrite app_nil_r. exact Hw0. }
  destruct (write_str _ false _) as [f1 | e0]; cbn [lift bind io_bind ret raise].
  2:{ exists (t0 ++ []). split; [reflexivity |]. rewrite app_nil_r. exact Hw0. }
  destruct (write_uint32 _ f1) as [f2 | e0]; cbn [lift bind io_bind ret raise].
  2:{ exists (t0 ++ []). split; [reflexivity |]. rewrite app_nil_r. exact Hw0. }
  destruct (write_uint32 a f2) as [f3 | e0]; cbn [lift bind io_bind ret raise].
  2:{ exists (t0 ++ []). split; [reflexivity |]. rewrite app_nil_r. exact Hw0. }
  destruct (foldM_io_add_file_reads rt w c a hs file_paths files
              (mkWriter f3 (mkBR [] 0 (default_endianness rt) (default_encoding rt)) []) Hfp)
    as (t & Ht & Hwt & Hok).
  rewrite Ht.
  destruct (foldM _ _ files) as [st | e0]; cbn [bind io_bind].
  2:{ eexists. split; [reflexivity |].
      cbn [app]. rewrite !filter_app, Hw0, Hwt. reflexivity. }
  rewrite (Hok st eq_refl).
  destruct (finish a st) as [archive | e0]; cbn [lift bind io_bind ret raise].
  2:{ eexists. split; [reflexivity |].
      cbn [app]. rewrite app_nil_r, filter_app, Hw0. cbn [app].
      rewrite <- (Hok st eq_refl). exact Hwt. }
  unfold file_paths. rewrite map_map. cbn [fst snd].
  destruct (os_write_ok w 0 out_path); cbn [emit raise app];
    rewrite ?app_nil_r; reflexivity.
Qed.

Lemma repack_io_refines_repack_witness :
  repack_io python_rt (demo_os (pystr "y")) (pystr "dir") (pystr "dir.farc") false true 16
  = ([EvInput (pystr "Output path exists. Overwrite? (Y/N) ");
      EvRemove (pystr "dir.farc"); EvPrint []]
     ++ [EvPrint (pystr "Adding a.txt ..."); EvRead (pystr "dir/a.txt");
         EvPrint (pystr "Adding b ..."); EvRead (pystr "dir/b")]
     ++ [EvWrite (pystr "dir.farc") two_files_archive]
     ++ [EvPrint (nl ++ pystr "Folder was repacked to " ++ dq ++ pystr "dir.farc" ++ dq)],
     Returned tt).
Proof.
  pose proof (repack_io_refines_repack python_rt (demo_os (pystr "y"))
                (pystr "dir") (pystr "dir.farc") false true 16 two_files
                [EvInput (pystr "Output path exists. Overwrite? (Y/N) ");
                 EvRemove (pystr "dir.farc"); EvPrint []]) as H.
  assert (Hr : repack python_rt two_files true 16 = Ok two_files_archive)
    by (vm_compute; reflexivity).
  rewrite Hr in H. apply H.
  - reflexivity.
  - repeat constructor.
Defined.

Lemma write_files_extract rt w out_path c buf entries :
  (forall n p, os_write_ok w n p = true) ->
  forall n,
  exists t,
    write_files rt w out_path c buf n entries
      = (t, match snd (extract rt c buf entries) with
            | Ok _ => Returned tt
            | Err e => Raised (CoreError e)
            end) /\
    filter is_write t
      = map (fun nd : str * bytes => EvWrite (os_join w out_path (fst nd)) (snd nd))
            (fst (extract rt c buf entries)).
Proof.
  intros Hw. induction entries as [| [[name offset] sz] entries IH]; intros n.
  - exists []. split; reflexivity.
  - cbn [write_files extract].
    destruct (if c then _ else _) as [data | e]; cbn [lift io_bind ret raise emit].
    + rewrite Hw. destruct (IH (S n)) as (t & Ht & Hf). rewrite Ht.
      destruct (extract rt c buf entries) as [out r]. cbn [fst snd] in *.
      eexists. split; [reflexivity |].
      cbn [app filter is_write map fst snd]. rewrite Hf. reflexivity.
    + exists []. split; reflexivity.
Qed.

(** X19. [unpack] on a file is the codec on its content: when the output
    folder can be made, the archive read and every file written, the files
    the command writes are exactly the entries [unpack] gives for the
    bytes read, each under the output folder and in table order; a wrong
    magic ends the command quietly, and every other error of the codec is
    raised. *)
Theorem unpack_io_refines_unpack rt w in_path out_path force_overwrite input t0 :
  prepare_output w out_path force_overwrite = (t0, Returned true) ->
  os_mkdir_ok w out_path = true ->
  os_read w in_path = Some input ->
  (forall n p, os_write_ok w n p = true) ->
  exists t,
    unpack_io rt w in_path out_path force_overwrite
      = (t, match snd (unpack rt input) with
            | Ok _ | Err InvalidFormat => Returned tt
            | Err e => Raised (CoreError e)
            end) /\
    filter is_write t
      = map (fun nd : str * bytes => EvWrite (os_join w out_path (fst nd)) (snd nd))
            (fst (unpack rt input)).
Proof.
  intros Hgo Hmk Hrd Hw.
  pose proof (prepare_output_no_write w out_path force_overwrite) as Hw0.
  rewrite Hgo in Hw0. cbn [fst] in Hw0.
  unfold unpack_io, unpack. rewrite Hgo, Hmk, Hrd. cbn [io_bind negb emit].
  destruct (parse_header rt input) as [[c entries] | e].
  - destruct (write_files_extract rt w out_path c input entries Hw 0%nat) as (t & Ht & Hf).
    rewrite Ht.
    destruct (extract rt c input entries) as [out [[] | e]] eqn:Ex; cbn [fst snd] in *.
    + eexists. split; [reflexivity |].
      cbn [io_bind app]. rewrite filter_app. cbn [filter is_write].
      rewrite Hw0, filter_app, Hf. cbn. rewrite app_nil_r. reflexivity.
    + apply extract_err in Ex as (_ & -> & _).
      eexists. split; [reflexivity |].
      cbn [io_bind app]. rewrite filter_app. cbn [filter is_write].
      rewrite Hw0, Hf. reflexivity.
  - destruct e; (eexists; split; [reflexivity |];
      cbn [fst raise app]; rewrite filter_app; cbn [filter is_write app];
      rewrite Hw0; reflexivity).
Qed.

Lemma unpack_io_refines_unpack_witness :
  exists t,
    unpack_io python_rt (demo_os (pystr "y")) (pystr "dir.farc") (pystr "dir") false
      = (t, match snd (unpack python_rt two_files_archive) with
            | Ok _ | Err InvalidFormat => Returned tt
            | Err e => Raised (CoreError e)
            end) /\
    filter is_write t
      = map (fun nd : str * bytes =>
               EvWrite (os_join (demo_os (pystr "y")) (pystr "dir") (fst nd)) (snd nd))
            (fst (unpack python_rt two_files_archive)).
Proof.
  apply (unpack_io_refines_unpack python_rt (demo_os (pystr "y"))
           (pystr "dir.farc") (pystr "dir") false two_files_archive
           [EvInput (pystr "Output path exists. Overwrite? (Y/N) ");
            EvRmtree (pystr "dir"); EvPrint []]).
  - reflexivity.
  - reflexivity.
  - reflexivity.
  - intros. reflexivity.
Defined.

(** X20. [unpack] clears the output before it looks at the input: in any
    run that reaches the read of the archive while the output path
    exists, that path has been removed and made again just before the
    read, and when the archive then fails to parse nothing is written
    afterwards. *)
Theorem unpack_io_reads_after_clearing rt w in_path out_path force_overwrite :
  os_exists w out_path = true ->
  In (EvRead in_path) (fst (unpack_io rt w in_path out_path force_overwrite)) ->
  exists pre post,
    fst (unpack_io rt w in_path out_path force_overwrite)
      = pre ++ (if os_isdir w out_path then EvRmtree out_path else EvRemove out_path)
            :: EvPrint [] :: EvMkdir out_path :: EvRead in_path :: post /\
    (forall input e,
       os_read w in_path = Some input -> parse_header rt input = Err e ->
       filter is_write post = []).
Proof.
  intros Hex Hin.
  assert (Hno : forall l, In (EvRead in_path) l ->
            Forall (fun e => match e with EvRead _ => False | _ => True end) l -> False).
  { intros l Hl Hall. rewrite Forall_forall in Hall. exact (Hall _ Hl). }
  unfold unpack_io, prepare_output, remove_path in *. rewrite Hex in *.
  set (body := match os_read w in_path with Some _ => _ | None => _ end) in *.
  assert (Hpost : forall input e,
            os_read w in_path = Some input -> parse_header rt input = Err e ->
            filter is_write (fst body) = []).
  { intros input e Hr Hp. unfold body. rewrite Hr, Hp.
    destruct e; reflexivity. }
  destruct body as [post r]. cbn [fst] in Hpost.
  revert Hin.
  destruct force_overwrite; cbn [negb io_bind ret emit].
  - destruct (os_remove_ok w out_path); cbn [negb io_bind ret emit app].
    + destruct (os_mkdir_ok w out_path); cbn [negb raise fst].
      * intros _. exists [], post. split; [reflexivity | exact Hpost].
      * intros Hin. exfalso. apply (Hno _ Hin).
        repeat constructor. destruct (os_isdir w out_path); exact I.
    + intros Hin. exfalso. apply (Hno _ Hin).
      repeat constructor. destruct (os_isdir w out_path); exact I.
  - destruct (negb (str_eqb (lower (os_input w)) (pystr "y")));
      cbn [negb io_bind ret emit app].
    + intros Hin. exfalso. apply (Hno _ Hin). repeat constructor.
    + destruct (os_remove_ok w out_path); cbn [negb io_bind ret emit app].
      * destruct (os_mkdir_ok w out_path); cbn [negb raise fst].
        -- intros _. eexists [_], post. split; [reflexivity | exact Hpost].
        -- intros Hin. exfalso. apply (Hno _ Hin).
           repeat constructor. destruct (os_isdir w out_path); exact I.
      * intros Hin. exfalso. apply (Hno _ Hin).
        repeat constructor. destruct (os_isdir w out_path); exact I.
Qed.

Lemma unpack_io_reads_after_clearing_witness :
  exists pre post,
    fst (unpack_io python_rt (demo_os (pystr "y")) (pystr "bad.farc") (pystr "bad") false)
      = pre ++ (if os_isdir (demo_os (pystr "y")) (pystr "bad")
                then EvRmtree (pystr "bad") else EvRemove (pystr "bad"))
            :: EvPrint [] :: EvMkdir (pystr "bad") :: EvRead (pystr "bad.farc") :: post /\
    (forall input e,
       os_read (demo_os (pystr "y")) (pystr "bad.farc") = Some input ->
       parse_header python_rt input = Err e ->
       filter is_write post = []).
Proof.
  apply (unpack_io_reads_after_clearing python_rt (demo_os (pystr "y"))
           (pystr "bad.farc") (pystr "bad") false).
  - reflexivity.
  - vm_compute. do 4 right. left. reflexivity.
Defined.

(** ** The errors that leave [main] *)

Lemma io_bind_snd_raised {A B} (m : io A) (f : A -> io B) x :
  snd (io_bind m f) = Raised x ->
  snd m = Raised x \/ exists a, snd m = Returned a /\ snd (f a) = Raised x.
Proof.
  destruct m as [t [a | y]]; cbn.
  - destruct (f a) as [t' r] eqn:E. cbn. intros ->. right. exists a.
    rewrite E. split; reflexivity.
  - intros [= ->]. left. reflexivity.
Qed.

Lemma prepare_output_returns w out_path force_overwrite :
  exists go, snd (prepare_output w out_path force_overwrite) = Returned go.
Proof.
  unfold prepare_output, remove_path.
  destruct (os_exists w out_path); [| eexists; reflexivity].
  destruct force_overwrite; cbn [negb io_bind ret emit].
  - destruct (os_remove_ok w out_path); eexists; reflexivity.
  - destruct (negb (str_eqb _ _)); cbn [io_bind ret emit];
      [| destruct (os_remove_ok w out_path)]; eexists; reflexivity.
Qed.

Lemma parse_header_err rt input e :
  parse_header rt input = Err e ->
  e = OutOfBounds \/ e = UnicodeError \/ e = InvalidFormat.
Proof.
  unfold parse_header, parse_header_fuel, read_str_n, read_uint32, read_bytes.
  cbn [br_idx br_buf br_encoding br_endian].
  destruct (_ <=? _)%nat; cbn [bind]; [| intros [= <-]; auto].
  destruct (decode _ _) as [magic |]; cbn [of_option bind]; [| intros [= <-]; auto].
  destruct (negb _); [intros [= <-]; auto |].
  cbn [with_idx br_idx br_buf br_encoding br_endian].
  destruct (_ <=? _)%nat; cbn [bind]; [| intros [= <-]; auto].
  cbn [with_idx br_idx br_buf br_encoding br_endian].
  destruct (_ <=? _)%nat; cbn [bind]; [| intros [= <-]; auto].
  destruct (read_entries _ _ _ _ _) as [entries | e'] eqn:Er; cbn [bind].
  - discriminate.
  - intros [= <-]. apply read_entries_err in Er. tauto.
Qed.

Lemma write_files_raises rt w out_path c buf entries e : forall n,
  snd (write_files rt w out_path c buf n entries) = Raised (CoreError e) ->
  e = DecompressionError.
Proof.
  induction entries as [| [[name offset] sz] entries IH]; intros n; cbn [write_files].
  - discriminate.
  - intros H. apply io_bind_snd_raised in H as [H | (data & _ & H)].
    + destruct c.
      * destruct (gzip_decompress rt _) as [d | e'] eqn:Ez; [discriminate |].
        injection H as <-. eapply gzip_decompress_err. exact Ez.
      * discriminate.
    + apply io_bind_snd_raised in H as [H | (_ & _ & H)]; [discriminate |].
      apply io_bind_snd_raised in H as [H | (_ & _ & H)]; [discriminate |].
      destruct (os_write_ok w n _); [eapply IH; exact H | discriminate].
Qed.

Lemma unpack_io_raises rt w in_path out_path force_overwrite e :
  snd (unpack_io rt w in_path out_path force_overwrite) = Raised (CoreError e) ->
  e = OutOfBounds \/ e = UnicodeError \/ e = DecompressionError.
Proof.
  unfold unpack_io. intros H.
  apply io_bind_snd_raised in H as [H | (go & _ & H)].
  { destruct (prepare_output_returns w out_path force_overwrite) as [go Hgo].
    congruence. }
  destruct (negb go); [discriminate |].
  apply io_bind_snd_raised in H as [H | (_ & _ & H)]; [discriminate |].
  destruct (negb (os_mkdir_ok w out_path)); [discriminate |].
  apply io_bind_snd_raised in H as [H | (_ & _ & H)]; [discriminate |].
  destruct (os_read w in_path) as [input |]; [| discriminate].
  destruct (parse_header rt input) as [[c entries] | e'] eqn:Hp.
  - apply io_bind_snd_raised in H as [H | (_ & _ & H)]; [| discriminate].
    apply write_files_raises in H. auto.
  - apply parse_header_err in Hp.
    destruct e'; try discriminate; injection H as <-;
      destruct Hp as [Hp | [Hp | Hp]]; try discriminate; auto.
Qed.

(** Whatever the file system answers, the state [repack] reaches on a
    folder is one the codec reaches on some contents of the same names,
    and so is an error of the codec that it raises. *)
Lemma add_file_io_sim rt w c a hs st name path :
  match snd (add_file_io rt w c a hs st (name, path)) with
  | Returned st' => exists data, add_file rt c a hs st (name, data) = Ok st'
  | Raised (CoreError e) => exists data, add_file rt c a hs st (name, data) = Err e
  | Raised (OSError _) => True
  end.
Proof.
  unfold add_file_io, add_file.
  destruct (write_str name true (farc st)) as [f1 | e1];
    cbn [lift bind io_bind emit ret raise snd].
  2:{ exists []. reflexivity. }
  destruct (write_uint32 _ f1) as [f2 | e2];
    cbn [lift bind io_bind emit ret raise snd].
  2:{ exists []. reflexivity. }
  destruct (os_read w path) as [data |]; cbn [raise snd]; [| exact I].
  destruct (if c then _ else _) as [[f3 payload] | e3] eqn:E3;
    cbn [lift bind io_bind emit ret raise snd].
  2:{ exists data. rewrite E3. reflexivity. }
  destruct (align a _) as [dbr | e4] eqn:E4;
    cbn [lift bind io_bind emit ret raise snd].
  2:{ exists data. rewrite E3. cbn [bind]. rewrite E4. reflexivity. }
  destruct (write_uint32 (len data) f3) as [f4 | e5] eqn:E5;
    cbn [lift bind io_bind emit ret raise snd].
  - exists data. rewrite E3. cbn [bind]. rewrite E4. cbn [bind]. rewrite E5. reflexivity.
  - exists data. rewrite E3. cbn [bind]. rewrite E4. cbn [bind]. rewrite E5. reflexivity.
Qed.

Lemma foldM_io_sim rt w c a hs file_paths : forall st,
  match snd (foldM_io (add_file_io rt w c a hs) st file_paths) with
  | Returned st' =>
      exists files, map fst files = map fst file_paths /\
                    foldM (add_file rt c a hs) st files = Ok st'
  | Raised (CoreError e) =>
      exists files, map fst files = map fst file_paths /\
                    foldM (add_file rt c a hs) st files = Err e
  | Raised (OSError _) => True
  end.
Proof.
  induction file_paths as [| [name path] file_paths IH]; intros st; cbn [foldM_io].
  - exists []. split; reflexivity.
  - pose proof (add_file_io_sim rt w c a hs st name path) as H1.
    destruct (add_file_io rt w c a hs st (name, path)) as [t1 [st1 | [e1 | call]]];
      cbn [snd] in H1; cbn [io_bind snd].
    + specialize (IH st1). destruct H1 as [data Hd].
      destruct (foldM_io _ st1 file_paths) as [t2 [st2 | [e2 | call]]];
        cbn [snd] in *; [| | exact I];
        destruct IH as (files & Hn & Hf); exists ((name, data) :: files);
        (split; [cbn [map fst]; rewrite Hn; reflexivity |]);
        cbn [foldM]; rewrite Hd; exact Hf.
    + destruct H1 as [data Hd].
      exists ((name, data) :: map (fun fp : str * str => (fst fp, [])) file_paths).
      split; [cbn [map fst]; rewrite map_map; reflexivity |].
      cbn [foldM]. rewrite Hd. reflexivity.
    + exact I.
Qed.

Lemma repack_io_raises rt w in_path out_path force_overwrite c a e :
  snd (repack_io rt w in_path out_path force_overwrite c a) = Raised (CoreError e) ->
  exists files, repack rt files c a = Err e.
Proof.
  unfold repack_io. intros H.
  apply io_bind_snd_raised in H as [H | (go & _ & H)].
  { destruct (prepare_output_returns w out_path force_overwrite) as [go Hgo].
    congruence. }
  destruct (negb go); [discriminate |].
  set (file_paths := map (fun f => (f, os_join w in_path f)) (os_walk w in_path)) in *.
  set (files0 := map (fun x : str * str => (fst x, @nil byte)) file_paths) in *.
  assert (Hrun : forall files, map fst files = map fst file_paths ->
            sum_costs rt c files = sum_costs rt c files0).
  { intros files Hn. apply sum_costs_names. unfold files0.
    rewrite map_map. cbn [fst]. rewrite Hn. rewrite <- (map_id (map fst file_paths)) at 1.
    rewrite map_id. reflexivity. }
  assert (Hn0 : map fst files0 = map fst file_paths).
  { unfold files0. rewrite map_map. reflexivity. }
  destruct (sum_costs rt c files0) as [total | e0] eqn:Es.
  2:{ cbn in H. injection H as <-. exists files0.
      unfold repack, repack_run. rewrite Es. reflexivity. }
  apply io_bind_snd_raised in H as [H | (total' & Ht & H)]; [discriminate |].
  cbn in Ht. injection Ht as <-.
  destruct (if a =? 0 then _ else _) as [hs | e0] eqn:Eh.
  2:{ cbn in H. injection H as <-. exists files0.
      unfold repack, repack_run. rewrite Es. cbn [bind]. rewrite Eh. reflexivity. }
  apply io_bind_snd_raised in H as [H | (hs' & Ht & H)]; [discriminate |].
  cbn in Ht. injection Ht as <-.
  destruct (write_str _ false _) as [f1 | e0] eqn:E1.
  2:{ cbn in H. injection H as <-. exists files0.
      unfold repack, repack_run. rewrite Es. cbn [bind]. rewrite Eh. cbn [bind].
      rewrite E1. reflexivity. }
  apply io_bind_snd_raised in H as [H | (f1' & Ht & H)]; [discriminate |].
  cbn in Ht. injection Ht as <-.
  destruct (write_uint32 _ f1) as [f2 | e0] eqn:E2.
  2:{ cbn in H. injection H as <-. exists files0.
      unfold repack, repack_run. rewrite Es. cbn [bind]. rewrite Eh. cbn [bind].
      rewrite E1. cbn [bind]. rewrite E2. reflexivity. }
  apply io_bind_snd_raised in H as [H | (f2' & Ht & H)]; [discriminate |].
  cbn in Ht. injection Ht as <-.
  destruct (write_uint32 a f2) as [f3 | e0] eqn:E3.
  2:{ cbn in H. injection H as <-. exists files0.
      unfold repack, repack_run. rewrite Es. cbn [bind]. rewrite Eh. cbn [bind].
      rewrite E1. cbn [bind]. rewrite E2. cbn [bind]. rewrite E3. reflexivity. }
  apply io_bind_snd_raised in H as [H | (f3' & Ht & H)]; [discriminate |].
  cbn in Ht. injection Ht as <-.
  pose proof (foldM_io_sim rt w c a hs file_paths
                (mkWriter f3 (mkBR [] 0 (default_endianness rt) (default_encoding rt)) []))
    as Hsim.
  assert (Hcore : forall files r,
            map fst files = map fst file_paths ->
            foldM (add_file rt c a hs)
              (mkWriter f3 (mkBR [] 0 (default_endianness rt) (default_encoding rt)) [])
              files = r ->
            repack rt files c a = (st <- r ;; finish a st)).
  { intros files r Hn <-. unfold repack, repack_run.
    rewrite (Hrun files Hn). cbn [bind]. rewrite Eh. cbn [bind].
    rewrite E1. cbn [bind]. rewrite E2. cbn [bind]. rewrite E3. cbn [bind].
    destruct (foldM _ _ files); reflexivity. }
  apply io_bind_snd_raised in H as [H | (st & Hst & H)].
  - rewrite H in Hsim. destruct Hsim as (files & Hn & Hf).
    exists files. rewrite (Hcore files _ Hn Hf). reflexivity.
  - rewrite Hst in Hsim. destruct Hsim as (files & Hn & Hf).
    exists files. rewrite (Hcore files _ Hn Hf). cbn [bind].
    destruct (finish a st) as [archive | e0].
    + apply io_bind_snd_raised in H as [H | (ar & _ & H)]; [discriminate |].
      apply io_bind_snd_raised in H as [H | (_ & _ & H)]; [discriminate |].
      destruct (os_write_ok w 0 out_path); discriminate.
    + cbn in H. congruence.
Qed.

(** X21. The errors of the codec that can leave [main]: an archive that
    ends early (a name without its null byte is one: the read after it
    finds no bytes), bytes or a name that a codec rejects, a gzip stream
    that does not decode, a number too large for its field. A wrong magic
    is never raised, and since the alignment is raised to 1 at least, no
    run divides by zero. *)
Theorem main_core_errors rt w args e :
  snd (main rt w args) = Raised (CoreError e) ->
  e = OutOfBounds \/ e = UnicodeError \/
  e = DecompressionError \/ e = StructError.
Proof.
  unfold main. intros H.
  apply io_bind_snd_raised in H as [H | (_ & _ & H)]; [discriminate |].
  apply io_bind_snd_raised in H as [H | (_ & _ & H)]; [discriminate |].
  destruct (negb (os_exists w (arg_path args))).
  { apply io_bind_snd_raised in H as [H | (_ & _ & H)]; discriminate. }
  apply io_bind_snd_raised in H as [H | (returned & _ & H)].
  - destruct (os_isfile w (arg_path args)); [| destruct (os_isdir w (arg_path args))].
    + apply io_bind_snd_raised in H as [H | (_ & _ & H)]; [discriminate |].
      apply io_bind_snd_raised in H as [H | (_ & _ & H)]; [| discriminate].
      apply unpack_io_raises in H. tauto.
    + apply io_bind_snd_raised in H as [H | (_ & _ & H)]; [discriminate |].
      apply io_bind_snd_raised in H as [H | (_ & _ & H)]; [| discriminate].
      apply repack_io_raises in H as [files H].
      assert (Ha : 1 <= Z.max 1 (arg_align args)) by lia.
      unfold repack in H.
      destruct (repack_run rt files _ _) as [[[org hs] st] | e1] eqn:Erun;
        cbn [bind] in H.
      * destruct (finish_after_run _ _ _ _ _ _ _ Ha Erun) as [archive Hfin].
        congruence.
      * injection H as <-. apply repack_run_err in Erun; [tauto | exact Ha].
    + apply io_bind_snd_raised in H as [H | (_ & _ & H)]; [discriminate |].
      apply io_bind_snd_raised in H as [H | (_ & _ & H)]; discriminate.
  - destruct returned; [discriminate |].
    apply io_bind_snd_raised in H as [H | (_ & _ & H)]; discriminate.
Qed.

Lemma main_core_errors_witness :
  snd (main python_rt (demo_os (pystr "y")) (mkArgs (pystr "cut.farc") false false 0))
    = Raised (CoreError OutOfBounds) /\
  (OutOfBounds = OutOfBounds \/ OutOfBounds = UnicodeError \/
   OutOfBounds = DecompressionError \/ OutOfBounds = StructError).
Proof.
  split; [reflexivity |].
  apply (main_core_errors python_rt (demo_os (pystr "y"))
           (mkArgs (pystr "cut.farc") false false 0)).
  reflexivity.
Defined.

(** X22. [main] pauses once, as its last call, in every run that it
    finishes, whichever way the run went; a run that an exception ends
    never pauses. *)
Theorem main_pauses_last rt w args :
  match snd (main rt w args) with
  | Returned _ =>
      exists t, fst (main rt w args) = t ++ [EvPause] /\
                Forall (fun e => is_pause e = false) t
  | Raised _ => Forall (fun e => is_pause e = false) (fst (main rt w args))
  end.
Proof.
  set (P := fun e => is_pause e = false).
  assert (Hcmd1 : forall i o, Forall P (fst (unpack_io rt w i o (arg_force_overwrite args))))
    by (intros; apply unpack_io_Forall; intros; reflexivity).
  assert (Hcmd2 : forall i o c a,
            Forall P (fst (repack_io rt w i o (arg_force_overwrite args) c a)))
    by (intros; apply repack_io_Forall; intros; reflexivity).
  unfold main. cbn [io_bind emit app].
  destruct (negb (os_exists w (arg_path args))); cbn [io_bind emit app fst snd].
  { eexists [_; _; _]. split; [reflexivity |]. repeat constructor. }
  destruct (os_isfile w (arg_path args)); [| destruct (os_isdir w (arg_path args))];
    cbn [io_bind emit app ret fst snd].
  - specialize (Hcmd1 (arg_path args) (unpack_target (arg_path args))).
    destruct (unpack_io _ _ _ _ _) as [t [[] | x]]; cbn [fst snd io_bind ret emit app] in *.
    + exists (EvPrint (pystr "PyFArc v1.0") :: EvPrint (pystr "By SutandoTsukai181" ++ nl)
              :: EvPrint (pystr "Unpacking FArc file..." ++ nl)
              :: t ++ [EvPrint (nl ++ pystr "Program finished.")]).
      split.
      * cbn [app]. rewrite app_nil_r, <- app_assoc. reflexivity.
      * repeat constructor. apply Forall_app. split; [exact Hcmd1 | repeat constructor].
    + repeat constructor. exact Hcmd1.
  - specialize (Hcmd2 (arg_path args) (repack_target (arg_path args))
                  (arg_compress args) (Z.max 1 (arg_align args))).
    destruct (repack_io _ _ _ _ _ _ _) as [t [[] | x]];
      cbn [fst snd io_bind ret emit app] in *.
    + exists (EvPrint (pystr "PyFArc v1.0") :: EvPrint (pystr "By SutandoTsukai181" ++ nl)
              :: EvPrint (pystr "Repacking folder to FArc..." ++ nl)
              :: t ++ [EvPrint (nl ++ pystr "Program finished.")]).
      split.
      * cbn [app]. rewrite app_nil_r, <- app_assoc. reflexivity.
      * repeat constructor. apply Forall_app. split; [exact Hcmd2 | repeat constructor].
    + repeat constructor. exact Hcmd2.
  - eexists [_; _; _]. split; [reflexivity |]. repeat constructor.
Qed.
